(** * Keithley 2260B serial driver: model and verification

    A shallow embedding of [Keithley_2260B_lib.py] (class [keithley_2260B]).

    - Python numbers are abstracted by the class [PyNum]: the driver only
      compares them ([<]), prints them ([str]), parses them ([float]) and
      hands them to [np.savetxt].
    - The object and the world it talks to (serial port, lock, threads,
      file system) are explicit state; methods are functions in a small
      state-and-exception monad [M].
    - The sampling thread is a step function over its program points;
      background steps are interleaved into the foreground code by an
      oracle, so every statement about a method holds for every schedule. *)

From Stdlib Require Import ZArith List String Ascii Bool Lia QArith DecimalString.
Import ListNotations.
Open Scope string_scope.
Open Scope nat_scope.

Set Implicit Arguments.

(* ================================================================== *)
(** * Python text *)

(** [str.isspace] on code points below 256: tab, LF, VT, FF, CR, the four
    separators FS GS RS US, space, NEL and NBSP. *)
Definition is_space (c : ascii) : bool :=
  let n := nat_of_ascii c in
  ((9 <=? n) && (n <=? 13)) || ((28 <=? n) && (n <=? 32))
  || (n =? 133) || (n =? 160).

Fixpoint lstrip (s : string) : string :=
  match s with
  | EmptyString => EmptyString
  | String c r => if is_space c then lstrip r else s
  end.

Fixpoint rstrip (s : string) : string :=
  match s with
  | EmptyString => EmptyString
  | String c r =>
      match rstrip r with
      | EmptyString => if is_space c then EmptyString else String c EmptyString
      | r' => String c r'
      end
  end.

(** [s.strip()] *)
Definition strip (s : string) : string := rstrip (lstrip s).

(** [sep.join(parts)] *)
Fixpoint join (sep : string) (parts : list string) : string :=
  match parts with
  | [] => EmptyString
  | [p] => p
  | p :: rest => p ++ sep ++ join sep rest
  end.

(** [s.split(sep)] for a one-character separator: the fields between the
    separators, empty ones included; never an empty list. *)
Fixpoint split (sep : ascii) (s : string) : list string :=
  match s with
  | EmptyString => [EmptyString]
  | String c r =>
      if Ascii.eqb c sep then EmptyString :: split sep r
      else match split sep r with
           | [] => [String c EmptyString]
           | field :: fields => String c field :: fields
           end
  end.

(** The outcome of subscripting a list: the item, or IndexError. *)
Inductive indexed (A : Type) : Type :=
| Item (a : A)
| IndexError.

Arguments Item {A} a.
Arguments IndexError {A}.

(** What [readline().decode('utf-8')] hands back: the decoded text of one
    line (terminator included), or a byte sequence that is not UTF-8. *)
Inductive line : Type :=
| Decoded (s : string)
| Undecodable.

(* ================================================================== *)
(** * Python numbers *)

(** The operations the driver applies to numbers. *)
Class PyNum (V : Type) : Type := {
  py_lt : V -> V -> bool;             (* a < b *)
  py_le : V -> V -> bool;             (* a <= b *)
  py_str : V -> string;               (* str(a) *)
  py_float : string -> option V;      (* float(s); None is ValueError *)
  py_fmt : V -> string;               (* '%.18e' % a, np.savetxt's format *)
  py_zero : V                         (* 0.0 *)
}.

(** The one law of comparison that bound checks rely on; it holds for
    ints and for IEEE floats (NaN makes both sides false). *)
Class PyNumOrder (V : Type) {N : PyNum V} : Prop := {
  py_le_not_lt : forall a b : V, py_le a b = true -> py_lt b a = false
}.

(** ** The integer fragment

    Python [int] arguments and replies that are integer literals, of
    magnitude below 2^53 so that the conversion to float is exact. *)
Module PyInt.

Definition digits (z : Z) : string :=
  NilZero.string_of_uint (N.to_uint (Z.abs_N z)).

(** [str(z)] for an [int]. *)
Definition str (z : Z) : string :=
  if (z <? 0)%Z then "-" ++ digits z else digits z.

Definition is_digit (c : ascii) : bool :=
  let n := nat_of_ascii c in (48 <=? n) && (n <=? 57).

Fixpoint all_digits (s : string) : bool :=
  match s with
  | EmptyString => true
  | String c r => is_digit c && all_digits r
  end.

Fixpoint all_zeros (s : string) : bool :=
  match s with
  | EmptyString => true
  | String c r => (nat_of_ascii c =? 48) && all_zeros r
  end.

(** Splits at the first dot. *)
Fixpoint split_dot (s : string) : string * option string :=
  match s with
  | EmptyString => (EmptyString, None)
  | String c r =>
      if (nat_of_ascii c =? 46) then (EmptyString, Some r)
      else let '(a, b) := split_dot r in (String c a, b)
  end.

Definition unsigned (s : string) : option Z :=
  let '(whole, frac) := split_dot s in
  match whole with
  | EmptyString => None
  | _ =>
      if all_digits whole
         && match frac with None => true | Some f => all_zeros f end
      then option_map Z.of_uint (NilZero.uint_of_string whole)
      else None
  end.

(** [float(s)] on literals whose value is an integer: an optional sign,
    digits, and an optional fraction of zeros.  Anything else is not a
    number of this fragment. *)
Definition parse (s : string) : option Z :=
  match s with
  | String "-" r => option_map Z.opp (unsigned r)
  | String "+" r => unsigned r
  | _ => unsigned s
  end.

Fixpoint pad0 (n : nat) (s : string) : string :=
  match n with
  | O => EmptyString
  | S n' =>
      match s with
      | EmptyString => String "0" (pad0 n' EmptyString)
      | String c r => String c (pad0 n' r)
      end
  end.

(** ['%.18e' % z]: one digit, a dot, eighteen digits, a signed exponent
    of at least two digits. *)
Definition fmt (z : Z) : string :=
  let ds := digits z in
  let e := Nat.pred (String.length ds) in
  let es := NilZero.string_of_uint (Nat.to_uint e) in
  (if (z <? 0)%Z then "-" else EmptyString)
  ++ match ds with
     | EmptyString => "0"
     | String c r => String c ("." ++ pad0 18 r)
     end
  ++ "e+" ++ (if e <? 10 then "0" ++ es else es).

End PyInt.

#[export] Instance PyInt_num : PyNum Z := {
  py_lt := Z.ltb;
  py_le := Z.leb;
  py_str := PyInt.str;
  py_float := PyInt.parse;
  py_fmt := PyInt.fmt;
  py_zero := 0%Z
}.

(* ================================================================== *)
(** * The object and its world *)

(** The exceptions that can leave a method. *)
Inductive exn : Type :=
| ValueError            (* float() on a non-number; np.savetxt on ragged rows *)
| UnicodeDecodeError    (* bytes.decode('utf-8') *)
| RuntimeError.         (* join() before start(), release() of a lock not held *)

(** Who performs an action: the caller's thread or a sampling thread. *)
Inductive actor : Type :=
| Main
| Worker (t : nat).

Inductive series : Type := SVoltage | SCurrent | SPower.

(** Observable actions, recorded in program order. *)
Inductive event (V : Type) : Type :=
| Send (s : string)                  (* dev.write(s) *)
| Recv (l : line)                    (* dev.readline() returned l *)
| Warn (msg : string)                (* logging.warning(msg) *)
| Print (msg : string)               (* print(msg) *)
| Sleep (d : Q)                      (* time.sleep(d) *)
| SetActive (b : bool)               (* self.reading_thread_active = b *)
| Acquire                            (* self.lock.acquire() returned *)
| Release                            (* self.lock.release() *)
| Append (k : series) (x : V)        (* self.data_<k>.append(x) *)
| Start (t : nat)                    (* Thread.start() *)
| Join (t : nat)                     (* Thread.join() returned *)
| OpenW (path : string)              (* open(path, 'w') *)
| WriteFile (path content : string). (* text written before the file closes *)

Arguments Send {V} s.
Arguments Recv {V} l.
Arguments Warn {V} msg.
Arguments Print {V} msg.
Arguments Sleep {V} d.
Arguments SetActive {V} b.
Arguments Acquire {V}.
Arguments Release {V}.
Arguments Start {V} t.
Arguments Join {V} t.
Arguments OpenW {V} path.
Arguments WriteFile {V} path content.

(** Program points of [_read_power_supply_data] (lines 515-525), plus the
    states of a [Thread] object before [start()] and after its target ended.
    The [_append] points carry the value just measured. *)
Inductive wpc (V : Type) : Type :=
| T_created
| T_loop                             (* while self.reading_thread_active: *)
| T_acquire                          (* self.lock.acquire() *)
| T_volt_write | T_volt_read | T_volt_append (x : V)
| T_curr_write | T_curr_read | T_curr_append (x : V)
| T_pow_write | T_pow_read | T_pow_append (x : V)
| T_release                          (* self.lock.release() *)
| T_sleep                            (* time.sleep(0.05) *)
| T_finished
| T_raised (e : exn).

Arguments T_created {V}.
Arguments T_loop {V}.
Arguments T_acquire {V}.
Arguments T_volt_write {V}.
Arguments T_volt_read {V}.
Arguments T_curr_write {V}.
Arguments T_curr_read {V}.
Arguments T_pow_write {V}.
Arguments T_pow_read {V}.
Arguments T_release {V}.
Arguments T_sleep {V}.
Arguments T_finished {V}.
Arguments T_raised {V} e.

(** The cached capability bounds, by attribute name. *)
Inductive attr : Type :=
| max_voltage | min_voltage | max_current | min_current
| over_current_protection_min | over_current_protection_max
| over_voltage_protection_min | over_voltage_protection_max
| current_max_rising_slew_rate | current_min_rising_slew_rate
| current_max_falling_slew_rate | current_min_falling_slew_rate
| voltage_max_rising_slew_rate | voltage_min_rising_slew_rate
| voltage_max_falling_slew_rate | voltage_min_falling_slew_rate
| internal_resistance_min | internal_resistance_max.

Definition attr_eq_dec (a b : attr) : {a = b} + {a <> b}.
Proof. decide equality. Defined.

(** The instance attributes of a [keithley_2260B] object. *)
Record keithley_2260B (V : Type) : Type := mkObject {
  caps : attr -> V;
  max_power : V;
  ps_info_string : string;
  reading_thread_active : bool;
  ps_thread : nat;                   (* handle: index into [threads] *)
  data_current : list V;
  data_voltage : list V;
  data_power : list V
}.

(** Everything outside the object. *)
Record world (V : Type) : Type := mkWorld {
  device : list string -> list line; (* the instrument: lines it answers once
                                        the given commands have been sent *)
  incoming : list line;              (* answered but not yet read *)
  lock : option (nat * nat);         (* RLock: owning thread and depth *)
  threads : list (wpc V);
  oracle : nat -> list nat;          (* background steps taken at each tick *)
  clock : nat;
  patience : nat;                    (* polls a blocking call is watched for *)
  files : string -> option string;
  log : list (actor * event V)
}.

Record state (V : Type) : Type := mkState {
  self : keithley_2260B V;
  env : world V
}.

(** Outcome of running a method. *)
Inductive result (V A : Type) : Type :=
| Ok (a : A) (st : state V)
| Raise (e : exn) (st : state V)
| Hang (st : state V).               (* still blocked when patience ran out *)

Arguments Ok {V A} a st.
Arguments Raise {V A} e st.
Arguments Hang {V A} st.

Definition M (V A : Type) : Type := state V -> result V A.

Definition ret {V A : Type} (a : A) : M V A := fun st => Ok a st.

Definition bind {V A B : Type} (m : M V A) (k : A -> M V B) : M V B :=
  fun st =>
    match m st with
    | Ok a st' => k a st'
    | Raise e st' => Raise e st'
    | Hang st' => Hang st'
    end.

Definition raise {V A : Type} (e : exn) : M V A := fun st => Raise e st.

Notation "x <- m ;; k" := (bind m (fun x => k))
  (at level 61, m at next level, right associativity).
Notation "m ;; k" := (bind m (fun _ => k))
  (at level 61, right associativity).

Definition final {V A : Type} (r : result V A) : state V :=
  match r with
  | Ok _ st => st
  | Raise _ st => st
  | Hang st => st
  end.

(** An argument that may be [None], a string or a number (the optional
    [min_max] of the getters). *)
Inductive pyarg (V : Type) : Type :=
| PNone
| PStr (s : string)
| PNumber (x : V).

Arguments PNone {V}.
Arguments PStr {V} s.

Definition actor_eqb (a b : actor) : bool :=
  match a, b with
  | Main, Main => true
  | Worker t, Worker u => Nat.eqb t u
  | _, _ => false
  end.

(** The line terminator that [write] appends. *)
Definition nl : string := String (ascii_of_nat 10) EmptyString.

Fixpoint update_nth {A : Type} (n : nat) (x : A) (l : list A) : list A :=
  match l, n with
  | [], _ => []
  | _ :: r, O => x :: r
  | y :: r, S n' => y :: update_nth n' x r
  end.

Section Driver.

Context {V : Type} {N : PyNum V}.

(** ** Functional updates *)

Definition set_incoming (x : list line) (w : world V) : world V :=
  mkWorld (device w) x (lock w) (threads w) (oracle w) (clock w)
          (patience w) (files w) (log w).

Definition set_lock (x : option (nat * nat)) (w : world V) : world V :=
  mkWorld (device w) (incoming w) x (threads w) (oracle w) (clock w)
          (patience w) (files w) (log w).

Definition set_threads (x : list (wpc V)) (w : world V) : world V :=
  mkWorld (device w) (incoming w) (lock w) x (oracle w) (clock w)
          (patience w) (files w) (log w).

Definition set_clock (x : nat) (w : world V) : world V :=
  mkWorld (device w) (incoming w) (lock w) (threads w) (oracle w) x
          (patience w) (files w) (log w).

Definition set_files (x : string -> option string) (w : world V) : world V :=
  mkWorld (device w) (incoming w) (lock w) (threads w) (oracle w) (clock w)
          (patience w) x (log w).

Definition set_log (x : list (actor * event V)) (w : world V) : world V :=
  mkWorld (device w) (incoming w) (lock w) (threads w) (oracle w) (clock w)
          (patience w) (files w) x.

Definition set_caps (x : attr -> V) (o : keithley_2260B V) :=
  mkObject x (max_power o) (ps_info_string o) (reading_thread_active o)
           (ps_thread o) (data_current o) (data_voltage o) (data_power o).

Definition set_max_power (x : V) (o : keithley_2260B V) :=
  mkObject (caps o) x (ps_info_string o) (reading_thread_active o)
           (ps_thread o) (data_current o) (data_voltage o) (data_power o).

Definition set_ps_info_string (x : string) (o : keithley_2260B V) :=
  mkObject (caps o) (max_power o) x (reading_thread_active o)
           (ps_thread o) (data_current o) (data_voltage o) (data_power o).

Definition set_reading_thread_active (x : bool) (o : keithley_2260B V) :=
  mkObject (caps o) (max_power o) (ps_info_string o) x
           (ps_thread o) (data_current o) (data_voltage o) (data_power o).

Definition set_ps_thread (x : nat) (o : keithley_2260B V) :=
  mkObject (caps o) (max_power o) (ps_info_string o) (reading_thread_active o)
           x (data_current o) (data_voltage o) (data_power o).

Definition set_data_current (x : list V) (o : keithley_2260B V) :=
  mkObject (caps o) (max_power o) (ps_info_string o) (reading_thread_active o)
           (ps_thread o) x (data_voltage o) (data_power o).

Definition set_data_voltage (x : list V) (o : keithley_2260B V) :=
  mkObject (caps o) (max_power o) (ps_info_string o) (reading_thread_active o)
           (ps_thread o) (data_current o) x (data_power o).

Definition set_data_power (x : list V) (o : keithley_2260B V) :=
  mkObject (caps o) (max_power o) (ps_info_string o) (reading_thread_active o)
           (ps_thread o) (data_current o) (data_voltage o) x.

Definition with_env (f : world V -> world V) (st : state V) : state V :=
  mkState (self st) (f (env st)).

Definition with_self (f : keithley_2260B V -> keithley_2260B V)
           (st : state V) : state V :=
  mkState (f (self st)) (env st).

(** [self.<a> = x] for a capability bound. *)
Definition assign (a : attr) (x : V) (st : state V) : state V :=
  with_self (fun o =>
    set_caps (fun b => if attr_eq_dec b a then x else caps o b) o) st.

(** ** The log and what it shows *)

Definition emit (who : actor) (e : event V) (st : state V) : state V :=
  with_env (fun w => set_log (log w ++ [(who, e)]) w) st.

(** Every line handed to the port, by anyone, oldest first. *)
Fixpoint sends (l : list (actor * event V)) : list string :=
  match l with
  | [] => []
  | (_, Send s) :: r => s :: sends r
  | _ :: r => sends r
  end.

(** The events of one actor, oldest first. *)
Definition events_of (who : actor) (l : list (actor * event V))
  : list (event V) :=
  map snd (filter (fun p => actor_eqb (fst p) who) l).

Fixpoint sent_in (l : list (event V)) : list string :=
  match l with
  | [] => []
  | Send s :: r => s :: sent_in r
  | _ :: r => sent_in r
  end.

Fixpoint warned_in (l : list (event V)) : list string :=
  match l with
  | [] => []
  | Warn m :: r => m :: warned_in r
  | _ :: r => warned_in r
  end.

(** Lines the caller's thread has transmitted. *)
Definition transmitted (st : state V) : list string :=
  sent_in (events_of Main (log (env st))).

(** Warnings the caller's thread has logged. *)
Definition warnings (st : state V) : list string :=
  warned_in (events_of Main (log (env st))).

(** ** The serial port *)

(** [self.dev.write(bytes)]: the instrument sees the line and queues
    whatever it answers. *)
Definition dev_write (who : actor) (bytes : string) (st : state V)
  : state V :=
  let st1 := emit who (Send bytes) st in
  with_env (fun w =>
    set_incoming (incoming w ++ device w (sends (log w))) w) st1.

(** [self.dev.readline().decode('utf-8')], when a line is there. *)
Definition dev_readline (who : actor) (st : state V)
  : option (line * state V) :=
  match incoming (env st) with
  | [] => None
  | l :: rest =>
      Some (l, emit who (Recv l) (with_env (set_incoming rest) st))
  end.

(** ** The sampling thread, one step at a time *)

Definition thread_at (t : nat) (st : state V) : option (wpc V) :=
  nth_error (threads (env st)) t.

Definition goto (t : nat) (pc : wpc V) (st : state V) : state V :=
  with_env (fun w => set_threads (update_nth t pc (threads w)) w) st.

(** [float(self.read())] inside the thread: blocked while no line is
    there, otherwise on to [next x] or dead with the exception. *)
Definition thread_read_float (t : nat) (next : V -> wpc V) (st : state V)
  : state V :=
  match dev_readline (Worker t) st with
  | None => st
  | Some (Undecodable, st') => goto t (T_raised UnicodeDecodeError) st'
  | Some (Decoded txt, st') =>
      match py_float (strip txt) with
      | Some x => goto t (next x) st'
      | None => goto t (T_raised ValueError) st'
      end
  end.

Definition sample_period : Q := 5 # 100.     (* 0.05 *)

(** One step of thread [t] through [_read_power_supply_data]. *)
Definition _read_power_supply_data (t : nat) (st : state V) : state V :=
  let me := Worker t in
  match thread_at t st with
  | None => st
  | Some pc =>
      match pc with
      | T_created | T_finished | T_raised _ => st
      | T_loop =>
          if reading_thread_active (self st)
          then goto t T_acquire st
          else goto t T_finished st
      | T_acquire =>
          match lock (env st) with
          | None =>
              goto t T_volt_write
                (emit me Acquire (with_env (set_lock (Some (t, 1))) st))
          | Some (owner, depth) =>
              if Nat.eqb owner t
              then goto t T_volt_write
                     (emit me Acquire
                        (with_env (set_lock (Some (t, S depth))) st))
              else st
          end
      | T_volt_write =>
          goto t T_volt_read (dev_write me ("MEAS:VOLT?" ++ nl) st)
      | T_volt_read => thread_read_float t (@T_volt_append V) st
      | T_volt_append x =>
          goto t T_curr_write
            (emit me (Append SVoltage x)
               (with_self (fun o =>
                  set_data_voltage (data_voltage o ++ [x]) o) st))
      | T_curr_write =>
          goto t T_curr_read (dev_write me ("MEAS:CURR?" ++ nl) st)
      | T_curr_read => thread_read_float t (@T_curr_append V) st
      | T_curr_append x =>
          goto t T_pow_write
            (emit me (Append SCurrent x)
               (with_self (fun o =>
                  set_data_current (data_current o ++ [x]) o) st))
      | T_pow_write =>
          goto t T_pow_read (dev_write me ("MEAS:POW?" ++ nl) st)
      | T_pow_read => thread_read_float t (@T_pow_append V) st
      | T_pow_append x =>
          goto t T_release
            (emit me (Append SPower x)
               (with_self (fun o =>
                  set_data_power (data_power o ++ [x]) o) st))
      | T_release =>
          match lock (env st) with
          | Some (owner, S depth) =>
              if Nat.eqb owner t
              then goto t T_sleep
                     (emit me Release
                        (with_env (set_lock
                           match depth with
                           | O => None
                           | _ => Some (t, depth)
                           end) st))
              else goto t (T_raised RuntimeError) st
          | _ => goto t (T_raised RuntimeError) st
          end
      | T_sleep => goto t T_loop (emit me (Sleep sample_period) st)
      end
  end.

(** The background steps of one tick, in the order the oracle gives. *)
Definition run_burst (b : list nat) (st : state V) : state V :=
  fold_left (fun s t => _read_power_supply_data t s) b st.

(** Time passes: the clock advances and the background threads take the
    steps the oracle schedules for this tick. *)
Definition tick (st : state V) : state V :=
  run_burst (oracle (env st) (clock (env st)))
            (with_env (fun w => set_clock (S (clock w)) w) st).

End Driver.

Section Methods.

Context {V : Type} {N : PyNum V}.

(** ** Primitive actions of the caller's thread

    Each one is preceded by a tick, so the background threads may run
    between any two of them. *)

Definition atomic {A : Type} (f : state V -> result V A) : M V A :=
  fun st => f (tick st).

(** A blocking call: polled once per tick until it can complete. *)
Fixpoint await {A : Type} (n : nat)
         (attempt : state V -> option (result V A)) (st : state V)
  : result V A :=
  let st1 := tick st in
  match attempt st1 with
  | Some r => r
  | None =>
      match n with
      | O => Hang st1
      | S n' => await n' attempt st1
      end
  end.

Definition blocking {A : Type} (attempt : state V -> option (result V A))
  : M V A :=
  fun st => await (patience (env st)) attempt st.

(** [self.<a>] *)
Definition attribute (a : attr) : M V V :=
  fun st => Ok (caps (self st) a) st.

(** [float(s)] *)
Definition float (s : string) : M V V :=
  match py_float s with
  | Some x => ret x
  | None => raise ValueError
  end.

(** [logging.warning(msg)] *)
Definition warning (msg : string) : M V unit :=
  atomic (fun st => Ok tt (emit Main (Warn msg) st)).

(** [print(msg)] *)
Definition print (msg : string) : M V unit :=
  atomic (fun st => Ok tt (emit Main (Print msg) st)).

(** [time.sleep(d)] *)
Definition sleep (d : Q) : M V unit :=
  atomic (fun st => Ok tt (emit Main (Sleep d) st)).

(** ** Lines 159-173: [write] and [read] *)

Definition write (string : String.string) : M V unit :=
  atomic (fun st => Ok tt (dev_write Main (string ++ nl) st)).

Definition read : M V string :=
  blocking (fun st =>
    match dev_readline Main st with
    | None => None
    | Some (Decoded txt, st') => Some (Ok (strip txt) st')
    | Some (Undecodable, st') => Some (Raise UnicodeDecodeError st')
    end).

(** ** Lines 175-223 *)

Definition abort : M V unit := write "ABOR".

Definition set_voltage_current (voltage current : V) : M V unit :=
  lo_v <- attribute min_voltage ;;
  hi_v <- attribute max_voltage ;;
  lo_i <- attribute min_current ;;
  hi_i <- attribute max_current ;;
  if (py_lt lo_v voltage && py_lt voltage hi_v)
     && (py_lt lo_i current && py_lt current hi_i)
  then write ("APPL " ++ py_str voltage ++ "," ++ py_str current)
  else warning ("Warning: Set voltage or current out of power supply absolute ratings. "
                ++ "Command has been ignored.").

Definition measure_current : M V V :=
  write "MEAS:CURR?" ;; s <- read ;; float s.

Definition measure_voltage : M V V :=
  write "MEAS:VOLT?" ;; s <- read ;; float s.

Definition measure_power : M V V :=
  write "MEAS:POW?" ;; s <- read ;; float s.

(** ** The optional [min_max] argument *)

Definition is_none (a : pyarg V) : bool :=
  match a with PNone => true | _ => false end.

(** [a == s] for a string literal [s] *)
Definition equals (a : pyarg V) (s : string) : bool :=
  match a with PStr s' => String.eqb s' s | _ => false end.

(** ** Lines 225-247: internal resistance *)

Definition set_internal_resistance (resistance : V) : M V unit :=
  lo <- attribute internal_resistance_min ;;
  hi <- attribute internal_resistance_max ;;
  if py_lt lo resistance && py_lt resistance hi
  then write ("RES " ++ py_str resistance)
  else warning ("Warning: Set internal resistance is out of power supply absolute ratings. "
                ++ "Command has been ignored.").

Definition get_internal_resistance (min_max : pyarg V) : M V V :=
  (if is_none min_max then write "RES?"
   else if equals min_max "MIN" then write "RES? MIN"
   else if equals min_max "MAX" then write "RES? MAX"
   else ret tt) ;;
  s <- read ;; float s.

(** ** Lines 249-292: mode and output *)

Definition set_power_supply_mode (ps_mode : string) : M V unit :=
  if existsb (String.eqb ps_mode) ["CVHS"; "CCHS"; "CVLS"; "CCLS"]
  then write ("OUTP:MODE " ++ ps_mode)
  else warning ("Warning: Malformed string for power supply mode command. "
                ++ "Command has been ignored.").

Definition get_power_supply_mode : M V string :=
  write "OUTP:MODE?" ;;
  ps_mode <- read ;;
  ret (if String.eqb ps_mode "0" then "CVHS"
       else if String.eqb ps_mode "1" then "CCHS"
       else if String.eqb ps_mode "2" then "CVLS"
       else if String.eqb ps_mode "3" then "CCLS"
       else EmptyString).

Definition power_supply_on : M V unit := write "OUTP 1".

Definition power_supply_off : M V unit := write "OUTP 0".

(** ** Lines 294-343: current and over-current protection *)

Definition set_current (current_value : V) : M V unit :=
  lo <- attribute min_current ;;
  hi <- attribute max_current ;;
  if py_lt lo current_value && py_lt current_value hi
  then write ("CURR " ++ py_str current_value)
  else warning ("Warning: Set current target is out of power supply absolute ratings. "
                ++ "Command has been ignored.").

Definition get_current (min_max : pyarg V) : M V V :=
  (if is_none min_max then write "CURR?"
   else if equals min_max "MAX" then write "CURR? MAX"
   else if equals min_max "MIN" then write "CURR? MIN"
   else ret tt) ;;
  s <- read ;; float s.

Definition set_over_current_protection (over_current_protection : V)
  : M V unit :=
  lo <- attribute over_current_protection_min ;;
  hi <- attribute over_current_protection_max ;;
  if py_lt lo over_current_protection && py_lt over_current_protection hi
  then write ("CURR:PROT " ++ py_str over_current_protection)
  else warning ("Warning: Set over-current protection is out of power supply absolute ratings. "
                ++ "Command has been ignored.").

Definition get_over_current_protection (min_max : pyarg V) : M V V :=
  (if is_none min_max then write "CURR:PROT?"
   else if equals min_max "MIN" then write "CURR:PROT? MIN"
   else if equals min_max "MAX" then write "CURR:PROT? MAX"
   else ret tt) ;;
  s <- read ;; float s.

(** ** Lines 345-411: current slew rates and over-voltage protection

    The bounds tested are the ones the source names, line by line. *)

Definition set_rising_current_slew_rate (slew_rate : V) : M V unit :=
  lo <- attribute current_min_rising_slew_rate ;;
  hi <- attribute current_max_falling_slew_rate ;;
  if py_lt lo slew_rate && py_lt slew_rate hi
  then write ("CURR:SLEW:RIS " ++ py_str slew_rate)
  else warning ("Warning: Set rising current slew rate is out of power supply absolute ratings. "
                ++ "Command has been ignored.").

Definition get_rising_current_slew_rate (min_max : pyarg V) : M V V :=
  (if is_none min_max then write "CURR:SLEW:RIS?"
   else if equals min_max "MAX" then write "CURR:SLEW:RIS? MAX"
   else if equals min_max "MIN" then write "CURR:SLEW:RIS? MIN"
   else ret tt) ;;
  s <- read ;; float s.

Definition set_over_voltage_protection (over_voltage_protection : V)
  : M V unit :=
  lo <- attribute over_current_protection_min ;;
  hi <- attribute over_voltage_protection_max ;;
  if py_lt lo over_voltage_protection && py_lt over_voltage_protection hi
  then write ("VOLT:PROT " ++ py_str over_voltage_protection)
  else warning ("Warning: Set over-voltage protection is out of power supply absolute ratings. "
                ++ "Command has been ignored.").

Definition get_over_voltage_protection (min_max : pyarg V) : M V V :=
  (if is_none min_max then write "VOLT:PROT?"
   else if equals min_max "MIN" then write "VOLT:PROT? MIN"
   else if equals min_max "MAX" then write "VOLT:PROT? MAX"
   else ret tt) ;;
  s <- read ;; float s.

Definition set_falling_current_slew_rate (slew_rate : V) : M V unit :=
  lo <- attribute current_min_falling_slew_rate ;;
  hi <- attribute current_max_falling_slew_rate ;;
  if py_lt lo slew_rate && py_lt slew_rate hi
  then write ("CURR:SLEW:FALL " ++ py_str slew_rate)
  else warning ("Warning: Set falling current slew rate is out of power supply absolute ratings. "
                ++ "Command has been ignored.").

Definition get_falling_current_slew_rate (min_max : pyarg V) : M V V :=
  (if is_none min_max then write "CURR:SLEW:FALL?"
   else if equals min_max "MIN" then write "CURR:SLEW:FALL? MIN"
   else if equals min_max "MAX" then write "CURR:SLEW:FALL? MAX"
   else ret tt) ;;
  s <- read ;; float s.

(** ** Lines 413-489: voltage and voltage slew rates *)

Definition set_voltage (voltage_value : V) : M V unit :=
  lo <- attribute min_voltage ;;
  hi <- attribute max_voltage ;;
  if py_lt lo voltage_value && py_lt voltage_value hi
  then write ("VOLT " ++ py_str voltage_value)
  else warning ("Warning: Set voltage target is out of power supply absolute ratings. "
                ++ "Command has been ignored.").

Definition get_voltage (min_max : pyarg V) : M V V :=
  (if is_none min_max then write "VOLT?"
   else if equals min_max "MAX" then write "VOLT? MAX"
   else if equals min_max "MIN" then write "VOLT? MIN"
   else ret tt) ;;
  s <- read ;; float s.

Definition set_rising_voltage_slew_rate (slew_rate : V) : M V unit :=
  lo <- attribute voltage_min_rising_slew_rate ;;
  hi <- attribute voltage_max_rising_slew_rate ;;
  if py_lt lo slew_rate && py_lt slew_rate hi
  then write ("VOLT:SLEW:RIS " ++ py_str slew_rate)
  else warning ("Warning: Set rising voltage slew rate is out of power supply absolute ratings. "
                ++ "Command has been ignored.").

Definition get_rising_voltage_slew_rate (min_max : pyarg V) : M V V :=
  (if is_none min_max then write "VOLT:SLEW:RIS?"
   else if equals min_max "MIN" then write "VOLT:SLEW:RIS? MIN"
   else if equals min_max "MAX" then write "VOLT:SLEW:RIS? MAX"
   else ret tt) ;;
  s <- read ;; float s.

Definition set_falling_voltage_slew_rate (slew_rate : V) : M V unit :=
  lo <- attribute voltage_min_falling_slew_rate ;;
  hi <- attribute voltage_max_falling_slew_rate ;;
  if py_lt lo slew_rate && py_lt slew_rate hi
  then write ("VOLT:SLEW:FALL " ++ py_str slew_rate)
  else warning ("Warning: Set falling voltage slew rate is out of power supply absolute ratings. "
                ++ "Command has been ignored.").

Definition get_falling_voltage_slew_rate (min_max : pyarg V) : M V V :=
  (if is_none min_max then write "VOLT:SLEW:FALL?"
   else if equals min_max "MIN" then write "VOLT:SLEW:FALL? MIN"
   else if equals min_max "MAX" then write "VOLT:SLEW:FALL? MAX"
   else ret tt) ;;
  s <- read ;; float s.

Definition get_power_supply_info : M V unit :=
  write "SYST:INF?" ;;
  s <- read ;;
  fun st => Ok tt (with_self (set_ps_info_string s) st).

(** ** Lines 196-202: [get_voltage_current]

    [string[0]] and [string[1]] are evaluated in this order, each followed
    by its [float].  IndexError, for which [exn] has no constructor, is
    handed back as the value [IndexError]. *)
Definition get_voltage_current : M V (indexed (V * V)) :=
  write "APPL?" ;;
  reply <- read ;;
  let string := split "," reply in
  match nth_error string 0 with
  | None => ret IndexError
  | Some field0 =>
      voltage <- float field0 ;;
      match nth_error string 1 with
      | None => ret IndexError
      | Some field1 =>
          current <- float field1 ;;
          ret (Item (voltage, current))
      end
  end.

(** ** Lines 128-157: [print_all_info]

    Each [print] evaluates its argument first, so the getter inside it
    runs before the line is printed. *)
Definition print_all_info : M V unit :=
  info <- (fun st => Ok (ps_info_string (self st)) st) ;;
  print ("Power supply: " ++ info) ;;
  power <- (fun st => Ok (max_power (self st)) st) ;;
  print ("Created by the user as a " ++ py_str power ++ "W power supply.") ;;
  lo <- attribute internal_resistance_min ;;
  hi <- attribute internal_resistance_max ;;
  x <- get_internal_resistance PNone ;;
  print ("Power supply internal resistance: MIN=" ++ py_str lo
         ++ "Ohm / MAX=" ++ py_str hi ++ "Ohm / SET= " ++ py_str x ++ "Ohm") ;;
  mode <- get_power_supply_mode ;;
  print ("The power supply is in " ++ mode ++ " mode." ++ nl) ;;
  lo <- attribute min_current ;;
  hi <- attribute max_current ;;
  x <- get_current PNone ;;
  print ("Current: MIN=" ++ py_str lo ++ "A / MAX=" ++ py_str hi
         ++ "A / SET=" ++ py_str x ++ "A") ;;
  lo <- attribute current_min_rising_slew_rate ;;
  hi <- attribute current_max_rising_slew_rate ;;
  x <- get_rising_current_slew_rate PNone ;;
  print ("Current rising slew rates: MIN=" ++ py_str lo ++ "A/s / MAX="
         ++ py_str hi ++ "A/s / SET=" ++ py_str x ++ "A/s") ;;
  lo <- attribute current_min_falling_slew_rate ;;
  hi <- attribute current_max_falling_slew_rate ;;
  x <- get_falling_current_slew_rate PNone ;;
  print ("Current falling slew rates: MIN=" ++ py_str lo ++ "A/s / MAX="
         ++ py_str hi ++ "A/s / SET=" ++ py_str x ++ "A/s") ;;
  lo <- attribute over_current_protection_min ;;
  hi <- attribute over_current_protection_max ;;
  x <- get_over_current_protection PNone ;;
  print ("Over-current protection: MIN=" ++ py_str lo ++ "A / MAX="
         ++ py_str hi ++ "A / SET=" ++ py_str x ++ "A" ++ nl) ;;
  lo <- attribute min_voltage ;;
  hi <- attribute max_voltage ;;
  x <- get_voltage PNone ;;
  print ("Voltage: MIN=" ++ py_str lo ++ "V / MAX=" ++ py_str hi
         ++ "V / SET=" ++ py_str x ++ "V") ;;
  lo <- attribute voltage_min_rising_slew_rate ;;
  hi <- attribute voltage_max_rising_slew_rate ;;
  x <- get_rising_voltage_slew_rate PNone ;;
  print ("Voltage rising slew rates: MIN=" ++ py_str lo ++ "V/s / MAX="
         ++ py_str hi ++ "V/s / SET=" ++ py_str x ++ "V/s") ;;
  lo <- attribute voltage_min_falling_slew_rate ;;
  hi <- attribute voltage_max_falling_slew_rate ;;
  x <- get_falling_voltage_slew_rate PNone ;;
  print ("Voltage falling slew rates: MIN=" ++ py_str lo ++ "V/s / MAX="
         ++ py_str hi ++ "V/s / SET=" ++ py_str x ++ "V/s") ;;
  lo <- attribute over_voltage_protection_min ;;
  hi <- attribute over_voltage_protection_max ;;
  x <- get_over_voltage_protection PNone ;;
  print ("Over voltage protection: MIN=" ++ py_str lo ++ "V/s / MAX="
         ++ py_str hi ++ "V/s / SET=" ++ py_str x ++ "V/s").

End Methods.

Section Sampler.

Context {V : Type} {N : PyNum V}.

(** ** Thread objects *)

Definition halted (pc : wpc V) : bool :=
  match pc with
  | T_created | T_finished | T_raised _ => true
  | _ => false
  end.

(** The target has returned or died. *)
Definition ended (pc : wpc V) : bool :=
  match pc with
  | T_finished | T_raised _ => true
  | _ => false
  end.

(** [Thread(target=self._read_power_supply_data)] *)
Definition Thread : M V nat :=
  fun st =>
    Ok (List.length (threads (env st)))
       (with_env (fun w => set_threads (threads w ++ [T_created]) w) st).

(** [t.start()] *)
Definition thread_start (t : nat) : M V unit :=
  atomic (fun st =>
    match thread_at t st with
    | Some T_created => Ok tt (emit Main (Start t) (goto t T_loop st))
    | _ => Raise RuntimeError st
    end).

(** [t.join()] *)
Definition thread_join (t : nat) : M V unit :=
  fun st =>
    match thread_at t st with
    | None | Some T_created => Raise RuntimeError st
    | Some _ =>
        blocking (fun s =>
          match thread_at t s with
          | Some pc =>
              if ended pc then Some (Ok tt (emit Main (Join t) s)) else None
          | None => None
          end) st
    end.

(** [self.reading_thread_active = b] *)
Definition set_active (b : bool) : M V unit :=
  atomic (fun st =>
    Ok tt (emit Main (SetActive b)
             (with_self (set_reading_thread_active b) st))).

(** ** Lines 495-509: starting and stopping the sampling thread *)

Definition start_thread_power_supply_data : M V unit :=
  set_active true ;;
  t <- Thread ;;
  (fun st => Ok tt (with_self (set_ps_thread t) st)) ;;
  th <- (fun st => Ok (ps_thread (self st)) st) ;;
  thread_start th.

Definition stop_thread_power_supply_data : M V unit :=
  set_active false ;;
  sleep (1 # 10) ;;
  th <- (fun st => Ok (ps_thread (self st)) st) ;;
  thread_join th.

(** ** Lines 527-537: [save_data] *)

(** [np.array(self.data_<k>)]: a copy of the list as it is now. *)
Definition np_array (field : keithley_2260B V -> list V) : M V (list V) :=
  atomic (fun st => Ok (field (self st)) st).

(** [open(path, 'w')] creates or truncates the file. *)
Definition open_w (path : string) : M V unit :=
  atomic (fun st =>
    Ok tt (emit Main (OpenW path)
             (with_env (fun w =>
                set_files (fun p => if String.eqb p path
                                    then Some EmptyString else files w p) w)
                st))).

Definition rectangular (rows : list (list V)) : bool :=
  match rows with
  | [] => true
  | r :: rest =>
      forallb (fun r' => Nat.eqb (List.length r') (List.length r)) rest
  end.

(** The text [np.savetxt] produces: one line per row, the values in
    ['%.18e'] format joined by the delimiter, no header, no footer. *)
Definition savetxt_text (rows : list (list V)) (delimiter : string)
  : string :=
  String.concat EmptyString
    (map (fun row => join delimiter (map py_fmt row) ++ nl) rows).

(** [np.savetxt(f, rows, delimiter=...)] on the file opened at [path]:
    rows of unequal length do not form an array and nothing is written. *)
Definition savetxt (path : string) (rows : list (list V))
           (delimiter : string) : M V unit :=
  atomic (fun st =>
    if rectangular rows
    then
      let text := savetxt_text rows delimiter in
      Ok tt (emit Main (WriteFile path text)
               (with_env (fun w =>
                  set_files (fun p =>
                    if String.eqb p path
                    then Some (match files w p with
                               | Some old => old ++ text
                               | None => text
                               end)
                    else files w p) w) st))
    else Raise ValueError st).

Definition save_data : M V unit :=
  v <- np_array (@data_voltage V) ;;
  c <- np_array (@data_current V) ;;
  p <- np_array (@data_power V) ;;
  let ps_data := [v; c; p] in
  open_w "PS_data.csv" ;;
  savetxt "PS_data.csv" ps_data ",".

(** ** Lines 539-554 *)

Definition start_power_supply : M V unit :=
  power_supply_on ;;
  start_thread_power_supply_data.

Definition stop_power_supply : M V unit :=
  power_supply_off ;;
  sleep (2 # 10) ;;
  stop_thread_power_supply_data ;;
  save_data.

(** ** Lines 63-126: the constructor *)

(** [self.<a> = <getter>(bound)] *)
Definition cache (a : attr) (getter : pyarg V -> M V V) (bound : string)
  : M V unit :=
  x <- getter (PStr bound) ;;
  fun st => Ok tt (assign a x st).

Definition __init__ (max_power : V) : M V unit :=
  (fun st => Ok tt (with_self (set_max_power max_power) st)) ;;
  get_power_supply_info ;;
  info <- (fun st => Ok (ps_info_string (self st)) st) ;;
  print ("Successfully connected to: " ++ info) ;;
  cache max_current get_current "MAX" ;;
  cache min_current get_current "MIN" ;;
  cache max_voltage get_voltage "MAX" ;;
  cache min_voltage get_voltage "MIN" ;;
  cache current_max_rising_slew_rate get_rising_current_slew_rate "MAX" ;;
  cache current_min_rising_slew_rate get_rising_current_slew_rate "MIN" ;;
  cache current_max_falling_slew_rate get_falling_current_slew_rate "MAX" ;;
  cache current_min_falling_slew_rate get_falling_current_slew_rate "MIN" ;;
  cache voltage_max_rising_slew_rate get_rising_voltage_slew_rate "MAX" ;;
  cache voltage_min_rising_slew_rate get_rising_voltage_slew_rate "MIN" ;;
  cache voltage_max_falling_slew_rate get_falling_voltage_slew_rate "MAX" ;;
  cache voltage_min_falling_slew_rate get_falling_voltage_slew_rate "MIN" ;;
  cache internal_resistance_min get_internal_resistance "MIN" ;;
  cache internal_resistance_max get_internal_resistance "MAX" ;;
  cache over_current_protection_min get_over_current_protection "MIN" ;;
  cache over_current_protection_max get_over_current_protection "MAX" ;;
  cache over_voltage_protection_min get_over_voltage_protection "MIN" ;;
  cache over_voltage_protection_max get_over_voltage_protection "MAX" ;;
  (fun st => Ok tt (with_env (set_lock None) st)) ;;
  set_active false ;;
  t <- Thread ;;
  (fun st => Ok tt (with_self (set_ps_thread t) st)) ;;
  (fun st => Ok tt (with_self (set_data_current []) st)) ;;
  (fun st => Ok tt (with_self (set_data_voltage []) st)) ;;
  (fun st => Ok tt (with_self (set_data_power []) st)) ;;
  print ("Power supply object initialized." ++ nl).

(** The object before [__init__] runs (class-level defaults) in a world
    with the port just opened: nothing sent, nothing received, no
    thread, no file. *)
Definition fresh (dev : list string -> list line) (orc : nat -> list nat)
           (watch : nat) : state V :=
  mkState
    (mkObject (fun _ => py_zero) py_zero EmptyString false 0 [] [] [])
    (mkWorld dev [] None [] orc 0 watch (fun _ => None) []).

(** ** The nine bounded parameters *)

Inductive param : Type :=
| Voltage | Current | InternalResistance
| OverCurrentProtection | OverVoltageProtection
| RisingCurrentSlewRate | FallingCurrentSlewRate
| RisingVoltageSlewRate | FallingVoltageSlewRate.

Definition set_param (p : param) : V -> M V unit :=
  match p with
  | Voltage => set_voltage
  | Current => set_current
  | InternalResistance => set_internal_resistance
  | OverCurrentProtection => set_over_current_protection
  | OverVoltageProtection => set_over_voltage_protection
  | RisingCurrentSlewRate => set_rising_current_slew_rate
  | FallingCurrentSlewRate => set_falling_current_slew_rate
  | RisingVoltageSlewRate => set_rising_voltage_slew_rate
  | FallingVoltageSlewRate => set_falling_voltage_slew_rate
  end.

Definition get_param (p : param) : pyarg V -> M V V :=
  match p with
  | Voltage => get_voltage
  | Current => get_current
  | InternalResistance => get_internal_resistance
  | OverCurrentProtection => get_over_current_protection
  | OverVoltageProtection => get_over_voltage_protection
  | RisingCurrentSlewRate => get_rising_current_slew_rate
  | FallingCurrentSlewRate => get_falling_current_slew_rate
  | RisingVoltageSlewRate => get_rising_voltage_slew_rate
  | FallingVoltageSlewRate => get_falling_voltage_slew_rate
  end.

(** The command word of each parameter, as in the instrument's manual. *)
Definition word (p : param) : string :=
  match p with
  | Voltage => "VOLT"
  | Current => "CURR"
  | InternalResistance => "RES"
  | OverCurrentProtection => "CURR:PROT"
  | OverVoltageProtection => "VOLT:PROT"
  | RisingCurrentSlewRate => "CURR:SLEW:RIS"
  | FallingCurrentSlewRate => "CURR:SLEW:FALL"
  | RisingVoltageSlewRate => "VOLT:SLEW:RIS"
  | FallingVoltageSlewRate => "VOLT:SLEW:FALL"
  end.

(** The bounds the constructor caches for each parameter. *)
Definition lower (p : param) : attr :=
  match p with
  | Voltage => min_voltage
  | Current => min_current
  | InternalResistance => internal_resistance_min
  | OverCurrentProtection => over_current_protection_min
  | OverVoltageProtection => over_voltage_protection_min
  | RisingCurrentSlewRate => current_min_rising_slew_rate
  | FallingCurrentSlewRate => current_min_falling_slew_rate
  | RisingVoltageSlewRate => voltage_min_rising_slew_rate
  | FallingVoltageSlewRate => voltage_min_falling_slew_rate
  end.

Definition upper (p : param) : attr :=
  match p with
  | Voltage => max_voltage
  | Current => max_current
  | InternalResistance => internal_resistance_max
  | OverCurrentProtection => over_current_protection_max
  | OverVoltageProtection => over_voltage_protection_max
  | RisingCurrentSlewRate => current_max_rising_slew_rate
  | FallingCurrentSlewRate => current_max_falling_slew_rate
  | RisingVoltageSlewRate => voltage_max_rising_slew_rate
  | FallingVoltageSlewRate => voltage_max_falling_slew_rate
  end.

End Sampler.

(* ================================================================== *)
(** * Vocabulary of the specification *)

Section Vocabulary.

Context {V : Type} {N : PyNum V}.

Definition series_of (k : series) (o : keithley_2260B V) : list V :=
  match k with
  | SVoltage => data_voltage o
  | SCurrent => data_current o
  | SPower => data_power o
  end.

(** The values a stretch of the log appends to series [k]. *)
Fixpoint appended (k : series) (l : list (actor * event V)) : list V :=
  match l with
  | [] => []
  | (_, Append k' x) :: r =>
      match k, k' with
      | SVoltage, SVoltage | SCurrent, SCurrent | SPower, SPower =>
          x :: appended k r
      | _, _ => appended k r
      end
  | _ :: r => appended k r
  end.

(** No sampling thread is running. *)
Definition idle (st : state V) : Prop :=
  forallb (@halted V) (threads (env st)) = true.

(** Program points between [lock.acquire()] and [lock.release()]. *)
Definition in_critical (pc : wpc V) : bool :=
  match pc with
  | T_volt_write | T_volt_read | T_volt_append _
  | T_curr_write | T_curr_read | T_curr_append _
  | T_pow_write | T_pow_read | T_pow_append _
  | T_release => true
  | _ => false
  end.

Definition raised (pc : wpc V) : bool :=
  match pc with T_raised _ => true | _ => false end.

(** How deep thread [t] holds the lock. *)
Definition holding (t : nat) (st : state V) : nat :=
  match lock (env st) with
  | Some (owner, depth) => if Nat.eqb owner t then depth else 0
  | None => 0
  end.

(** The lock agrees with the program points: a thread holds it, once,
    exactly while it is between acquire and release.  (A thread killed
    by an exception keeps what it held.) *)
Definition lock_consistent (st : state V) : Prop :=
  (forall owner depth, lock (env st) = Some (owner, depth) -> 1 <= depth)
  /\ forall t pc, thread_at t st = Some pc -> raised pc = false ->
       holding t st = if in_critical pc then 1 else 0.

(** A thread's own events respect the lock: port traffic and appends
    only while holding it, sleeping and acquiring only while not holding
    it.  The result is whether the lock is held afterwards; [None] is a
    violation. *)
Fixpoint discipline (held : bool) (evs : list (event V)) : option bool :=
  match evs with
  | [] => Some held
  | Acquire :: r => if held then None else discipline true r
  | Release :: r => if held then discipline false r else None
  | Sleep _ :: r => if held then None else discipline held r
  | Send _ :: r | Recv _ :: r | Append _ _ :: r =>
      if held then discipline held r else None
  | _ :: r => discipline held r
  end.

(** Whether the lock is held is what the program point says, unless the
    thread died holding it. *)
Definition agrees (pc : wpc V) (held : bool) : Prop :=
  raised pc = true \/ held = in_critical pc.

(** The events of one complete pass through the loop body. *)
Definition iteration_events (v c p : V) (rv rc rp : string)
  : list (event V) :=
  [ Acquire;
    Send ("MEAS:VOLT?" ++ nl); Recv (Decoded rv); Append SVoltage v;
    Send ("MEAS:CURR?" ++ nl); Recv (Decoded rc); Append SCurrent c;
    Send ("MEAS:POW?" ++ nl); Recv (Decoded rp); Append SPower p;
    Release;
    Sleep sample_period ].

(** Steps still to take before the thread is back at the loop test; a
    thread that is not in the loop never gets there. *)
Definition remaining (pc : wpc V) : nat :=
  match pc with
  | T_loop => 0
  | T_acquire => 12
  | T_volt_write => 11 | T_volt_read => 10 | T_volt_append _ => 9
  | T_curr_write => 8 | T_curr_read => 7 | T_curr_append _ => 6
  | T_pow_write => 5 | T_pow_read => 4 | T_pow_append _ => 3
  | T_release => 2
  | T_sleep => 1
  | T_created | T_finished | T_raised _ => 14
  end.

(** Appends to series [k] that the pass in progress has yet to make. *)
Definition owed (k : series) (pc : wpc V) : nat :=
  match pc, k with
  | (T_acquire | T_volt_write | T_volt_read | T_volt_append _), _ => 1
  | (T_curr_write | T_curr_read | T_curr_append _),
    (SCurrent | SPower) => 1
  | (T_pow_write | T_pow_read | T_pow_append _), SPower => 1
  | _, _ => 0
  end.

Definition awaiting (pc : wpc V) : bool :=
  match pc with
  | T_volt_read | T_curr_read | T_pow_read => true
  | _ => false
  end.

(** The instrument answers each measurement query with one line that
    parses as a number, and says nothing to [OUTP 0]. *)
Definition measurable (dev : list string -> list line) : Prop :=
  (forall h q, In q ["MEAS:VOLT?"; "MEAS:CURR?"; "MEAS:POW?"] ->
     exists raw x, dev (h ++ [(q ++ nl)%string])%list = [Decoded raw]
                   /\ py_float (strip raw) = Some x)
  /\ forall h, dev (h ++ [("OUTP 0" ++ nl)%string])%list = [].

(** One sampling thread [w], the one the object's handle names, is in
    its loop (or has left it normally); lock, port and series are where
    its program point says. *)
Definition sampling (w : nat) (st : state V) : Prop :=
  ps_thread (self st) = w
  /\ measurable (device (env st))
  /\ (forall t pc, t <> w -> thread_at t st = Some pc -> halted pc = true)
  /\ exists pc,
       thread_at w st = Some pc
       /\ pc <> T_created /\ raised pc = false
       /\ lock (env st) = (if in_critical pc then Some (w, 1) else None)
       /\ (if awaiting pc
           then exists raw x, incoming (env st) = [Decoded raw]
                              /\ py_float (strip raw) = Some x
           else incoming (env st) = [])
       /\ List.length (data_voltage (self st)) + owed SVoltage pc
          = List.length (data_power (self st)) + owed SPower pc
       /\ List.length (data_current (self st)) + owed SCurrent pc
          = List.length (data_power (self st)) + owed SPower pc.

(** The bounds each setter tests, as its source line names them. *)
Definition tested_lower (p : param) : attr :=
  match p with
  | OverVoltageProtection => over_current_protection_min
  | _ => lower p
  end.

Definition tested_upper (p : param) : attr :=
  match p with
  | RisingCurrentSlewRate => current_max_falling_slew_rate
  | _ => upper p
  end.

(** The setters that test their own parameter's bounds. *)
Definition own_bounds (p : param) : bool :=
  match p with
  | OverVoltageProtection | RisingCurrentSlewRate => false
  | _ => true
  end.

(** The warning each setter logs when it ignores a value. *)
Definition complaint (p : param) : string :=
  ("Warning: Set "
   ++ match p with
      | Voltage => "voltage target is"
      | Current => "current target is"
      | InternalResistance => "internal resistance is"
      | OverCurrentProtection => "over-current protection is"
      | OverVoltageProtection => "over-voltage protection is"
      | RisingCurrentSlewRate => "rising current slew rate is"
      | FallingCurrentSlewRate => "falling current slew rate is"
      | RisingVoltageSlewRate => "rising voltage slew rate is"
      | FallingVoltageSlewRate => "falling voltage slew rate is"
      end
   ++ " out of power supply absolute ratings. Command has been ignored.")%string.

(** [lo < v < hi] *)
Definition strictly_between (lo v hi : V) : bool :=
  py_lt lo v && py_lt v hi.

(** The query a getter sends for [None], ["MIN"] and ["MAX"]. *)
Definition query (p : param) (bound : option string) : string :=
  match bound with
  | None => word p ++ "?"
  | Some b => word p ++ "? " ++ b
  end%string.

(** [None], or the string, as an argument. *)
Definition as_arg (bound : option string) : pyarg V :=
  match bound with
  | None => PNone
  | Some b => PStr b
  end.

(** The line a getter transmits for a given [min_max], if any. *)
Definition asked (p : param) (min_max : pyarg V) : option string :=
  if is_none min_max then Some (query p None)
  else if equals min_max "MIN" then Some (query p (Some "MIN"))
  else if equals min_max "MAX" then Some (query p (Some "MAX"))
  else None.

(** The mode names, by the instrument's numeric code. *)
Definition mode_name (reply : string) : string :=
  match reply with
  | "0" => "CVHS"
  | "1" => "CCHS"
  | "2" => "CVLS"
  | "3" => "CCLS"
  | _ => EmptyString
  end%string.

(** The first line the caller will read once [command] is sent. *)
Definition next_reply (st : state V) (command : string) : list line :=
  (incoming (env st)
   ++ device (env st) (sends (log (env st)) ++ [(command ++ nl)%string]))%list.

(** From this tick on, every tick gives thread [w] at least one step. *)
Definition fair (w : nat) (st : state V) : Prop :=
  forall k, clock (env st) <= k -> In w (oracle (env st) k).

(** Steps until a thread whose flag is down has left the loop. *)
Definition togo (pc : wpc V) : nat :=
  match pc with
  | T_finished | T_created | T_raised _ => 0
  | T_loop => 1
  | T_sleep => 2
  | T_release => 3
  | T_pow_append _ => 4 | T_pow_read => 5 | T_pow_write => 6
  | T_curr_append _ => 7 | T_curr_read => 8 | T_curr_write => 9
  | T_volt_append _ => 10 | T_volt_read => 11 | T_volt_write => 12
  | T_acquire => 13
  end.

(** The events of the caller's thread. *)
Definition history (st : state V) : list (event V) :=
  events_of Main (log (env st)).

(** What a background step leaves alone. *)
Record unchanged (st st' : state V) : Prop := {
  same_caps : caps (self st') = caps (self st);
  same_max_power : max_power (self st') = max_power (self st);
  same_info : ps_info_string (self st') = ps_info_string (self st);
  same_active :
    reading_thread_active (self st') = reading_thread_active (self st);
  same_handle : ps_thread (self st') = ps_thread (self st);
  same_device : device (env st') = device (env st);
  same_oracle : oracle (env st') = oracle (env st);
  same_patience : patience (env st') = patience (env st);
  same_files : files (env st') = files (env st);
  same_count :
    List.length (threads (env st')) = List.length (threads (env st))
}.

(** A background step only adds to the log, adds nothing there in the
    caller's name, and changes a series only by the appends it logs. *)
Definition grows (st st' : state V) : Prop :=
  exists new,
    log (env st') = (log (env st) ++ new)%list
    /\ events_of Main new = []
    /\ forall k, series_of k (self st')
                 = (series_of k (self st) ++ appended k new)%list.

(** From [st] to [st'] the log has only grown, and each series has
    changed only by the appends logged in between. *)
Definition extends (st st' : state V) : Prop :=
  exists new,
    log (env st') = (log (env st) ++ new)%list
    /\ forall k, series_of k (self st')
                 = (series_of k (self st) ++ appended k new)%list.

(** What [join] polls for. *)
Definition joined (w : nat) (s : state V) : option (result V unit) :=
  match thread_at w s with
  | Some pc => if ended pc then Some (Ok tt (emit Main (Join w) s)) else None
  | None => None
  end.

(** The text of the three rows: voltage, current, power. *)
Definition three_rows (o : keithley_2260B V) : string :=
  (join "," (map py_fmt (data_voltage o)) ++ nl
   ++ join "," (map py_fmt (data_current o)) ++ nl
   ++ join "," (map py_fmt (data_power o)) ++ nl)%string.

(** One step of a pass that nothing stops: where the thread was, the
    events the step logs, where the thread is then. *)
Inductive pass_step : wpc V -> list (event V) -> wpc V -> Prop :=
| Pass_loop : pass_step T_loop [] T_acquire
| Pass_acquire : pass_step T_acquire [Acquire] T_volt_write
| Pass_volt_write :
    pass_step T_volt_write [Send ("MEAS:VOLT?" ++ nl)%string] T_volt_read
| Pass_volt_read raw x :
    py_float (strip raw) = Some x ->
    pass_step T_volt_read [Recv (Decoded raw)] (T_volt_append x)
| Pass_volt_append x :
    pass_step (T_volt_append x) [Append SVoltage x] T_curr_write
| Pass_curr_write :
    pass_step T_curr_write [Send ("MEAS:CURR?" ++ nl)%string] T_curr_read
| Pass_curr_read raw x :
    py_float (strip raw) = Some x ->
    pass_step T_curr_read [Recv (Decoded raw)] (T_curr_append x)
| Pass_curr_append x :
    pass_step (T_curr_append x) [Append SCurrent x] T_pow_write
| Pass_pow_write :
    pass_step T_pow_write [Send ("MEAS:POW?" ++ nl)%string] T_pow_read
| Pass_pow_read raw x :
    py_float (strip raw) = Some x ->
    pass_step T_pow_read [Recv (Decoded raw)] (T_pow_append x)
| Pass_pow_append x :
    pass_step (T_pow_append x) [Append SPower x] T_release
| Pass_release : pass_step T_release [Release] T_sleep
| Pass_sleep : pass_step T_sleep [Sleep sample_period] T_loop.

(** A run of steps of the sampling thread, each the next step of a pass. *)
Inductive pass_run : nat -> wpc V -> list (event V) -> wpc V -> Prop :=
| Run_nil pc : pass_run 0 pc [] pc
| Run_cons n pc evs pc1 evs' pc2 :
    pass_step pc evs pc1 -> pass_run n pc1 evs' pc2 ->
    pass_run (S n) pc (evs ++ evs') pc2.

(** The values a thread's events append to series [k]. *)
Fixpoint appends (k : series) (evs : list (event V)) : list V :=
  match evs with
  | [] => []
  | Append k' x :: r =>
      match k, k' with
      | SVoltage, SVoltage | SCurrent, SCurrent | SPower, SPower =>
          x :: appends k r
      | _, _ => appends k r
      end
  | _ :: r => appends k r
  end.

(** ** The calls a user of the object can make, the constructor apart *)

Inductive call : Type :=
| Call_set (p : param) (value : V)
| Call_get (p : param) (min_max : pyarg V)
| Call_set_voltage_current (voltage current : V)
| Call_get_voltage_current
| Call_measure (k : series)
| Call_set_power_supply_mode (ps_mode : string)
| Call_get_power_supply_mode
| Call_power_supply_on
| Call_power_supply_off
| Call_abort
| Call_get_power_supply_info
| Call_print_all_info
| Call_start_thread_power_supply_data
| Call_stop_thread_power_supply_data
| Call_save_data
| Call_start_power_supply
| Call_stop_power_supply.

(** The state a call leaves behind, however it ends. *)
Definition perform (c : call) (st : state V) : state V :=
  match c with
  | Call_set p value => final (set_param p value st)
  | Call_get p min_max => final (get_param p min_max st)
  | Call_set_voltage_current v i => final (set_voltage_current v i st)
  | Call_get_voltage_current => final (get_voltage_current st)
  | Call_measure SVoltage => final (measure_voltage st)
  | Call_measure SCurrent => final (measure_current st)
  | Call_measure SPower => final (measure_power st)
  | Call_set_power_supply_mode m => final (set_power_supply_mode m st)
  | Call_get_power_supply_mode => final (get_power_supply_mode st)
  | Call_power_supply_on => final (power_supply_on st)
  | Call_power_supply_off => final (power_supply_off st)
  | Call_abort => final (abort st)
  | Call_get_power_supply_info => final (get_power_supply_info st)
  | Call_print_all_info => final (print_all_info st)
  | Call_start_thread_power_supply_data =>
      final (start_thread_power_supply_data st)
  | Call_stop_thread_power_supply_data =>
      final (stop_thread_power_supply_data st)
  | Call_save_data => final (save_data st)
  | Call_start_power_supply => final (start_power_supply st)
  | Call_stop_power_supply => final (stop_power_supply st)
  end.

(** Events that neither touch the lock nor append to a series. *)
Definition plain (e : event V) : bool :=
  match e with
  | Acquire | Release | Append _ _ => false
  | _ => true
  end.

(** What every call keeps: the cached bounds are as they were; the log
    has only grown; each series is what it was followed by the appends
    logged meanwhile; and the caller's own new events are plain. *)
Definition foreground (st st' : state V) : Prop :=
  caps (self st') = caps (self st)
  /\ exists new,
       log (env st') = (log (env st) ++ new)%list
       /\ (forall k, series_of k (self st')
                     = (series_of k (self st) ++ appended k new)%list)
       /\ forallb plain (events_of Main new) = true.

(** [m] keeps relation [R] between the state it starts in and the state
    it ends in, whether it returns, raises or blocks. *)
Definition always (R : state V -> state V -> Prop) {A : Type} (m : M V A)
  : Prop :=
  forall st, R st (final (m st)).

(** The ten queries of [print_all_info], in the order it sends them. *)
Definition info_queries : list string :=
  [ "RES?"; "OUTP:MODE?"; "CURR?"; "CURR:SLEW:RIS?"; "CURR:SLEW:FALL?";
    "CURR:PROT?"; "VOLT?"; "VOLT:SLEW:RIS?"; "VOLT:SLEW:FALL?";
    "VOLT:PROT?" ]%string.

(** An instrument that answers each of the given commands with exactly
    one line, given by [answer], whatever was sent before. *)
Definition answers (dev : list string -> list line)
           (answer : string -> string) (commands : list string) : Prop :=
  forall h c, In c commands ->
    dev (h ++ [(c ++ nl)%string])%list = [Decoded (answer c)].

(** The three measurements, by the series they feed. *)
Definition measure (k : series) : M V V :=
  match k with
  | SVoltage => measure_voltage
  | SCurrent => measure_current
  | SPower => measure_power
  end.

Definition measure_query (k : series) : string :=
  match k with
  | SVoltage => "MEAS:VOLT?"
  | SCurrent => "MEAS:CURR?"
  | SPower => "MEAS:POW?"
  end%string.

(** A field of a comma-separated reply. *)
Fixpoint no_comma (s : string) : bool :=
  match s with
  | EmptyString => true
  | String c r => negb (Ascii.eqb c ",") && no_comma r
  end.

(** Everything of the object and its world that a query leaves alone when
    no sampler is running: all but the clock, the log and the cached
    bounds. *)
Record quietly (st st' : state V) : Prop := {
  quiet_idle : idle st';
  quiet_incoming : incoming (env st') = [];
  quiet_device : device (env st') = device (env st);
  quiet_threads : threads (env st') = threads (env st);
  quiet_lock : lock (env st') = lock (env st);
  quiet_files : files (env st') = files (env st);
  quiet_max_power : max_power (self st') = max_power (self st);
  quiet_info : ps_info_string (self st') = ps_info_string (self st);
  quiet_active :
    reading_thread_active (self st') = reading_thread_active (self st);
  quiet_handle : ps_thread (self st') = ps_thread (self st);
  quiet_voltage : data_voltage (self st') = data_voltage (self st);
  quiet_current : data_current (self st') = data_current (self st);
  quiet_power : data_power (self st') = data_power (self st)
}.

(** No white space at either end. *)
Definition trimmed (s : string) : Prop :=
  lstrip s = s /\ rstrip s = s.

(** With no sampler running and nothing unread, [m] returns against the
    instrument [dev], having transmitted the lines [sent] and changed the
    cached bounds by [update], and nothing else but clock and log. *)
Definition runs (dev : list string -> list line) {A : Type} (m : M V A)
           (sent : list string) (update : (attr -> V) -> attr -> V) : Prop :=
  forall st,
    device (env st) = dev -> idle st -> incoming (env st) = [] ->
    exists a st',
      m st = Ok a st'
      /\ quietly st st'
      /\ caps (self st') = update (caps (self st))
      /\ transmitted st' = (transmitted st ++ sent)%list.

(** [self.<a> = x] on the table of bounds. *)
Definition bind_attr (a : attr) (x : V) (f : attr -> V) : attr -> V :=
  fun b => if attr_eq_dec b a then x else f b.

(** The constructor's eighteen assignments: attribute, parameter, bound. *)
Definition init_plan : list (attr * param * string) :=
  [ (max_current, Current, "MAX"); (min_current, Current, "MIN");
    (max_voltage, Voltage, "MAX"); (min_voltage, Voltage, "MIN");
    (current_max_rising_slew_rate, RisingCurrentSlewRate, "MAX");
    (current_min_rising_slew_rate, RisingCurrentSlewRate, "MIN");
    (current_max_falling_slew_rate, FallingCurrentSlewRate, "MAX");
    (current_min_falling_slew_rate, FallingCurrentSlewRate, "MIN");
    (voltage_max_rising_slew_rate, RisingVoltageSlewRate, "MAX");
    (voltage_min_rising_slew_rate, RisingVoltageSlewRate, "MIN");
    (voltage_max_falling_slew_rate, FallingVoltageSlewRate, "MAX");
    (voltage_min_falling_slew_rate, FallingVoltageSlewRate, "MIN");
    (internal_resistance_min, InternalResistance, "MIN");
    (internal_resistance_max, InternalResistance, "MAX");
    (over_current_protection_min, OverCurrentProtection, "MIN");
    (over_current_protection_max, OverCurrentProtection, "MAX");
    (over_voltage_protection_min, OverVoltageProtection, "MIN");
    (over_voltage_protection_max, OverVoltageProtection, "MAX") ]%string.

(** The assignments of a plan, one after the other, then [rest]. *)
Fixpoint cache_all (plan : list (attr * param * string)) (rest : M V unit)
  : M V unit :=
  match plan with
  | [] => rest
  | (a, p, b) :: more => cache a (get_param p) b ;; cache_all more rest
  end.

(** The queries of a plan, in order. *)
Definition plan_queries (plan : list (attr * param * string)) : list string :=
  map (fun e => query (snd (fst e)) (Some (snd e))) plan.

(** No sampler is running afterwards if none was before. *)
Definition calm (st st' : state V) : Prop := idle st -> idle st'.

(** The life of the object once constructed: calls on it, in any order,
    and steps of the sampling threads in between. *)
Inductive lifetime : state V -> state V -> Prop :=
| Life_now st : lifetime st st
| Life_call c st st' : lifetime (perform c st) st' -> lifetime st st'
| Life_steps b st st' : lifetime (run_burst b st) st' -> lifetime st st'.

(** What the constructor does once the bounds are cached (lines 111-126). *)
Definition init_rest : M V unit :=
  (fun st => Ok tt (with_env (set_lock None) st)) ;;
  set_active false ;;
  t <- Thread ;;
  (fun st => Ok tt (with_self (set_ps_thread t) st)) ;;
  (fun st => Ok tt (with_self (set_data_current []) st)) ;;
  (fun st => Ok tt (with_self (set_data_voltage []) st)) ;;
  (fun st => Ok tt (with_self (set_data_power []) st)) ;;
  print ("Power supply object initialized." ++ nl).

End Vocabulary.

(* ================================================================== *)
(** * A bench: a stub instrument with integer answers *)

Module Bench.

Definition cr : string := String (ascii_of_nat 13) EmptyString.

Definition table : list (string * string) :=
  [ ("SYST:INF?", "KEITHLEY,2260B-30-108,1234567,01.72.20150702");
    ("CURR? MAX", "113"); ("CURR? MIN", "0");
    ("VOLT? MAX", "36"); ("VOLT? MIN", "0");
    ("CURR:SLEW:RIS? MAX", "216"); ("CURR:SLEW:RIS? MIN", "1");
    ("CURR:SLEW:FALL? MAX", "108"); ("CURR:SLEW:FALL? MIN", "1");
    ("VOLT:SLEW:RIS? MAX", "60"); ("VOLT:SLEW:RIS? MIN", "1");
    ("VOLT:SLEW:FALL? MAX", "60"); ("VOLT:SLEW:FALL? MIN", "1");
    ("RES? MIN", "0"); ("RES? MAX", "1");
    ("CURR:PROT? MIN", "10"); ("CURR:PROT? MAX", "118");
    ("VOLT:PROT? MIN", "3"); ("VOLT:PROT? MAX", "33");
    ("VOLT?", "12"); ("CURR?", "7");
    ("MEAS:VOLT?", "5"); ("MEAS:CURR?", "2"); ("MEAS:POW?", "10");
    ("OUTP:MODE?", "2") ].

Fixpoint lookup (k : string) (t : list (string * string)) : list line :=
  match t with
  | [] => []
  | (q, a) :: r =>
      if String.eqb k (q ++ nl) then [Decoded (a ++ cr ++ nl)]
      else lookup k r
  end.

(** Answers the last command sent, by the table; silent otherwise. *)
Definition device (sent : list string) : list line :=
  match rev sent with
  | [] => []
  | last :: _ => lookup last table
  end.

(** Nothing runs in the background. *)
Definition calm (k : nat) : list nat := [].

(** Every tick lets threads 1 and 2 take three steps each. *)
Definition busy (k : nat) : list nat := [1; 2; 1; 2; 1; 2].

Definition connect (orc : nat -> list nat) : state Z :=
  final (__init__ 1080%Z (fresh device orc 20)).

(** A session with no sampler. *)
Definition session : state Z := connect calm.

(** A first run: started, sampled, stopped. *)
Definition running : state Z := final (start_power_supply (connect busy)).

Definition stopped : state Z := final (stop_power_supply running).

(** A second run, just started. *)
Definition restarted : state Z :=
  final (start_thread_power_supply_data stopped).

End Bench.

(* ================================================================== *)
(** * A second bench: every query answered *)

Module Lab.

Definition table : list (string * string) :=
  (Bench.table
   ++ [ ("APPL?", "12,7"); ("RES?", "0");
        ("CURR:SLEW:RIS?", "100"); ("CURR:SLEW:FALL?", "100");
        ("CURR:PROT?", "115"); ("VOLT:SLEW:RIS?", "30");
        ("VOLT:SLEW:FALL?", "30"); ("VOLT:PROT?", "32") ])%list.

(** Answers the last command sent, by the table; silent otherwise. *)
Definition device (sent : list string) : list line :=
  match rev sent with
  | [] => []
  | last :: _ => Bench.lookup last table
  end.

Definition session : state Z :=
  final (__init__ 1080%Z (fresh device Bench.calm 20)).

(** The same instrument with a voltmeter that answers in words. *)
Definition noisy (sent : list string) : list line :=
  match rev sent with
  | [] => []
  | last :: _ =>
      if String.eqb last ("MEAS:VOLT?" ++ nl)
      then [Decoded ("OVERLOAD" ++ Bench.cr ++ nl)]
      else Bench.lookup last table
  end.

(** A sampler started against it, about to read its first voltage, and a
    second sampler started behind it. *)
Definition reading : state Z :=
  let st := final (__init__ 1080%Z (fresh noisy Bench.calm 20)) in
  let st := final (start_thread_power_supply_data st) in
  let st := final (start_thread_power_supply_data st) in
  run_burst [1; 1; 1; 2] st.

(** What the instrument answers to a query. *)
Definition answer (q : string) : string :=
  match Bench.lookup (q ++ nl) table with
  | Decoded a :: _ => a
  | _ => EmptyString
  end.

(** The bounds on the instrument's table. *)
Definition bounds (a : attr) : Z :=
  match a with
  | max_voltage => 36 | min_voltage => 0
  | max_current => 113 | min_current => 0
  | over_current_protection_min => 10 | over_current_protection_max => 118
  | over_voltage_protection_min => 3 | over_voltage_protection_max => 33
  | current_max_rising_slew_rate => 216 | current_min_rising_slew_rate => 1
  | current_max_falling_slew_rate => 108 | current_min_falling_slew_rate => 1
  | voltage_max_rising_slew_rate => 60 | voltage_min_rising_slew_rate => 1
  | voltage_max_falling_slew_rate => 60 | voltage_min_falling_slew_rate => 1
  | internal_resistance_min => 0 | internal_resistance_max => 1
  end%Z.

(** An instrument that answers everything with one number. *)
Definition terse (sent : list string) : list line :=
  [Decoded ("5" ++ Bench.cr ++ nl)].

(** A session in which a pass died between its first and second append. *)
Definition ragged : state Z :=
  with_self (set_data_voltage [5%Z]) session.

(** The first run of the bench, three steps into a pass, its flag just
    lowered. *)
Definition winding : state Z :=
  with_self (set_reading_thread_active false)
    (run_burst [1; 1; 1] Bench.running).

End Lab.

(* ================================================================== *)
(** * Basic facts *)

Open Scope list_scope.

Section ListFacts.

Context {A : Type}.

Lemma nth_error_update_nth_eq (l : list A) (t : nat) (x a : A) :
  nth_error l t = Some a -> nth_error (update_nth t x l) t = Some x.
Proof.
  revert t; induction l as [|y l IH]; intros [|t] H; simpl in *;
    try discriminate; auto.
Qed.

Lemma nth_error_update_nth_neq (l : list A) (t u : nat) (x : A) :
  t <> u -> nth_error (update_nth t x l) u = nth_error l u.
Proof.
  revert t u; induction l as [|y l IH]; intros [|t] [|u] H; simpl;
    try reflexivity; try congruence.
  apply IH; congruence.
Qed.

Lemma length_update_nth (l : list A) (t : nat) (x : A) :
  List.length (update_nth t x l) = List.length l.
Proof.
  revert t; induction l as [|y l IH]; intros [|t]; simpl; auto.
Qed.

End ListFacts.

(** Case analysis on one step of a sampling thread. *)
Ltac step_split :=
  repeat match goal with
    | |- context [match incoming (env ?s) with _ => _ end] =>
        destruct (incoming (env s)) as [|[?raw|] ?rest] eqn:?Hin; simpl
    | |- context [match py_float ?x with _ => _ end] =>
        destruct (py_float x) eqn:?Hfl; simpl
    | |- context [match lock (env ?s) with _ => _ end] =>
        destruct (lock (env s)) as [[?owner [|?depth]]|] eqn:?Hlk; simpl
    | |- context [if Nat.eqb ?a ?b then _ else _] =>
        destruct (Nat.eqb a b) eqn:?Heq; simpl
    | |- context [if reading_thread_active (self ?s) then _ else _] =>
        destruct (reading_thread_active (self s)) eqn:?Hact; simpl
    | |- context [match ?d with O => _ | S _ => _ end] =>
        is_var d; destruct d; simpl
    end.

Ltac step_cases t st :=
  unfold _read_power_supply_data, thread_read_float, dev_readline;
  destruct (thread_at t st) as [[]|] eqn:Hpc; simpl;
  step_split.

(** The same, for a thread whose program point [H] gives. *)
Ltac step_at H pc :=
  unfold _read_power_supply_data, thread_read_float, dev_readline;
  rewrite H; destruct pc; simpl;
  step_split.

Section LogFacts.

Context {V : Type} {N : PyNum V}.

Lemma events_of_app (who : actor) (l1 l2 : list (actor * event V)) :
  events_of who (l1 ++ l2) = events_of who l1 ++ events_of who l2.
Proof. unfold events_of. now rewrite filter_app, map_app. Qed.

Lemma sends_app (l1 l2 : list (actor * event V)) :
  sends (l1 ++ l2) = sends l1 ++ sends l2.
Proof.
  induction l1 as [|[who e] l1 IH]; simpl; auto.
  destruct e; simpl; now rewrite ?IH.
Qed.

Lemma sent_in_app (l1 l2 : list (event V)) :
  sent_in (l1 ++ l2) = sent_in l1 ++ sent_in l2.
Proof.
  induction l1 as [|e l1 IH]; simpl; auto.
  destruct e; simpl; now rewrite ?IH.
Qed.

Lemma warned_in_app (l1 l2 : list (event V)) :
  warned_in (l1 ++ l2) = warned_in l1 ++ warned_in l2.
Proof.
  induction l1 as [|e l1 IH]; simpl; auto.
  destruct e; simpl; now rewrite ?IH.
Qed.

Lemma appended_app (k : series) (l1 l2 : list (actor * event V)) :
  appended k (l1 ++ l2) = appended k l1 ++ appended k l2.
Proof.
  induction l1 as [|[who e] l1 IH]; simpl; auto.
  destruct e; simpl; auto. destruct k, k0; simpl; now rewrite ?IH.
Qed.

Lemma thread_at_goto_eq (t : nat) (pc pc0 : wpc V) (st : state V) :
  thread_at t st = Some pc0 -> thread_at t (goto t pc st) = Some pc.
Proof. unfold thread_at, goto; simpl. apply nth_error_update_nth_eq. Qed.

Lemma thread_at_goto_neq (t u : nat) (pc : wpc V) (st : state V) :
  t <> u -> thread_at u (goto t pc st) = thread_at u st.
Proof. unfold thread_at, goto; simpl. apply nth_error_update_nth_neq. Qed.

Lemma step_unchanged (t : nat) (st : state V) :
  unchanged st (_read_power_supply_data t st).
Proof.
  step_cases t st; constructor; simpl; auto using length_update_nth.
Qed.

Lemma step_other (t u : nat) (st : state V) :
  t <> u ->
  thread_at u (_read_power_supply_data t st) = thread_at u st.
Proof.
  intro Hne. step_cases t st; rewrite ?thread_at_goto_neq by assumption;
    reflexivity.
Qed.

Lemma grows_refl (st : state V) : grows st st.
Proof.
  exists []. rewrite app_nil_r. repeat split. intro k. simpl.
  now rewrite app_nil_r.
Qed.

Lemma grows_trans (a b c : state V) : grows a b -> grows b c -> grows a c.
Proof.
  intros (n1 & L1 & M1 & S1) (n2 & L2 & M2 & S2). exists (n1 ++ n2).
  repeat split.
  - now rewrite L2, L1, app_assoc.
  - now rewrite events_of_app, M1, M2.
  - intro k. now rewrite S2, S1, appended_app, app_assoc.
Qed.

Lemma step_grows (t : nat) (st : state V) :
  grows st (_read_power_supply_data t st).
Proof.
  step_cases t st;
    first
      [ apply grows_refl
      | exists []; split; [simpl; now rewrite app_nil_r|];
        split; [reflexivity|]; intros []; simpl; now rewrite app_nil_r
      | eexists; split; [simpl; reflexivity|];
        split; [reflexivity|]; intros []; simpl;
        rewrite ?app_nil_r; reflexivity ].
Qed.

Lemma unchanged_refl (st : state V) : unchanged st st.
Proof. constructor; reflexivity. Qed.

Lemma unchanged_trans (a b c : state V) :
  unchanged a b -> unchanged b c -> unchanged a c.
Proof. intros [] []; constructor; congruence. Qed.

Lemma burst_unchanged (b : list nat) (st : state V) :
  unchanged st (run_burst b st).
Proof.
  revert st; induction b as [|t b IH]; intro st; simpl.
  - apply unchanged_refl.
  - eapply unchanged_trans; [apply step_unchanged | apply IH].
Qed.

Lemma burst_grows (b : list nat) (st : state V) :
  grows st (run_burst b st).
Proof.
  revert st; induction b as [|t b IH]; intro st; simpl.
  - apply grows_refl.
  - eapply grows_trans; [apply step_grows | apply IH].
Qed.

Lemma burst_clock (b : list nat) (st : state V) :
  clock (env (run_burst b st)) = clock (env st).
Proof.
  revert st; induction b as [|t b IH]; intro st; simpl; auto.
  rewrite IH. step_cases t st; reflexivity.
Qed.

Lemma tick_unchanged (st : state V) : unchanged st (tick st).
Proof.
  unfold tick. eapply unchanged_trans; [|apply burst_unchanged].
  constructor; reflexivity.
Qed.

Lemma tick_grows (st : state V) : grows st (tick st).
Proof.
  unfold tick. eapply grows_trans; [|apply burst_grows].
  exists []. simpl. rewrite app_nil_r. repeat split.
  intros []; simpl; now rewrite app_nil_r.
Qed.

Lemma tick_clock (st : state V) :
  clock (env (tick st)) = S (clock (env st)).
Proof. unfold tick. now rewrite burst_clock. Qed.

Lemma grows_history (st st' : state V) :
  grows st st' -> history st' = history st.
Proof.
  intros (new & L & M & _). unfold history.
  now rewrite L, events_of_app, M, app_nil_r.
Qed.

Lemma tick_history (st : state V) : history (tick st) = history st.
Proof. apply grows_history, tick_grows. Qed.

Lemma tick_transmitted (st : state V) :
  transmitted (tick st) = transmitted st.
Proof. unfold transmitted. fold (history (tick st)). now rewrite tick_history. Qed.

Lemma tick_warnings (st : state V) : warnings (tick st) = warnings st.
Proof. unfold warnings. fold (history (tick st)). now rewrite tick_history. Qed.

Lemma tick_caps (st : state V) : caps (self (tick st)) = caps (self st).
Proof. apply tick_unchanged. Qed.

(** ** With no sampling thread running, a tick only moves the clock *)

Lemma idle_step (t : nat) (st : state V) :
  idle st -> _read_power_supply_data t st = st.
Proof.
  unfold idle, _read_power_supply_data, thread_at. intro H.
  destruct (nth_error (threads (env st)) t) as [pc|] eqn:E; auto.
  apply nth_error_In in E.
  rewrite forallb_forall in H. specialize (H _ E).
  destruct pc; simpl in H; try discriminate; reflexivity.
Qed.

Lemma idle_burst (b : list nat) (st : state V) :
  idle st -> run_burst b st = st.
Proof.
  intro H. induction b as [|t b IH]; simpl; auto.
  now rewrite idle_step.
Qed.

Lemma idle_tick (st : state V) :
  idle st -> tick st = with_env (fun w => set_clock (S (clock w)) w) st.
Proof. intro H. unfold tick. now rewrite idle_burst. Qed.

End LogFacts.

(* ================================================================== *)
(** * Setting parameters *)

Section Setters.

Context {V : Type} {N : PyNum V}.

Lemma string_app_assoc (a b c : string) :
  ((a ++ b) ++ c = a ++ (b ++ c))%string.
Proof. induction a as [|x a IH]; simpl; [reflexivity | now rewrite IH]. Qed.

Lemma transmitted_dev_write (bytes : string) (st : state V) :
  transmitted (dev_write Main bytes st) = transmitted st ++ [bytes].
Proof.
  unfold transmitted, dev_write; simpl.
  now rewrite events_of_app, sent_in_app.
Qed.

Lemma warnings_dev_write (bytes : string) (st : state V) :
  warnings (dev_write Main bytes st) = warnings st.
Proof.
  unfold warnings, dev_write; simpl.
  now rewrite events_of_app, warned_in_app, app_nil_r.
Qed.

Lemma transmitted_warn (msg : string) (st : state V) :
  transmitted (emit Main (Warn msg) st) = transmitted st.
Proof.
  unfold transmitted; simpl.
  now rewrite events_of_app, sent_in_app, app_nil_r.
Qed.

Lemma warnings_warn (msg : string) (st : state V) :
  warnings (emit Main (Warn msg) st) = warnings st ++ [msg].
Proof.
  unfold warnings; simpl. now rewrite events_of_app, warned_in_app.
Qed.

(** What [write] does to the caller's record, whatever runs meanwhile. *)
Lemma write_sends (s : string) (st : state V) :
  exists st', write s st = Ok tt st'
              /\ transmitted st' = transmitted st ++ [(s ++ nl)%string]
              /\ warnings st' = warnings st
              /\ caps (self st') = caps (self st).
Proof.
  eexists; split; [reflexivity|].
  rewrite transmitted_dev_write, warnings_dev_write,
    tick_transmitted, tick_warnings.
  repeat split. simpl. apply tick_caps.
Qed.

Lemma warning_warns (msg : string) (st : state V) :
  exists st', warning msg st = Ok tt st'
              /\ transmitted st' = transmitted st
              /\ warnings st' = warnings st ++ [msg]
              /\ caps (self st') = caps (self st).
Proof.
  eexists; split; [reflexivity|].
  rewrite transmitted_warn, warnings_warn, tick_transmitted, tick_warnings.
  repeat split. simpl. apply tick_caps.
Qed.

(** Every setter is the same guard around a different command. *)
Lemma set_param_unfold (p : param) (v : V) (st : state V) :
  set_param p v st
  = if strictly_between (caps (self st) (tested_lower p)) v
                        (caps (self st) (tested_upper p))
    then write (word p ++ " " ++ py_str v) st
    else warning (complaint p) st.
Proof.
  destruct p; unfold strictly_between; cbn -[write warning String.append];
    unfold bind, attribute; simpl;
    match goal with |- (if ?c then _ else _) _ = _ => destruct c end;
    reflexivity.
Qed.

(** What each setter does, in terms of the bounds it tests. *)
Lemma set_param_tested (p : param) (v : V) (st : state V) :
  exists st',
    set_param p v st = Ok tt st'
    /\ if strictly_between (caps (self st) (tested_lower p)) v
                           (caps (self st) (tested_upper p))
       then transmitted st'
            = transmitted st ++ [(word p ++ " " ++ py_str v ++ nl)%string]
            /\ warnings st' = warnings st
       else transmitted st' = transmitted st
            /\ warnings st' = warnings st ++ [complaint p].
Proof.
  rewrite set_param_unfold.
  destruct (strictly_between _ _ _).
  - destruct (write_sends (word p ++ " " ++ py_str v) st)
      as (st' & E & T & W & _).
    exists st'. rewrite E, T, W. repeat split.
    now rewrite !string_app_assoc.
  - destruct (warning_warns (complaint p) st) as (st' & E & T & W & _).
    exists st'. now rewrite E, T, W.
Qed.

(** X7.  For the seven setters that test the bounds of their own parameter:
    nothing is transmitted when [v <= min] or [v >= max], and exactly
    the command when [min < v < max]. *)
Lemma set_param_own_bounds {O : @PyNumOrder V N} (p : param) (v : V)
      (st : state V) :
  own_bounds p = true ->
  let lo := caps (self st) (lower p) in
  let hi := caps (self st) (upper p) in
  exists st',
    set_param p v st = Ok tt st'
    /\ (py_le v lo = true \/ py_le hi v = true ->
        transmitted st' = transmitted st)
    /\ (py_lt lo v = true /\ py_lt v hi = true ->
        transmitted st'
        = transmitted st ++ [(word p ++ " " ++ py_str v ++ nl)%string]).
Proof.
  intros Hown lo hi.
  destruct (set_param_tested p v st) as (st' & E & H).
  exists st'. split; [exact E|].
  assert (Hlo : tested_lower p = lower p) by (destruct p; auto; discriminate).
  assert (Hhi : tested_upper p = upper p) by (destruct p; auto; discriminate).
  rewrite Hlo, Hhi in H. fold lo hi in H. unfold strictly_between in H.
  split.
  - intros [Hle | Hle]; apply py_le_not_lt in Hle; rewrite Hle in H;
      rewrite ?andb_false_r in H; simpl in H; apply H.
  - intros [H1 H2]. rewrite H1, H2 in H. apply H.
Qed.

End Setters.

(* ================================================================== *)
(** * Reading replies *)

Section Getters.

Context {V : Type} {N : PyNum V}.

Lemma idle_after_tick (st : state V) : idle st -> idle (tick st).
Proof. intro H. rewrite idle_tick by assumption. exact H. Qed.

Lemma incoming_tick_idle (st : state V) :
  idle st -> incoming (env (tick st)) = incoming (env st).
Proof. intro H. now rewrite idle_tick. Qed.

Lemma log_tick_idle (st : state V) :
  idle st -> log (env (tick st)) = log (env st).
Proof. intro H. now rewrite idle_tick. Qed.

Lemma device_tick (st : state V) :
  device (env (tick st)) = device (env st).
Proof. apply tick_unchanged. Qed.

(** [write] with no sampler running: the command goes out and the
    instrument's answer is queued behind what was already unread. *)
Lemma write_idle (s : string) (st : state V) :
  idle st ->
  exists st',
    write s st = Ok tt st'
    /\ idle st'
    /\ history st' = history st ++ [Send (s ++ nl)%string]
    /\ incoming (env st') = next_reply st s.
Proof.
  intro H. eexists; split; [reflexivity|]. split; [|split].
  - unfold idle; simpl. apply (idle_after_tick H).
  - unfold history; simpl. rewrite events_of_app. f_equal.
    exact (tick_history st).
  - unfold next_reply; simpl.
    now rewrite sends_app, device_tick, incoming_tick_idle, log_tick_idle.
Qed.

Lemma history_recv (l : line) (rest : list line) (st : state V) :
  history (emit Main (Recv l) (with_env (set_incoming rest) st))
  = history st ++ [Recv l].
Proof. unfold history; simpl. now rewrite events_of_app. Qed.

(** [read] with no sampler running and a line waiting. *)
Lemma read_idle (l : line) (rest : list line) (st : state V) :
  idle st ->
  incoming (env st) = l :: rest ->
  exists st',
    idle st'
    /\ history st' = history st ++ [Recv l]
    /\ incoming (env st') = rest
    /\ read st = match l with
                 | Decoded raw => Ok (strip raw) st'
                 | Undecodable => Raise UnicodeDecodeError st'
                 end.
Proof.
  intros H Hin.
  exists (emit Main (Recv l) (with_env (set_incoming rest) (tick st))).
  split; [|split; [|split]].
  - unfold idle; simpl. apply (idle_after_tick H).
  - now rewrite history_recv, tick_history.
  - reflexivity.
  - unfold read, blocking.
    destruct (patience (env st)); simpl; unfold dev_readline;
      rewrite (incoming_tick_idle H), Hin; destruct l; reflexivity.
Qed.

(** [read] with no sampler running and nothing to read: blocked for as
    long as it is watched, and nothing is sent meanwhile. *)
Lemma await_idle_empty {A : Type} (n : nat)
      (attempt : state V -> option (result V A)) (st : state V) :
  idle st ->
  (forall s, incoming (env s) = [] -> attempt s = None) ->
  incoming (env st) = [] ->
  exists st', await n attempt st = Hang st' /\ history st' = history st.
Proof.
  intros H Hno. revert st H.
  induction n as [|n IH]; intros st H Hin; simpl.
  - rewrite Hno by now rewrite incoming_tick_idle.
    eexists; split; [reflexivity | apply tick_history].
  - rewrite Hno by now rewrite incoming_tick_idle.
    destruct (IH (tick st)) as (st' & E & Hh).
    + now apply idle_after_tick.
    + now rewrite incoming_tick_idle.
    + exists st'. split; [exact E|]. now rewrite Hh, tick_history.
Qed.

Lemma read_idle_empty (st : state V) :
  idle st ->
  incoming (env st) = [] ->
  exists st', read st = Hang st' /\ history st' = history st.
Proof.
  intros H Hin. apply await_idle_empty; auto.
  intros s Hs. unfold dev_readline. now rewrite Hs.
Qed.

(** Every getter transmits the line [asked] names, if any, then reads
    one line and parses it. *)
Lemma get_param_unfold (p : param) (min_max : pyarg V) :
  get_param p min_max
  = (match asked p min_max with
     | Some q => write q
     | None => ret tt
     end ;; s <- read ;; float s).
Proof.
  unfold asked.
  destruct min_max as [|s|x]; [destruct p; reflexivity| |destruct p; reflexivity].
  unfold equals, is_none.
  destruct (String.eqb_spec s "MIN") as [->|Hmin];
    [destruct p; reflexivity|].
  destruct (String.eqb_spec s "MAX") as [->|Hmax];
    [destruct p; reflexivity|].
  apply String.eqb_neq in Hmin, Hmax.
  destruct p;
    cbv [get_param get_voltage get_current get_internal_resistance
         get_over_current_protection get_over_voltage_protection
         get_rising_current_slew_rate get_falling_current_slew_rate
         get_rising_voltage_slew_rate get_falling_voltage_slew_rate
         equals is_none];
    now rewrite Hmin, Hmax.
Qed.

Lemma float_run (s : string) (st : state V) :
  float s st = match py_float s with
               | Some x => Ok x st
               | None => Raise ValueError st
               end.
Proof. unfold float. now destruct (py_float s). Qed.

Lemma sent_in_snoc (l : list (event V)) (e : event V) :
  sent_in (l ++ [e]) = sent_in l ++ sent_in [e].
Proof. apply sent_in_app. Qed.

End Getters.

(* ================================================================== *)
(** * The device session: claims C1, C3, C4, C5, C7, C9 *)

Section SessionClaims.

Context {V : Type} {N : PyNum V}.

Lemma mode_name_chain (r : string) :
  (if String.eqb r "0" then "CVHS"
   else if String.eqb r "1" then "CCHS"
   else if String.eqb r "2" then "CVLS"
   else if String.eqb r "3" then "CCLS"
   else EmptyString)%string = mode_name r.
Proof.
  destruct (String.eqb_spec r "0") as [->|H0]; [reflexivity|].
  destruct (String.eqb_spec r "1") as [->|H1]; [reflexivity|].
  destruct (String.eqb_spec r "2") as [->|H2]; [reflexivity|].
  destruct (String.eqb_spec r "3") as [->|H3]; [reflexivity|].
  destruct r as [|[[] [] [] [] [] [] [] []] [|]];
    try reflexivity; congruence.
Qed.

(** C3.  [set_voltage_current(v, i)] always returns; when [v] is
    strictly inside the cached voltage bounds and [i] strictly inside the
    cached current bounds it transmits the one line [APPL <v>,<i>] and
    logs nothing, otherwise it transmits nothing and logs one warning.
    This holds whatever the sampling threads do meanwhile. *)
Theorem set_voltage_current_guard (voltage current : V) (st : state V) :
  let bounds := caps (self st) in
  let inside :=
    strictly_between (bounds min_voltage) voltage (bounds max_voltage)
    && strictly_between (bounds min_current) current (bounds max_current) in
  exists st',
    set_voltage_current voltage current st = Ok tt st'
    /\ if inside
       then transmitted st'
            = transmitted st
              ++ [("APPL " ++ py_str voltage ++ "," ++ py_str current
                   ++ nl)%string]
            /\ warnings st' = warnings st
       else transmitted st' = transmitted st
            /\ warnings st'
               = warnings st
                 ++ ["Warning: Set voltage or current out of power supply absolute ratings. Command has been ignored."%string].
Proof.
  intros bounds inside. unfold set_voltage_current, bind, attribute.
  fold bounds. unfold strictly_between in inside. fold inside.
  destruct inside.
  - destruct (write_sends ("APPL " ++ py_str voltage ++ ","
                           ++ py_str current) st)
      as (st' & E & T & W & _).
    exists st'. split; [exact E|]. rewrite T, W. split; [|reflexivity].
    simpl. now rewrite !string_app_assoc.
  - destruct (warning_warns
                ("Warning: Set voltage or current out of power supply absolute ratings. "
                 ++ "Command has been ignored.") st)
      as (st' & E & T & W & _).
    exists st'. split; [exact E|]. now rewrite T, W.
Qed.

(** C4.  [set_power_supply_mode(m)] always returns; it transmits
    [OUTP:MODE <m>] when [m] is one of CVHS, CCHS, CVLS, CCLS, and
    otherwise transmits nothing and logs one warning. *)
Theorem set_power_supply_mode_guard (ps_mode : string) (st : state V) :
  exists st',
    set_power_supply_mode ps_mode st = Ok tt st'
    /\ ((In ps_mode ["CVHS"; "CCHS"; "CVLS"; "CCLS"]%string
         /\ transmitted st'
            = transmitted st ++ [("OUTP:MODE " ++ ps_mode ++ nl)%string]
         /\ warnings st' = warnings st)
        \/ (~ In ps_mode ["CVHS"; "CCHS"; "CVLS"; "CCLS"]%string
            /\ transmitted st' = transmitted st
            /\ warnings st'
               = warnings st
                 ++ ["Warning: Malformed string for power supply mode command. Command has been ignored."%string])).
Proof.
  unfold set_power_supply_mode.
  destruct (existsb (String.eqb ps_mode) ["CVHS"; "CCHS"; "CVLS"; "CCLS"]%string)
    eqn:E.
  - apply existsb_exists in E. destruct E as (m & Hin & Heq).
    apply String.eqb_eq in Heq. subst m.
    destruct (write_sends ("OUTP:MODE " ++ ps_mode) st)
      as (st' & Ew & T & W & _).
    exists st'. split; [exact Ew|]. left. rewrite T, W.
    repeat split; auto.
  - destruct (warning_warns
                ("Warning: Malformed string for power supply mode command. "
                 ++ "Command has been ignored.") st)
      as (st' & Ew & T & W & _).
    exists st'. split; [exact Ew|]. right. rewrite T, W.
    repeat split; auto. intro Hin.
    assert (existsb (String.eqb ps_mode)
              ["CVHS"; "CCHS"; "CVLS"; "CCLS"]%string = true) as C.
    { apply existsb_exists. exists ps_mode. split; [exact Hin|].
      apply String.eqb_refl. }
    congruence.
Qed.

(** C5.  With no sampler running, if the first line the caller reads
    after [OUTP:MODE?] is [raw], then [get_power_supply_mode()] returns
    CVHS, CCHS, CVLS or CCLS when the stripped reply is 0, 1, 2 or 3 and
    the empty string for any other reply; it does not raise. *)
Theorem get_power_supply_mode_maps (st : state V) (raw : string)
        (rest : list line) :
  idle st ->
  next_reply st "OUTP:MODE?" = Decoded raw :: rest ->
  exists st',
    get_power_supply_mode st = Ok (mode_name (strip raw)) st'
    /\ history st'
       = history st
         ++ [Send ("OUTP:MODE?" ++ nl)%string; Recv (Decoded raw)]
    /\ incoming (env st') = rest.
Proof.
  intros Hidle Hnext. unfold get_power_supply_mode, bind.
  destruct (write_idle "OUTP:MODE?" Hidle) as (s1 & E1 & I1 & H1 & In1).
  rewrite E1. rewrite Hnext in In1.
  destruct (read_idle I1 In1) as (s2 & I2 & H2 & In2 & E2).
  rewrite E2. exists s2. unfold ret. rewrite mode_name_chain.
  split; [reflexivity|]. split; [|exact In2].
  now rewrite H2, H1, <- app_assoc.
Qed.

(** C7.  With no sampler running, a getter called with no bound, MIN or
    MAX transmits its query, reads one line and returns [float] of it;
    when the line is not a number the getter itself ends in ValueError. *)
Theorem get_param_parses_reply (p : param) (bound : option string)
        (st : state V) (raw : string) (rest : list line) :
  idle st ->
  bound = None \/ bound = Some "MIN"%string \/ bound = Some "MAX"%string ->
  next_reply st (query p bound) = Decoded raw :: rest ->
  exists st',
    history st'
    = history st ++ [Send (query p bound ++ nl)%string; Recv (Decoded raw)]
    /\ incoming (env st') = rest
    /\ get_param p (as_arg bound) st
       = match py_float (strip raw) with
         | Some x => Ok x st'
         | None => Raise ValueError st'
         end.
Proof.
  intros Hidle Hb Hnext. rewrite get_param_unfold.
  assert (asked p (as_arg bound) = Some (query p bound)) as ->
    by (destruct Hb as [->|[->| ->]]; reflexivity).
  unfold bind.
  destruct (write_idle (query p bound) Hidle) as (s1 & E1 & I1 & H1 & In1).
  rewrite E1. rewrite Hnext in In1.
  destruct (read_idle I1 In1) as (s2 & I2 & H2 & In2 & E2).
  rewrite E2, float_run. exists s2.
  split; [now rewrite H2, H1, <- app_assoc|]. split; [exact In2|].
  reflexivity.
Qed.

(** C9.  With no sampler running, a getter whose [min_max] is neither
    [None] nor "MIN" nor "MAX" transmits nothing and still reads a line:
    it blocks when none is waiting, and otherwise consumes the waiting
    line and returns [float] of it or ends in the exception. *)
Theorem get_param_unknown_bound (p : param) (min_max : pyarg V)
        (st : state V) :
  idle st ->
  is_none min_max = false ->
  equals min_max "MIN" = false ->
  equals min_max "MAX" = false ->
  match incoming (env st) with
  | [] =>
      exists st', get_param p min_max st = Hang st'
                  /\ history st' = history st
  | l :: rest =>
      exists st',
        history st' = history st ++ [Recv l]
        /\ transmitted st' = transmitted st
        /\ incoming (env st') = rest
        /\ get_param p min_max st
           = match l with
             | Decoded raw =>
                 match py_float (strip raw) with
                 | Some x => Ok x st'
                 | None => Raise ValueError st'
                 end
             | Undecodable => Raise UnicodeDecodeError st'
             end
  end.
Proof.
  intros Hidle Hn Hmin Hmax. rewrite get_param_unfold.
  unfold asked. rewrite Hn, Hmin, Hmax. unfold bind, ret.
  destruct (incoming (env st)) as [|l rest] eqn:Hin.
  - destruct (read_idle_empty Hidle Hin) as (st' & E & Hh).
    exists st'. now rewrite E.
  - destruct (read_idle Hidle Hin) as (st' & I' & Hh & In' & E).
    exists st'. split; [exact Hh|]. split.
    + unfold transmitted. fold (history st') (history st).
      rewrite Hh, sent_in_app. simpl. now rewrite app_nil_r.
    + split; [exact In'|]. rewrite E. destruct l; [|reflexivity].
      now rewrite float_run.
Qed.

End SessionClaims.

(* ================================================================== *)
(** * The sampling loop *)

Section Loop.

Context {V : Type} {N : PyNum V}.

(** [n] steps of thread [t] alone. *)
Lemma solo_succ (t n : nat) (st : state V) :
  run_burst (repeat t (S n)) st
  = run_burst (repeat t n) (_read_power_supply_data t st).
Proof. reflexivity. Qed.

Lemma step_halted (t : nat) (pc : wpc V) (st : state V) :
  thread_at t st = Some pc -> halted pc = true ->
  _read_power_supply_data t st = st.
Proof.
  intros H Hh. unfold _read_power_supply_data. rewrite H.
  destruct pc; try discriminate; reflexivity.
Qed.

Ltac at_goto :=
  unfold thread_at, goto in *; simpl;
  eapply nth_error_update_nth_eq; eassumption.

(** One step inside the loop body: either the thread advances, by one
    step and with the appends it owes accounted for, or it does not get
    closer to the loop test. *)
Lemma step_body (t n : nat) (pc : wpc V) (st : state V) :
  thread_at t st = Some pc ->
  remaining pc = S n ->
  exists pc',
    thread_at t (_read_power_supply_data t st) = Some pc'
    /\ ((remaining pc' = n
         /\ forall k,
             List.length (series_of k (self (_read_power_supply_data t st)))
             + owed k pc'
             = List.length (series_of k (self st)) + owed k pc)
        \/ n < remaining pc').
Proof.
  intros H Hr. pose proof H as H0. revert H0.
  step_at H pc; intro H0; simpl in Hr; try discriminate;
    injection Hr as <-;
    eexists; (split; [first [at_goto | eassumption]|]);
    first [ left; split; [reflexivity|]; intros []; simpl;
            rewrite ?length_app; simpl; lia
          | right; simpl; lia ].
Qed.

Lemma not_back (t n : nat) :
  forall (st : state V) (pc : wpc V),
    thread_at t st = Some pc ->
    n < remaining pc ->
    thread_at t (run_burst (repeat t n) st) <> Some T_loop.
Proof.
  induction n as [|n IH]; intros st pc H Hlt.
  - simpl. rewrite H. intro E. injection E as ->. simpl in Hlt. lia.
  - rewrite solo_succ.
    destruct (remaining pc) as [|m] eqn:Hr; [lia|].
    destruct (step_body t st H Hr) as (pc' & H' & [[Hm _]|Hm]);
      apply (IH _ pc' H'); lia.
Qed.

(** Reaching the loop test in exactly the remaining number of steps
    means every append owed has been made. *)
Lemma on_time (t n : nat) :
  forall (st : state V) (pc : wpc V),
    thread_at t st = Some pc ->
    remaining pc = n ->
    thread_at t (run_burst (repeat t n) st) = Some T_loop ->
    forall k,
      List.length (series_of k (self (run_burst (repeat t n) st)))
      = List.length (series_of k (self st)) + owed k pc.
Proof.
  induction n as [|n IH]; intros st pc H Hr Hend k.
  - simpl. destruct pc; simpl in Hr; try discriminate. simpl. lia.
  - rewrite solo_succ in *.
    destruct (step_body t st H Hr) as (pc' & H' & [[Hm Hlen]|Hm]).
    + rewrite (IH _ pc' H' Hm Hend k). specialize (Hlen k). lia.
    + exfalso. exact (not_back t _ H' Hm Hend).
Qed.

Lemma one_more {A : Type} (l l' : list A) :
  (exists s, l' = l ++ s) -> List.length l' = List.length l + 1 ->
  exists x, l' = l ++ [x].
Proof.
  intros (s & ->) Hlen. rewrite length_app in Hlen.
  destruct s as [|x [|y s]]; simpl in Hlen; try lia.
  now exists x.
Qed.

(** C10.  A complete pass of a sampling thread through its loop, from
    the loop test back to the loop test in thirteen steps of its own,
    appends exactly one element to each of the three series; so equal
    lengths before the pass are equal lengths after it. *)
Theorem iteration_appends_one (t : nat) (st : state V) :
  let st' := run_burst (repeat t 13) st in
  thread_at t st = Some T_loop ->
  thread_at t st' = Some T_loop ->
  (exists v c p,
      data_voltage (self st') = data_voltage (self st) ++ [v]
      /\ data_current (self st') = data_current (self st) ++ [c]
      /\ data_power (self st') = data_power (self st) ++ [p])
  /\ (List.length (data_voltage (self st))
      = List.length (data_current (self st))
      /\ List.length (data_current (self st))
         = List.length (data_power (self st)) ->
      List.length (data_voltage (self st'))
      = List.length (data_current (self st'))
      /\ List.length (data_current (self st'))
         = List.length (data_power (self st'))).
Proof.
  intros st' H Hend.
  assert (Hlen : forall k,
    List.length (series_of k (self st'))
    = List.length (series_of k (self st)) + 1).
  { intro k. subst st'. rewrite solo_succ in *.
    unfold _read_power_supply_data in *. rewrite H in *.
    destruct (reading_thread_active (self st)).
    - assert (Ha : thread_at t (goto t T_acquire st) = Some T_acquire)
        by (eapply thread_at_goto_eq; eassumption).
      apply (on_time t (n:=12) _ Ha eq_refl Hend k).
    - exfalso.
      assert (Ha : thread_at t (goto t T_finished st) = Some T_finished)
        by (eapply thread_at_goto_eq; eassumption).
      refine (not_back t (n:=12) _ Ha _ Hend). simpl. lia. }
  destruct (burst_grows (repeat t 13) st) as (new & _ & _ & Hs).
  fold st' in Hs.
  destruct (@one_more _ (data_voltage (self st))
              (data_voltage (self st'))) as (v & Hv);
    [eexists; apply (Hs SVoltage) | apply (Hlen SVoltage)|].
  destruct (@one_more _ (data_current (self st))
              (data_current (self st'))) as (c & Hc);
    [eexists; apply (Hs SCurrent) | apply (Hlen SCurrent)|].
  destruct (@one_more _ (data_power (self st))
              (data_power (self st'))) as (p & Hp);
    [eexists; apply (Hs SPower) | apply (Hlen SPower)|].
  split; [now exists v, c, p|].
  rewrite Hv, Hc, Hp, !length_app. simpl. lia.
Qed.

End Loop.

(* ================================================================== *)
(** * The lock *)

Section Lock.

Context {V : Type} {N : PyNum V}.

Lemma discipline_app (h : bool) (a b : list (event V)) :
  discipline h (a ++ b)
  = match discipline h a with
    | Some h' => discipline h' b
    | None => None
    end.
Proof.
  revert h; induction a as [|e a IH]; intro h; simpl; auto.
  destruct e, h; simpl; auto.
Qed.

Lemma events_of_own (t : nat) (e : event V) :
  events_of (Worker t) [(Worker t, e)] = [e].
Proof. unfold events_of; simpl. now rewrite Nat.eqb_refl. Qed.

Lemma events_of_foreign (t u : nat) (e : event V) :
  t <> u -> events_of (Worker u) [(Worker t, e)] = [].
Proof.
  intro H. unfold events_of; simpl.
  apply Nat.eqb_neq in H. now rewrite H.
Qed.

Lemma step_events_other (t u : nat) (st : state V) :
  t <> u ->
  events_of (Worker u) (log (env (_read_power_supply_data t st)))
  = events_of (Worker u) (log (env st)).
Proof.
  intro H. step_cases t st; rewrite ?events_of_app;
    rewrite ?(events_of_foreign _ H), ?app_nil_r; reflexivity.
Qed.

Lemma step_holding_other (t u : nat) (st : state V) :
  t <> u ->
  holding u (_read_power_supply_data t st) = holding u st.
Proof.
  intro H. apply Nat.eqb_neq in H.
  step_cases t st; unfold holding; simpl;
    rewrite ?Hlk; simpl; rewrite ?H; try reflexivity;
    apply Nat.eqb_eq in Heq; subst; now rewrite ?H.
Qed.

(** The events one step adds for a thread keep the discipline. *)
Lemma step_events (t u : nat) (pc : wpc V) (st : state V) :
  thread_at u st = Some pc ->
  exists evs pc',
    events_of (Worker u) (log (env (_read_power_supply_data t st)))
    = events_of (Worker u) (log (env st)) ++ evs
    /\ thread_at u (_read_power_supply_data t st) = Some pc'
    /\ forall h, agrees pc h ->
         exists h', discipline h evs = Some h' /\ agrees pc' h'.
Proof.
  intro H. destruct (Nat.eq_dec t u) as [->|Hne].
  - pose proof H as H0. revert H0.
    step_at H pc; intro H0;
      rewrite ?events_of_app, ?events_of_own;
      eexists; eexists;
      (split; [first [reflexivity | symmetry; apply app_nil_r]|]);
      (split; [first [unfold thread_at, goto in *; simpl;
                      eapply nth_error_update_nth_eq; eassumption
                     | eassumption]|]);
      intros h [Hr| ->]; try discriminate; simpl;
      eexists; (split; [reflexivity|]);
      first [right; reflexivity | left; reflexivity].
  - exists [], pc. rewrite app_nil_r, step_events_other, step_other by auto.
    repeat split; auto. intros h Hh. exists h. now split.
Qed.

Lemma burst_events (u : nat) (b : list nat) :
  forall (st : state V) (pc : wpc V) (h : bool),
    thread_at u st = Some pc ->
    agrees pc h ->
    exists evs pc' h',
      events_of (Worker u) (log (env (run_burst b st)))
      = events_of (Worker u) (log (env st)) ++ evs
      /\ thread_at u (run_burst b st) = Some pc'
      /\ discipline h evs = Some h'
      /\ agrees pc' h'.
Proof.
  induction b as [|t b IH]; intros st pc h H Hh; simpl.
  - exists [], pc, h. rewrite app_nil_r. auto.
  - destruct (@step_events t u pc st H) as (e1 & pc1 & E1 & H1 & D1).
    destruct (D1 h Hh) as (h1 & Dh1 & A1).
    destruct (IH _ pc1 h1 H1 A1) as (e2 & pc2 & h2 & E2 & H2 & D2 & A2).
    exists (e1 ++ e2), pc2, h2. repeat split; auto.
    + now rewrite E2, E1, app_assoc.
    + now rewrite discipline_app, Dh1.
Qed.

Lemma step_lock_consistent (t : nat) (st : state V) :
  lock_consistent st -> lock_consistent (_read_power_supply_data t st).
Proof.
  intros [Hwf Hpt]. split.
  - step_cases t st; intros o d E; simpl in E;
      first [ discriminate E
            | injection E as <- <-; lia
            | eapply Hwf; exact E
            | rewrite Hlk in E; eapply Hwf; exact E ].
  - intros u pc' H' Hr'. destruct (Nat.eq_dec t u) as [->|Hne].
    + destruct (thread_at u st) as [pc|] eqn:H.
      * pose proof (Hpt _ _ H) as Hh. revert H' Hh.
        step_at H pc; intros H' Hh; unfold thread_at, goto in H', H;
          simpl in H';
          try (erewrite nth_error_update_nth_eq in H' by exact H);
          try rewrite H in H';
          injection H' as <-; simpl in *;
          try discriminate;
          try specialize (Hh eq_refl);
          unfold holding in *; simpl in *;
          try (rewrite Hlk in Hh; simpl in Hh);
          try (rewrite Hlk; simpl);
          rewrite ?Nat.eqb_refl in *; rewrite ?Heq in *;
          try lia; try assumption.
      * unfold _read_power_supply_data in H'. rewrite H in H'.
        rewrite H in H'. discriminate.
    + rewrite step_other in H' by assumption.
      rewrite step_holding_other by assumption. auto.
Qed.

Lemma burst_lock_consistent (b : list nat) (st : state V) :
  lock_consistent st -> lock_consistent (run_burst b st).
Proof.
  revert st; induction b as [|t b IH]; intros st H; simpl; auto.
  apply IH, step_lock_consistent, H.
Qed.

(** Whatever the schedule, the lock stays in step with the program
    points of the sampling threads, so a thread about to sleep does not
    hold it; and the events of a thread keep the discipline: it acquires
    the lock while not holding it, queries, reads and appends only while
    holding it, and releases it before it sleeps. *)
Lemma lock_kept (b : list nat) (t : nat) (pc : wpc V) (st : state V) :
  let st' := run_burst b st in
  lock_consistent st ->
  thread_at t st = Some pc ->
  raised pc = false ->
  lock_consistent st'
  /\ (thread_at t st' = Some T_sleep -> holding t st' = 0)
  /\ exists evs held,
       events_of (Worker t) (log (env st'))
       = events_of (Worker t) (log (env st)) ++ evs
       /\ discipline (in_critical pc) evs = Some held.
Proof.
  intros st' Hc H Hr.
  assert (Hc' : lock_consistent st') by now apply burst_lock_consistent.
  split; [exact Hc'|]. split.
  - intro Hs. now apply (proj2 Hc' t T_sleep Hs).
  - destruct (@burst_events t b st pc (in_critical pc) H)
      as (evs & pc' & h' & E & _ & D & _); [now right|].
    now exists evs, h'.
Qed.

End Lock.

(* ================================================================== *)
(** * Starting the sampler *)

Section Start.

Context {V : Type} {N : PyNum V}.

Lemma extends_refl (st : state V) : extends st st.
Proof.
  exists []. rewrite app_nil_r. split; auto.
  intro k. simpl. now rewrite app_nil_r.
Qed.

Lemma extends_trans (a b c : state V) :
  extends a b -> extends b c -> extends a c.
Proof.
  intros (n1 & L1 & S1) (n2 & L2 & S2). exists (n1 ++ n2). split.
  - now rewrite L2, L1, app_assoc.
  - intro k. now rewrite S2, S1, appended_app, app_assoc.
Qed.

Lemma grows_extends (st st' : state V) : grows st st' -> extends st st'.
Proof. intros (new & L & _ & S). now exists new. Qed.

Lemma tick_extends (st : state V) : extends st (tick st).
Proof. apply grows_extends, tick_grows. Qed.

(** A thread that is not running stays as it is. *)
Lemma burst_halted (t : nat) (pc : wpc V) (b : list nat) :
  forall st : state V,
    thread_at t st = Some pc -> halted pc = true ->
    thread_at t (run_burst b st) = Some pc.
Proof.
  induction b as [|u b IH]; intros st H Hh; simpl; auto.
  apply IH; auto.
  destruct (Nat.eq_dec u t) as [->|Hne].
  - now rewrite (@step_halted _ _ t pc st H Hh).
  - now rewrite step_other.
Qed.

Lemma tick_halted (t : nat) (pc : wpc V) (st : state V) :
  thread_at t st = Some pc -> halted pc = true ->
  thread_at t (tick st) = Some pc.
Proof. intros H Hh. unfold tick. now apply burst_halted. Qed.

Lemma tick_count (st : state V) :
  List.length (threads (env (tick st))) = List.length (threads (env st)).
Proof. apply tick_unchanged. Qed.

(** [start_thread_power_supply_data] always returns, and it clears
    nothing: across the call the log only grows and each series is what
    it was, followed by the values that sampling threads appended
    meanwhile.  The same holds across any steps of the sampling threads. *)
Lemma start_extends (st : state V) :
  (forall b, extends st (run_burst b st))
  /\ exists st',
       start_thread_power_supply_data st = Ok tt st'
       /\ extends st st'
       /\ reading_thread_active (self st') = true
       /\ thread_at (ps_thread (self st')) st' = Some T_loop.
Proof.
  split; [intro b; apply grows_extends, burst_grows|].
  unfold start_thread_power_supply_data, bind, set_active, Thread,
    thread_start, atomic.
  set (s1 := emit Main (SetActive true)
               (with_self (set_reading_thread_active true) (tick st))).
  set (t := List.length (threads (env s1))).
  set (s2 := with_self (set_ps_thread t)
               (with_env (fun w => set_threads (threads w ++ [T_created]) w)
                  s1)).
  assert (Ht : thread_at t s2 = Some T_created).
  { unfold thread_at, s2, t; simpl.
    rewrite nth_error_app2 by lia. now rewrite Nat.sub_diag. }
  change (ps_thread (self s2)) with t.
  rewrite (@tick_halted t _ s2 Ht eq_refl).
  eexists. split; [reflexivity|]. split; [|split].
  - eapply extends_trans; [apply tick_extends|].
    eapply extends_trans with (b := s2).
    + exists [(Main, SetActive true)]. split; [reflexivity|].
      intros []; simpl; now rewrite app_nil_r.
    + eapply extends_trans; [apply tick_extends|].
      exists [(Main, Start t)]. split; [reflexivity|].
      intros []; simpl; now rewrite app_nil_r.
  - simpl. rewrite (same_active (tick_unchanged s2)). reflexivity.
  - simpl. rewrite (same_handle (tick_unchanged s2)). simpl.
    eapply thread_at_goto_eq. apply (@tick_halted t _ s2 Ht eq_refl).
Qed.

End Start.

(* ================================================================== *)
(** * Stopping the sampler *)

Section Stop.

Context {V : Type} {N : PyNum V}.

Lemma sampling_intro (w : nat) (pc : wpc V) (st : state V) :
  ps_thread (self st) = w ->
  measurable (device (env st)) ->
  (forall t pc0, t <> w -> thread_at t st = Some pc0 -> halted pc0 = true) ->
  thread_at w st = Some pc ->
  pc <> T_created -> raised pc = false ->
  lock (env st) = (if in_critical pc then Some (w, 1) else None) ->
  (if awaiting pc
   then exists raw x, incoming (env st) = [Decoded raw]
                      /\ py_float (strip raw) = Some x
   else incoming (env st) = []) ->
  List.length (data_voltage (self st)) + owed SVoltage pc
  = List.length (data_power (self st)) + owed SPower pc ->
  List.length (data_current (self st)) + owed SCurrent pc
  = List.length (data_power (self st)) + owed SPower pc ->
  sampling w st.
Proof.
  intros. unfold sampling.
  split; [assumption|]. split; [assumption|]. split; [assumption|].
  exists pc. repeat split; assumption.
Qed.

Ltac others Ho :=
  let t := fresh "t" in let pc0 := fresh "pc0" in
  let Hne := fresh "Hne" in let Ht := fresh "Ht" in
  intros t pc0 Hne Ht;
  try rewrite thread_at_goto_neq in Ht by auto;
  unfold thread_at in *; simpl in Ht; eapply Ho; eauto.

Ltac self_at H :=
  unfold thread_at, goto in *; simpl;
  eapply nth_error_update_nth_eq; exact H.

(** A step of the sampling thread keeps the session in shape. *)
Lemma step_sampling (w : nat) (st : state V) :
  sampling w st -> sampling w (_read_power_supply_data w st).
Proof.
  intros (Hh & Hdev & Ho & pc & Hpc & Hnc & Hnr & Hlk & Hin & Hv & Hc).
  pose proof Hdev as [Hq Hsilent].
  assert (Hsame : sampling w st)
    by (eapply sampling_intro with (pc := pc); eauto).
  revert Hsame Hlk Hin Hv Hc Hnc Hnr.
  step_at Hpc pc; intros Hsame Hlk' Hin' Hv Hc Hnc Hnr;
    try exact Hsame; try discriminate; try congruence;
    try (destruct Hin' as (raw' & x' & E' & F');
         first [ discriminate E'
               | injection E' as -> ->
               | injection E' as ->
               | idtac ];
         try congruence).
  all: try (eapply sampling_intro;
    [ simpl; exact Hh
    | simpl; exact Hdev
    | others Ho
    | self_at Hpc
    | discriminate
    | reflexivity
    | simpl; try reflexivity; try assumption
    | simpl; rewrite ?sends_app; simpl
    | simpl in *; rewrite ?length_app; simpl; lia
    | simpl in *; rewrite ?length_app; simpl; lia ]).
  all: try assumption; try reflexivity.
  all: try (rewrite Hin'; simpl;
    first [ exact (Hq _ "MEAS:VOLT?"%string (or_introl eq_refl))
          | exact (Hq _ "MEAS:CURR?"%string (or_intror (or_introl eq_refl)))
          | exact (Hq _ "MEAS:POW?"%string
                     (or_intror (or_intror (or_introl eq_refl)))) ]).
  injection Hlk' as -> ->. rewrite Nat.eqb_refl in Heq. discriminate.
Qed.

(** Under [sampling], every other thread stands still. *)
Lemma step_foreign (w t : nat) (st : state V) :
  sampling w st -> t <> w -> _read_power_supply_data t st = st.
Proof.
  intros (_ & _ & Ho & _) Hne.
  destruct (thread_at t st) as [pc|] eqn:E.
  - apply (@step_halted _ _ t pc st E). eapply Ho; eauto.
  - unfold _read_power_supply_data. now rewrite E.
Qed.

Lemma burst_sampling (w : nat) (b : list nat) :
  forall st : state V, sampling w st -> sampling w (run_burst b st).
Proof.
  induction b as [|t b IH]; intros st H; simpl; auto.
  apply IH. destruct (Nat.eq_dec t w) as [->|Hne].
  - now apply step_sampling.
  - now rewrite (step_foreign H Hne).
Qed.

(** With the flag down, each step of the sampling thread brings it one
    step closer to leaving the loop: nothing blocks it. *)
Lemma step_progress (w : nat) (pc : wpc V) (st : state V) :
  sampling w st ->
  reading_thread_active (self st) = false ->
  thread_at w st = Some pc ->
  exists pc',
    thread_at w (_read_power_supply_data w st) = Some pc'
    /\ togo pc' = Nat.pred (togo pc).
Proof.
  intros (Hh & Hdev & Ho & pc0 & Hpc & Hnc & Hnr & Hlk & Hin & Hv & Hc)
         Hact H.
  rewrite H in Hpc. injection Hpc as <-.
  revert Hlk Hin Hnc Hnr.
  step_at H pc; intros Hlk' Hin' Hnc Hnr;
    try discriminate; try congruence;
    try (destruct Hin' as (raw' & x' & E' & F');
         first [ discriminate E'
               | injection E' as -> ->
               | injection E' as ->
               | idtac ];
         try congruence);
    try (eexists; split; [self_at H | reflexivity]);
    try (eexists; split; [exact H | reflexivity]).
  injection Hlk' as -> ->. rewrite Nat.eqb_refl in Heq. discriminate.
Qed.

Lemma burst_active (b : list nat) (st : state V) :
  reading_thread_active (self (run_burst b st))
  = reading_thread_active (self st).
Proof. apply burst_unchanged. Qed.

Lemma burst_progress (w : nat) (b : list nat) :
  forall (st : state V) (pc : wpc V),
    sampling w st ->
    reading_thread_active (self st) = false ->
    thread_at w st = Some pc ->
    exists pc',
      thread_at w (run_burst b st) = Some pc'
      /\ togo pc' <= togo pc
      /\ (In w b -> togo pc' <= Nat.pred (togo pc)).
Proof.
  induction b as [|t b IH]; intros st pc Hs Ha H; simpl.
  - exists pc. repeat split; auto. intros [].
  - destruct (Nat.eq_dec t w) as [->|Hne].
    + destruct (step_progress Hs Ha H) as (pc1 & H1 & T1).
      destruct (IH _ pc1 (step_sampling Hs)) as (pc' & H' & Le & _); auto.
      { now rewrite (same_active (step_unchanged w st)). }
      exists pc'. repeat split; auto; lia.
    + rewrite (step_foreign Hs Hne).
      destruct (IH _ pc Hs Ha H) as (pc' & H' & Le & Lt).
      exists pc'. repeat split; auto.
      intros [E|Hin]; [congruence | auto].
Qed.

(** ** What the caller's own actions keep *)

Lemma sampling_clock (w n : nat) (st : state V) :
  sampling w st -> sampling w (with_env (set_clock n) st).
Proof. intro H. exact H. Qed.

Lemma sampling_emit (w : nat) (e : event V) (st : state V) :
  sampling w st -> sampling w (emit Main e st).
Proof. intro H. exact H. Qed.

Lemma sampling_flag (w : nat) (b : bool) (st : state V) :
  sampling w st -> sampling w (with_self (set_reading_thread_active b) st).
Proof. intro H. exact H. Qed.

Lemma tick_sampling (w : nat) (st : state V) :
  sampling w st -> sampling w (tick st).
Proof. intro H. unfold tick. apply burst_sampling. exact H. Qed.

Lemma tick_fair (w : nat) (st : state V) : fair w st -> fair w (tick st).
Proof.
  unfold fair. intros H k Hk.
  rewrite (same_oracle (tick_unchanged st)). apply H.
  rewrite tick_clock in Hk. lia.
Qed.

Lemma tick_progress (w : nat) (pc : wpc V) (st : state V) :
  sampling w st -> fair w st ->
  reading_thread_active (self st) = false ->
  thread_at w st = Some pc ->
  exists pc',
    thread_at w (tick st) = Some pc' /\ togo pc' <= Nat.pred (togo pc).
Proof.
  intros Hs Hf Ha H. unfold tick.
  destruct (@burst_progress w (oracle (env st) (clock (env st)))
              (with_env (fun w0 => set_clock (S (clock w0)) w0) st) pc)
    as (pc' & H' & _ & Lt); auto.
  exists pc'. split; [exact H'|]. apply Lt. apply Hf. lia.
Qed.

Lemma history_emit (e : event V) (st : state V) :
  history (emit Main e st) = history st ++ [e].
Proof. unfold history; simpl. now rewrite events_of_app. Qed.

Lemma sampling_done (w : nat) (pc : wpc V) (st : state V) :
  sampling w st -> thread_at w st = Some pc -> togo pc = 0 ->
  pc = T_finished.
Proof.
  intros (_ & _ & _ & pc0 & Hpc & Hnc & Hnr & _) H Ht.
  rewrite H in Hpc. injection Hpc as <-.
  destruct pc; simpl in *; try discriminate; congruence.
Qed.

Lemma togo_running (pc : wpc V) : 0 < togo pc -> ended pc = false.
Proof. destruct pc; simpl; auto; lia. Qed.

(** With the flag down and a fair schedule, [join] returns within as
    many polls as the thread has steps to go. *)
Lemma join_returns (w n : nat) :
  forall (st : state V) (pc : wpc V),
    sampling w st -> fair w st ->
    reading_thread_active (self st) = false ->
    thread_at w st = Some pc ->
    togo pc <= S n ->
    exists st',
      await n (joined w) st = Ok tt (emit Main (Join w) st')
      /\ sampling w st'
      /\ thread_at w st' = Some T_finished
      /\ history st' = history st.
Proof.
  induction n as [|n IH]; intros st pc Hs Hf Ha H Hle;
    destruct (tick_progress Hs Hf Ha H) as (pc1 & H1 & Le1);
    pose proof (tick_sampling Hs) as Hs1;
    simpl; unfold joined at 1; rewrite H1;
    destruct (togo pc1) as [|m] eqn:Hm.
  - assert (pc1 = T_finished) by (eapply sampling_done; eauto).
    subst pc1. simpl.
    exists (tick st).
    split; [reflexivity|]. split; [exact Hs1|]. split; [exact H1|].
    apply tick_history.
  - lia.
  - assert (pc1 = T_finished) by (eapply sampling_done; eauto).
    subst pc1. simpl.
    exists (tick st).
    split; [reflexivity|]. split; [exact Hs1|]. split; [exact H1|].
    apply tick_history.
  - rewrite togo_running by lia.
    destruct (IH (tick st) pc1) as (st' & E & Hs' & H' & Hh'); auto.
    + now apply tick_fair.
    + now rewrite (same_active (tick_unchanged st)).
    + lia.
    + exists st'. split; [exact E|]. split; [exact Hs'|].
      split; [exact H'|]. now rewrite Hh', tick_history.
Qed.

Lemma sampling_idle (w : nat) (st : state V) :
  sampling w st -> thread_at w st = Some T_finished -> idle st.
Proof.
  intros (_ & _ & Ho & _) H. unfold idle. apply forallb_forall.
  intros pc Hin. apply In_nth_error in Hin. destruct Hin as (t & Ht).
  destruct (Nat.eq_dec t w) as [->|Hne].
  - unfold thread_at in H. rewrite H in Ht. now injection Ht as <-.
  - eapply Ho; eauto.
Qed.

Lemma atomic_idle {A : Type} (f : state V -> result V A) (st : state V) :
  idle st ->
  atomic f st = f (with_env (fun w => set_clock (S (clock w)) w) st).
Proof. intro H. unfold atomic. now rewrite idle_tick. Qed.

(** [save_data] with no sampler running and series of equal length:
    the file is opened once and the three rows written once. *)
Lemma save_data_idle (st : state V) :
  idle st ->
  rectangular [data_voltage (self st); data_current (self st);
               data_power (self st)] = true ->
  let text := savetxt_text [data_voltage (self st); data_current (self st);
                            data_power (self st)] "," in
  exists st',
    save_data st = Ok tt st'
    /\ history st'
       = history st ++ [OpenW "PS_data.csv"; WriteFile "PS_data.csv" text]
    /\ files (env st') "PS_data.csv"%string = Some text
    /\ self st' = self st
    /\ threads (env st') = threads (env st).
Proof.
  intros Hi Hr text.
  unfold save_data, bind, np_array, open_w, savetxt.
  repeat (rewrite atomic_idle by exact Hi;
          cbn -[tick atomic rectangular savetxt_text String.eqb]).
  fold text. rewrite Hr. eexists. split; [reflexivity|].
  split; [|split; [|split]]; [| |reflexivity|reflexivity].
  - unfold history. cbn -[savetxt_text events_of text].
    rewrite !events_of_app, <- app_assoc. reflexivity.
  - cbn -[savetxt_text]. reflexivity.
Qed.

Lemma togo_bound (pc : wpc V) : togo pc <= 13.
Proof. destruct pc; simpl; lia. Qed.

Lemma sampling_off (w : nat) (st : state V) :
  sampling w st -> sampling w (dev_write Main ("OUTP 0" ++ nl) st).
Proof.
  intros (Hh & Hdev & Ho & pc & Hpc & Hnc & Hnr & Hlk & Hin & Hv & Hc).
  eapply sampling_intro with (pc := pc); eauto.
  unfold dev_write; simpl. rewrite sends_app; simpl.
  rewrite (proj2 Hdev). now rewrite app_nil_r.
Qed.

Lemma after_tick (w : nat) (st : state V) :
  sampling w st -> fair w st ->
  sampling w (tick st) /\ fair w (tick st)
  /\ history (tick st) = history st
  /\ patience (env (tick st)) = patience (env st)
  /\ reading_thread_active (self (tick st))
     = reading_thread_active (self st).
Proof.
  intros Hs Hf. split; [now apply tick_sampling|].
  split; [now apply tick_fair|]. split; [apply tick_history|].
  split; apply tick_unchanged.
Qed.

Lemma savetxt_three (v c p : list V) :
  savetxt_text [v; c; p] ","
  = (join "," (map py_fmt v) ++ nl
     ++ join "," (map py_fmt c) ++ nl
     ++ join "," (map py_fmt p) ++ nl)%string.
Proof.
  unfold savetxt_text; simpl. now rewrite !string_app_assoc.
Qed.

(** C6.  While one sampling thread is running against an instrument that
    answers its measurement queries, [stop_power_supply] returns under
    every fair schedule.  After switching the output off it lowers the
    flag, sleeps a tenth of a second, joins the thread and only then
    opens [PS_data.csv] and writes it, once: the voltage row, the
    current row and the power row of the series as they are then, each
    comma-separated and newline-terminated, with nothing before or
    after. *)
Theorem stop_persists (w : nat) (st : state V) :
  sampling w st ->
  fair w st ->
  12 <= patience (env st) ->
  exists st',
    stop_power_supply st = Ok tt st'
    /\ history st'
       = history st
         ++ [Send ("OUTP 0" ++ nl)%string; Sleep (2 # 10);
             SetActive false; Sleep (1 # 10); Join w;
             OpenW "PS_data.csv";
             WriteFile "PS_data.csv" (three_rows (self st'))]
    /\ files (env st') "PS_data.csv"%string = Some (three_rows (self st'))
    /\ thread_at w st' = Some T_finished
    /\ List.length (data_voltage (self st'))
       = List.length (data_power (self st'))
    /\ List.length (data_current (self st'))
       = List.length (data_power (self st')).
Proof.
  intros Hs Hf Hp.
  unfold stop_power_supply, stop_thread_power_supply_data,
    power_supply_off, write, sleep, set_active, bind, atomic.
  (* OUTP 0 *)
  destruct (after_tick Hs Hf) as (Hs0 & Hf0 & Hh0 & Hp0 & _).
  set (s1 := dev_write Main ("OUTP 0" ++ nl) (tick st)).
  assert (Hs1 : sampling w s1) by now apply sampling_off.
  assert (Hf1 : fair w s1) by exact Hf0.
  assert (Hh1 : history s1 = history st ++ [Send ("OUTP 0" ++ nl)%string]).
  { unfold s1, history, dev_write; simpl. rewrite events_of_app.
    f_equal. exact Hh0. }
  (* sleep 0.2 *)
  destruct (after_tick Hs1 Hf1) as (Hs1' & Hf1' & Hh1' & Hp1' & _).
  set (s2 := emit Main (Sleep (2 # 10)) (tick s1)).
  assert (Hs2 : sampling w s2) by exact Hs1'.
  assert (Hf2 : fair w s2) by exact Hf1'.
  (* flag down *)
  destruct (after_tick Hs2 Hf2) as (Hs2' & Hf2' & Hh2' & Hp2' & _).
  set (s3 := emit Main (SetActive false)
               (with_self (set_reading_thread_active false) (tick s2))).
  assert (Hs3 : sampling w s3) by exact Hs2'.
  assert (Hf3 : fair w s3) by exact Hf2'.
  (* sleep 0.1 *)
  destruct (after_tick Hs3 Hf3) as (Hs3' & Hf3' & Hh3' & Hp3' & Ha3').
  set (s4 := emit Main (Sleep (1 # 10)) (tick s3)).
  assert (Hs4 : sampling w s4) by exact Hs3'.
  assert (Hf4 : fair w s4) by exact Hf3'.
  assert (Ha4 : reading_thread_active (self s4) = false) by exact Ha3'.
  assert (Hh4 : history s4
                = history st ++ [Send ("OUTP 0" ++ nl)%string; Sleep (2 # 10);
                                 SetActive false; Sleep (1 # 10)]).
  { unfold s4. rewrite history_emit, Hh3'. unfold s3.
    rewrite history_emit.
    change (history (with_self (set_reading_thread_active false) (tick s2)))
      with (history (tick s2)).
    rewrite Hh2'. unfold s2. rewrite history_emit, Hh1', Hh1.
    now rewrite <- !app_assoc. }
  assert (Hp4 : patience (env s4) = patience (env st)).
  { change (patience (env s4)) with (patience (env (tick s3))).
    rewrite Hp3'.
    change (patience (env s3)) with (patience (env (tick s2))).
    rewrite Hp2'.
    change (patience (env s2)) with (patience (env (tick s1))).
    rewrite Hp1'.
    change (patience (env s1)) with (patience (env (tick st))).
    exact Hp0. }
  (* join *)
  assert (Hw : ps_thread (self s4) = w) by apply Hs4.
  rewrite Hw.
  destruct Hs4 as (Hh & Hdev & Ho & pc & Hpc & Hnc & Hnr & Hrest).
  assert (Hs4 : sampling w s4)
    by (unfold sampling; repeat split; auto; apply Hdev || eauto).
  unfold thread_join. rewrite Hpc.
  destruct (@join_returns w (patience (env s4)) s4 pc Hs4 Hf4 Ha4 Hpc)
    as (s5 & Ej & Hs5 & H5 & Hh5).
  { pose proof (togo_bound pc). lia. }
  assert (Ejoin : (match pc with
                   | T_created => Raise RuntimeError s4
                   | _ => blocking (joined w) s4
                   end : result V unit)
                  = Ok tt (emit Main (Join w) s5)).
  { unfold blocking. destruct pc; try exact Ej. congruence. }
  change (fun s : state V =>
            match thread_at w s with
            | Some pc0 =>
                if ended pc0 then Some (Ok tt (emit Main (Join w) s))
                else None
            | None => None
            end) with (joined (V:=V) w).
  rewrite Ejoin.
  (* save *)
  set (s6 := emit Main (Join w) s5).
  assert (Hs6 : sampling w s6) by exact Hs5.
  assert (H6 : thread_at w s6 = Some T_finished) by exact H5.
  destruct Hs5 as (_ & _ & _ & pc5 & Hpc5 & _ & _ & _ & _ & Hv5 & Hc5).
  rewrite H5 in Hpc5. injection Hpc5 as <-. simpl in Hv5, Hc5.
  destruct (@save_data_idle s6) as (s7 & Es & Hh7 & Hf7 & Hself & Hth).
  { eapply sampling_idle; eauto. }
  { rewrite !Nat.add_0_r in *.
    change (self s6) with (self s5). unfold rectangular, forallb.
    rewrite Hc5, Hv5, !Nat.eqb_refl. reflexivity. }
  exists s7. split; [exact Es|].
  rewrite savetxt_three in Hh7, Hf7.
  change (self s6) with (self s5) in *.
  unfold three_rows. rewrite Hself.
  split; [|split; [exact Hf7|split; [|split]]].
  - rewrite Hh7. unfold s6. rewrite history_emit, Hh5, Hh4.
    now rewrite <- !app_assoc.
  - unfold thread_at in *. now rewrite Hth.
  - lia.
  - lia.
Qed.

End Stop.

(* ================================================================== *)
(** * Further properties of the device session *)

Section SessionExtras.

Context {V : Type} {N : PyNum V}.

(** X8.  A value exactly equal to a bound its setter tests is rejected, since
    the test is strict: nothing is transmitted and the warning is logged,
    whatever the sampling threads do meanwhile. *)
Theorem set_param_rejects_bound (p : param) (v : V) (st : state V) :
  py_lt v v = false ->
  v = caps (self st) (tested_lower p) \/ v = caps (self st) (tested_upper p) ->
  exists st',
    set_param p v st = Ok tt st'
    /\ transmitted st' = transmitted st
    /\ warnings st' = warnings st ++ [complaint p].
Proof.
  intros Hirr Hb.
  destruct (set_param_tested p v st) as (st' & E & H).
  exists st'. split; [exact E|].
  assert (strictly_between (caps (self st) (tested_lower p)) v
            (caps (self st) (tested_upper p)) = false) as F.
  { unfold strictly_between. destruct Hb as [<-|<-]; rewrite Hirr;
      [reflexivity | apply andb_false_r]. }
  rewrite F in H. exact H.
Qed.

(** X6.  With no sampler running, each [measure_*] sends its query, reads one
    line and returns [float] of it, without testing any bound; a line that
    is not a number ends the call in ValueError. *)
Theorem measure_returns_reading (k : series) (st : state V) (raw : string)
        (rest : list line) :
  idle st ->
  next_reply st (measure_query k) = Decoded raw :: rest ->
  exists st',
    history st'
    = history st ++ [Send (measure_query k ++ nl)%string; Recv (Decoded raw)]
    /\ incoming (env st') = rest
    /\ caps (self st') = caps (self st)
    /\ measure k st
       = match py_float (strip raw) with
         | Some x => Ok x st'
         | None => Raise ValueError st'
         end.
Proof.
  intros Hidle Hnext.
  destruct (write_idle (measure_query k) Hidle) as (s1 & E1 & I1 & H1 & In1).
  rewrite Hnext in In1.
  destruct (read_idle I1 In1) as (s2 & I2 & H2 & In2 & E2).
  exists s2. split; [now rewrite H2, H1, <- app_assoc|].
  split; [exact In2|]. split.
  - assert (caps (self s1) = caps (self st)) as C1.
    { destruct (write_sends (measure_query k) st) as (s1' & E1' & _ & _ & C).
      rewrite E1 in E1'. injection E1' as <-. exact C. }
    rewrite <- C1.
    assert (always (fun a b => caps (self b) = caps (self a)) read) as Hr.
    { intro s. unfold read, blocking.
      generalize (patience (env s)). intro n. revert s.
      induction n as [|n IH]; intro s; simpl; unfold dev_readline;
        pose proof (tick_caps s) as Ht;
        destruct (incoming (env (tick s))) as [|[txt|] more];
        simpl; auto.
      rewrite IH. exact Ht. }
    specialize (Hr s1). rewrite E2 in Hr. exact Hr.
  - destruct k; unfold measure, measure_voltage, measure_current,
      measure_power, bind;
      simpl measure_query in E1; rewrite E1, E2, float_run; reflexivity.
Qed.

End SessionExtras.

(* ================================================================== *)
(** * What every call keeps *)

Section Frame.

Context {V : Type} {N : PyNum V}.

Lemma foreground_refl (st : state V) : foreground st st.
Proof.
  split; [reflexivity|]. exists []. rewrite app_nil_r.
  repeat split. intro k. simpl. now rewrite app_nil_r.
Qed.

Lemma foreground_trans (a b c : state V) :
  foreground a b -> foreground b c -> foreground a c.
Proof.
  intros (C1 & n1 & L1 & S1 & P1) (C2 & n2 & L2 & S2 & P2).
  split; [congruence|]. exists (n1 ++ n2). repeat split.
  - now rewrite L2, L1, app_assoc.
  - intro k. now rewrite S2, S1, appended_app, app_assoc.
  - rewrite events_of_app, forallb_app, P1, P2. reflexivity.
Qed.

Lemma tick_foreground (st : state V) : foreground st (tick st).
Proof.
  split; [apply tick_caps|].
  destruct (tick_grows st) as (new & L & M & S).
  exists new. repeat split; auto. now rewrite M.
Qed.

(** A plain event of the caller, with whatever else changes neither the
    bounds nor the series. *)
Lemma emit_foreground (e : event V) (st st' : state V) :
  plain e = true ->
  caps (self st') = caps (self st) ->
  log (env st') = log (env st) ++ [(Main, e)] ->
  (forall k, series_of k (self st') = series_of k (self st)) ->
  foreground st st'.
Proof.
  intros Hp Hc Hl Hs. split; [exact Hc|].
  exists [(Main, e)]. repeat split; auto.
  - intro k. rewrite Hs. destruct e; simpl in *; try discriminate;
      now rewrite app_nil_r.
  - unfold events_of; simpl. now rewrite Hp.
Qed.

Lemma silent_foreground (st st' : state V) :
  caps (self st') = caps (self st) ->
  log (env st') = log (env st) ->
  (forall k, series_of k (self st') = series_of k (self st)) ->
  foreground st st'.
Proof.
  intros Hc Hl Hs. split; [exact Hc|].
  exists []. rewrite app_nil_r. repeat split; auto.
  intro k. rewrite Hs. simpl. now rewrite app_nil_r.
Qed.

Lemma always_ret {A : Type} (a : A) : always foreground (ret (V:=V) a).
Proof. intro st. apply foreground_refl. Qed.

Lemma always_raise {A : Type} (e : exn) :
  always foreground (raise (V:=V) (A:=A) e).
Proof. intro st. apply foreground_refl. Qed.

Lemma always_bind {A B : Type} (m : M V A) (k : A -> M V B) :
  always foreground m -> (forall a, always foreground (k a)) ->
  always foreground (bind m k).
Proof.
  intros Hm Hk st. unfold bind. specialize (Hm st).
  destruct (m st) as [a s|e s|s]; simpl in *; auto.
  eapply foreground_trans; [exact Hm | apply Hk].
Qed.

Lemma always_atomic {A : Type} (f : state V -> result V A) :
  (forall st, foreground st (final (f st))) -> always foreground (atomic f).
Proof.
  intros Hf st. unfold atomic.
  eapply foreground_trans; [apply tick_foreground | apply Hf].
Qed.

Lemma always_blocking {A : Type}
      (attempt : state V -> option (result V A)) :
  (forall s r, attempt s = Some r -> foreground s (final r)) ->
  always foreground (blocking attempt).
Proof.
  intros Ha st. unfold blocking. generalize (patience (env st)).
  intro n. revert st. induction n as [|n IH]; intro st; simpl;
    destruct (attempt (tick st)) as [r|] eqn:E.
  - eapply foreground_trans; [apply tick_foreground | now apply Ha].
  - apply tick_foreground.
  - eapply foreground_trans; [apply tick_foreground | now apply Ha].
  - eapply foreground_trans; [apply tick_foreground | apply IH].
Qed.

Lemma always_look {A : Type} (f : state V -> A) :
  always foreground (fun st => Ok (f st) st).
Proof. intro st. apply foreground_refl. Qed.

Lemma always_write (s : string) : always foreground (write s).
Proof.
  apply always_atomic. intro st. simpl.
  eapply emit_foreground with (e := Send (s ++ nl)%string);
    try reflexivity; try (intros []; reflexivity).
Qed.

Lemma always_emit (e : event V) :
  plain e = true ->
  always foreground (atomic (fun st => Ok tt (emit Main e st))).
Proof.
  intro Hp. apply always_atomic. intro st. simpl.
  eapply emit_foreground with (e := e); auto; try (intros []; reflexivity).
Qed.

Lemma always_read : always foreground read.
Proof.
  apply always_blocking. intros s r. unfold dev_readline.
  destruct (incoming (env s)) as [|[txt|] rest]; try discriminate;
    intro E; injection E as <-; simpl;
    (eapply emit_foreground; [| | reflexivity |]; try reflexivity;
     intros []; reflexivity).
Qed.

Lemma always_float (s : string) : always foreground (float s).
Proof.
  unfold float. destruct (py_float s); [apply always_ret | apply always_raise].
Qed.

Lemma always_set_active (b : bool) : always foreground (set_active b).
Proof.
  apply always_atomic. intro st. simpl.
  eapply emit_foreground with (e := SetActive b); try reflexivity;
  try (intros []; reflexivity).
Qed.

Lemma always_thread_start (t : nat) : always foreground (thread_start t).
Proof.
  apply always_atomic. intro st.
  destruct (thread_at t st) as [[]|]; simpl; try apply foreground_refl.
  eapply emit_foreground with (e := Start t); try reflexivity;
  try (intros []; reflexivity).
Qed.

Lemma always_thread_join (t : nat) : always foreground (thread_join t).
Proof.
  intro st. unfold thread_join.
  destruct (thread_at t st) as [pc|]; [|apply foreground_refl].
  assert (always foreground (blocking (joined (V:=V) t))) as Hb.
  { apply always_blocking. intros s r. unfold joined.
    destruct (thread_at t s) as [pc0|]; try discriminate.
    destruct (ended pc0); try discriminate.
    intro E; injection E as <-. simpl.
    eapply emit_foreground with (e := Join t); try reflexivity;
    try (intros []; reflexivity). }
  destruct pc; try apply Hb. apply foreground_refl.
Qed.

Lemma always_Thread : always foreground (Thread (V:=V)).
Proof.
  intro st. simpl. apply silent_foreground; try reflexivity;
  try (intros []; reflexivity).
Qed.

Lemma always_set_param (p : param) (v : V) :
  always foreground (set_param p v).
Proof.
  intro st. rewrite set_param_unfold.
  destruct (strictly_between _ _ _).
  - apply always_write.
  - unfold warning. apply always_emit. reflexivity.
Qed.

Lemma always_get_param (p : param) (a : pyarg V) :
  always foreground (get_param p a).
Proof.
  rewrite get_param_unfold.
  apply always_bind; [destruct (asked p a); [apply always_write
                                            | apply always_ret]|].
  intros _. apply always_bind; [apply always_read|].
  intro s. apply always_float.
Qed.

Ltac frame :=
  repeat first
    [ apply always_write | apply always_read | apply always_float
    | apply always_ret | apply always_look | apply always_set_active
    | apply always_thread_start | apply always_thread_join
    | apply always_Thread
    | apply (always_get_param Voltage)
    | apply (always_get_param Current)
    | apply (always_get_param InternalResistance)
    | apply (always_get_param OverCurrentProtection)
    | apply (always_get_param OverVoltageProtection)
    | apply (always_get_param RisingCurrentSlewRate)
    | apply (always_get_param FallingCurrentSlewRate)
    | apply (always_get_param RisingVoltageSlewRate)
    | apply (always_get_param FallingVoltageSlewRate)
    | (apply always_emit; reflexivity)
    | (apply always_bind; [|intro]) ].

Lemma always_measure (k : series) : always foreground (measure k).
Proof.
  destruct k; unfold measure, measure_voltage, measure_current,
    measure_power; frame.
Qed.

Lemma always_set_voltage_current (v i : V) :
  always foreground (set_voltage_current v i).
Proof.
  unfold set_voltage_current, attribute. frame.
  match goal with |- always _ (if ?c then _ else _) => destruct c end;
    [frame | unfold warning; frame].
Qed.

Lemma always_get_voltage_current :
  always foreground (get_voltage_current (V:=V)).
Proof.
  unfold get_voltage_current. frame.
  destruct (nth_error (split "," a0) 0); frame.
  destruct (nth_error (split "," a0) 1); frame.
Qed.

Lemma always_set_power_supply_mode (m : string) :
  always foreground (set_power_supply_mode m).
Proof.
  unfold set_power_supply_mode.
  match goal with |- always _ (if ?c then _ else _) => destruct c end;
    [frame | unfold warning; frame].
Qed.

Lemma always_get_power_supply_mode :
  always foreground (get_power_supply_mode (V:=V)).
Proof. unfold get_power_supply_mode. frame. Qed.

Lemma always_get_power_supply_info :
  always foreground (get_power_supply_info (V:=V)).
Proof.
  unfold get_power_supply_info. frame.
Qed.

Lemma always_print (msg : string) : always foreground (print msg).
Proof. unfold print. frame. Qed.

Lemma always_print_all_info : always foreground (print_all_info (V:=V)).
Proof.
  unfold print_all_info, attribute.
  repeat first [ apply always_print | apply always_get_power_supply_mode
               | progress frame ].
Qed.

Lemma always_start_thread :
  always foreground (start_thread_power_supply_data (V:=V)).
Proof.
  unfold start_thread_power_supply_data. frame.
Qed.

Lemma always_stop_thread :
  always foreground (stop_thread_power_supply_data (V:=V)).
Proof. unfold stop_thread_power_supply_data, sleep. frame. Qed.

Lemma always_silent {A : Type} (f : state V -> A) :
  always foreground (atomic (fun st => Ok (f st) st)).
Proof. apply always_atomic. intro st. apply foreground_refl. Qed.

Lemma always_open_w (path : string) : always foreground (open_w path).
Proof.
  apply always_atomic. intro st. simpl.
  eapply emit_foreground with (e := OpenW path); try reflexivity;
    try (intros []; reflexivity).
Qed.

Lemma always_savetxt (path : string) (rows : list (list V))
      (delimiter : string) :
  always foreground (savetxt path rows delimiter).
Proof.
  apply always_atomic. intro st.
  destruct (rectangular rows); simpl; [|apply foreground_refl].
  eapply emit_foreground; [| | reflexivity |]; try reflexivity;
    try (intros []; reflexivity).
Qed.

Lemma always_save_data : always foreground (save_data (V:=V)).
Proof.
  unfold save_data, np_array.
  repeat first [ apply always_silent | apply always_open_w
               | apply always_savetxt | (apply always_bind; [|intro]) ].
Qed.

(** Every call other than the constructor relates the state it starts in
    and the state it leaves by [foreground]. *)
Lemma perform_foreground (c : call (V:=V)) (st : state V) :
  foreground st (perform c st).
Proof.
  destruct c as [p v|p a|v i| |k|m| | | | | | | | | | | ];
    try destruct k; cbv [perform].
  - exact (always_set_param p v st).
  - exact (always_get_param p a st).
  - exact (always_set_voltage_current v i st).
  - exact (always_get_voltage_current st).
  - exact (always_measure SVoltage st).
  - exact (always_measure SCurrent st).
  - exact (always_measure SPower st).
  - exact (always_set_power_supply_mode m st).
  - exact (always_get_power_supply_mode st).
  - exact (always_write "OUTP 1" st).
  - exact (always_write "OUTP 0" st).
  - exact (always_write "ABOR" st).
  - exact (always_get_power_supply_info st).
  - exact (always_print_all_info st).
  - exact (always_start_thread st).
  - exact (always_stop_thread st).
  - exact (always_save_data st).
  - revert st. change (always foreground (start_power_supply (V:=V))).
    unfold start_power_supply.
    apply always_bind; [apply always_write | intro; apply always_start_thread].
  - revert st. change (always foreground (stop_power_supply (V:=V))).
    unfold stop_power_supply, sleep.
    apply always_bind; [apply always_write | intro].
    apply always_bind; [apply always_emit; reflexivity | intro].
    apply always_bind; [apply always_stop_thread | intro].
    apply always_save_data.
Qed.

End Frame.

Section FrameExtras.

Context {V : Type} {N : PyNum V}.

(** X9.  The cached capability bounds are read-only after construction: no
    call on the object, however it ends and whatever the sampling threads
    do meanwhile, changes any of them. *)
Theorem api_keeps_bounds (c : call (V:=V)) (st : state V) (a : attr) :
  caps (self (perform c st)) a = caps (self st) a.
Proof.
  destruct (perform_foreground c st) as (Hc & _). now rewrite Hc.
Qed.

(** X10.  The caller's thread never takes or releases the lock and never
    appends to a series: the events any call adds to the caller's history
    are all plain.  In particular [save_data] reads the series without the
    lock. *)
Theorem api_never_locks (c : call (V:=V)) (st : state V) :
  exists new,
    history (perform c st) = history st ++ new
    /\ forallb plain new = true.
Proof.
  destruct (perform_foreground c st) as (_ & new & Hl & _ & Hp).
  exists (events_of Main new). split; [|exact Hp].
  unfold history. now rewrite Hl, events_of_app.
Qed.

End FrameExtras.

(* ================================================================== *)
(** * Text *)

Section TextExtras.

Lemma rstrip_keeps_head (c : ascii) (r : string) :
  is_space c = false -> rstrip (String c r) = String c (rstrip r).
Proof.
  intro H. simpl. rewrite H. now destruct (rstrip r).
Qed.

Lemma rstrip_idempotent (s : string) : rstrip (rstrip s) = rstrip s.
Proof.
  induction s as [|c r IH]; [reflexivity|].
  simpl. destruct (rstrip r) as [|c' r'] eqn:E.
  - destruct (is_space c) eqn:Hc; [reflexivity|].
    simpl. now rewrite Hc.
  - simpl in *. rewrite IH. reflexivity.
Qed.

Lemma lstrip_head (s : string) :
  lstrip s = EmptyString
  \/ exists c r, lstrip s = String c r /\ is_space c = false.
Proof.
  induction s as [|c r IH]; [now left|].
  simpl. destruct (is_space c) eqn:Hc; [exact IH|].
  right. now exists c, r.
Qed.

Lemma strip_trimmed (s : string) : trimmed (strip s).
Proof.
  unfold trimmed, strip. split; [|apply rstrip_idempotent].
  destruct (lstrip_head s) as [->|(c & r & -> & Hc)]; [reflexivity|].
  rewrite (@rstrip_keeps_head c r Hc). simpl. now rewrite Hc.
Qed.

Lemma split_no_comma (s : string) :
  no_comma s = true -> split "," s = [s].
Proof.
  induction s as [|c r IH]; [reflexivity|].
  simpl. destruct (Ascii.eqb c ","); simpl; [discriminate|].
  intro H. now rewrite (IH H).
Qed.

Lemma split_at_comma (a b : string) :
  no_comma a = true ->
  split "," (a ++ "," ++ b)%string = a :: split "," b.
Proof.
  induction a as [|c r IH]; [reflexivity|].
  simpl. destruct (Ascii.eqb c ",") eqn:E; simpl; [discriminate|].
  intro H. specialize (IH H). simpl in IH. now rewrite IH.
Qed.

Lemma split_not_empty (s : string) : split "," s <> [].
Proof.
  destruct s as [|c r]; simpl; [discriminate|].
  destruct (Ascii.eqb c ","); [discriminate|].
  destruct (split "," r); discriminate.
Qed.

End TextExtras.

Section ReplyExtras.

Context {V : Type} {N : PyNum V}.

(** X3.  Whatever [read] returns has no white space at either end: the line
    terminator and any padding are stripped, under every schedule. *)
Theorem read_returns_trimmed (st st' : state V) (s : string) :
  read st = Ok s st' -> trimmed s.
Proof.
  unfold read, blocking. generalize (patience (env st)). intro n.
  revert st. induction n as [|n IH]; intro st; simpl; unfold dev_readline;
    destruct (incoming (env (tick st))) as [|[txt|] rest];
    try discriminate; try (intro E; injection E as <- _; apply strip_trimmed).
  apply IH.
Qed.

(** X4.  With no sampler running, [get_voltage_current] sends [APPL?] and, when
    the stripped reply is two comma-free fields joined by a comma and both
    are numbers, returns the pair (voltage first). *)
Theorem get_voltage_current_pair (st : state V) (raw a b : string)
        (rest : list line) (v i : V) :
  idle st ->
  next_reply st "APPL?" = Decoded raw :: rest ->
  strip raw = (a ++ "," ++ b)%string ->
  no_comma a = true -> no_comma b = true ->
  py_float a = Some v -> py_float b = Some i ->
  exists st',
    get_voltage_current st = Ok (Item (v, i)) st'
    /\ history st'
       = history st ++ [Send ("APPL?" ++ nl)%string; Recv (Decoded raw)].
Proof.
  intros Hidle Hnext Hs Ha Hb Hv Hi.
  unfold get_voltage_current, bind.
  destruct (write_idle "APPL?" Hidle) as (s1 & E1 & I1 & H1 & In1).
  rewrite E1. rewrite Hnext in In1.
  destruct (read_idle I1 In1) as (s2 & I2 & H2 & In2 & E2).
  rewrite E2, Hs, (@split_at_comma a b Ha), (@split_no_comma b Hb).
  cbn [nth_error]. rewrite float_run, Hv. cbn [nth_error].
  rewrite float_run, Hi.
  exists s2. split; [reflexivity|]. now rewrite H2, H1, <- app_assoc.
Qed.

(** X5.  With no sampler running, a reply to [APPL?] that is one number with no
    comma makes [get_voltage_current] fail with IndexError after the first
    field has been parsed; a reply whose first field is not a number makes
    it fail with ValueError. *)
Theorem get_voltage_current_short (st : state V) (raw : string)
        (rest : list line) :
  idle st ->
  next_reply st "APPL?" = Decoded raw :: rest ->
  exists st',
    (no_comma (strip raw) = true ->
     forall v, py_float (strip raw) = Some v ->
       get_voltage_current st = Ok IndexError st')
    /\ (forall field more,
          split "," (strip raw) = field :: more ->
          py_float field = None ->
          get_voltage_current st = Raise ValueError st').
Proof.
  intros Hidle Hnext.
  destruct (write_idle "APPL?" Hidle) as (s1 & E1 & I1 & H1 & In1).
  rewrite Hnext in In1.
  destruct (read_idle I1 In1) as (s2 & I2 & H2 & In2 & E2).
  exists s2. split.
  - intros Hc v Hv. unfold get_voltage_current, bind.
    rewrite E1, E2, (@split_no_comma _ Hc). cbn [nth_error].
    rewrite float_run, Hv. reflexivity.
  - intros field more Hsp Hf. unfold get_voltage_current, bind.
    rewrite E1, E2, Hsp. cbn [nth_error].
    now rewrite float_run, Hf.
Qed.

End ReplyExtras.

(* ================================================================== *)
(** * Further properties of the sampler *)

Section SamplerExtras.

Context {V : Type} {N : PyNum V}.

(** X16.  [save_data] with no sampler running and three series of equal length
    replaces whatever [PS_data.csv] held by the three rows, touches no
    other file and leaves the object as it was. *)
Theorem save_data_overwrites (st : state V) :
  idle st ->
  List.length (data_current (self st)) = List.length (data_voltage (self st)) ->
  List.length (data_power (self st)) = List.length (data_voltage (self st)) ->
  exists st',
    save_data st = Ok tt st'
    /\ files (env st') "PS_data.csv"%string = Some (three_rows (self st))
    /\ (forall path, path <> "PS_data.csv"%string ->
          files (env st') path = files (env st) path)
    /\ self st' = self st.
Proof.
  intros Hi Hc Hp.
  unfold save_data, bind, np_array, open_w, savetxt.
  repeat (rewrite atomic_idle by exact Hi;
          cbn -[tick atomic rectangular savetxt_text String.eqb]).
  assert (rectangular [data_voltage (self st); data_current (self st);
                       data_power (self st)] = true) as R.
  { unfold rectangular, forallb. now rewrite Hc, Hp, !Nat.eqb_refl. }
  rewrite R. eexists. split; [reflexivity|].
  cbn -[savetxt_text String.eqb]. rewrite String.eqb_refl.
  split; [now rewrite savetxt_three|]. split; [|reflexivity].
  intros path Hne. apply String.eqb_neq in Hne. now rewrite Hne.
Qed.

(** X17.  [save_data] with no sampler running and series of unequal length
    (a pass that died half-way leaves them so) raises ValueError after it
    has opened the file: [PS_data.csv] is left empty. *)
Theorem save_data_ragged (st : state V) :
  idle st ->
  List.length (data_current (self st)) <> List.length (data_voltage (self st))
  \/ List.length (data_power (self st))
     <> List.length (data_voltage (self st)) ->
  exists st',
    save_data st = Raise ValueError st'
    /\ files (env st') "PS_data.csv"%string = Some EmptyString
    /\ history st' = history st ++ [OpenW "PS_data.csv"]
    /\ self st' = self st.
Proof.
  intros Hi Hne.
  unfold save_data, bind, np_array, open_w, savetxt.
  repeat (rewrite atomic_idle by exact Hi;
          cbn -[tick atomic rectangular savetxt_text String.eqb]).
  assert (rectangular [data_voltage (self st); data_current (self st);
                       data_power (self st)] = false) as R.
  { unfold rectangular, forallb.
    destruct Hne as [H|H]; apply Nat.eqb_neq in H; rewrite H;
      [reflexivity | apply andb_false_iff; right; reflexivity]. }
  rewrite R. eexists. split; [reflexivity|].
  cbn -[String.eqb history]. rewrite String.eqb_refl.
  split; [reflexivity|]. split; [|reflexivity].
  unfold history. cbn -[events_of]. rewrite events_of_app. reflexivity.
Qed.

Lemma history_dev_write (bytes : string) (st : state V) :
  history (dev_write Main bytes st) = history st ++ [Send bytes].
Proof. unfold history, dev_write; simpl. now rewrite events_of_app. Qed.

Lemma tick_handle (st : state V) :
  ps_thread (self (tick st)) = ps_thread (self st).
Proof. apply tick_unchanged. Qed.

Lemma tick_files (st : state V) : files (env (tick st)) = files (env st).
Proof. apply tick_unchanged. Qed.

(** X15.  Stopping a sampler that was never started: [stop_power_supply]
    switches the output off, sleeps, lowers the flag, sleeps, and then
    [join] on the unstarted thread raises RuntimeError; [save_data] is not
    reached and no file is touched.  This holds under every schedule. *)
Theorem stop_before_start_raises (st : state V) :
  thread_at (ps_thread (self st)) st = Some T_created ->
  exists st',
    stop_power_supply st = Raise RuntimeError st'
    /\ history st'
       = history st
         ++ [Send ("OUTP 0" ++ nl)%string; Sleep (2 # 10);
             SetActive false; Sleep (1 # 10)]
    /\ files (env st') = files (env st)
    /\ reading_thread_active (self st') = false.
Proof.
  intro H.
  unfold stop_power_supply, stop_thread_power_supply_data,
    power_supply_off, write, sleep, set_active, bind, atomic.
  set (t := ps_thread (self st)) in *.
  set (s1 := dev_write Main ("OUTP 0" ++ nl) (tick st)).
  set (s2 := emit Main (Sleep (2 # 10)) (tick s1)).
  set (s3 := emit Main (SetActive false)
               (with_self (set_reading_thread_active false) (tick s2))).
  set (s4 := emit Main (Sleep (1 # 10)) (tick s3)).
  assert (T1 : thread_at t s1 = Some T_created)
    by exact (@tick_halted _ _ t _ st H eq_refl).
  assert (T2 : thread_at t s2 = Some T_created)
    by exact (@tick_halted _ _ t _ s1 T1 eq_refl).
  assert (T3 : thread_at t s3 = Some T_created)
    by exact (@tick_halted _ _ t _ s2 T2 eq_refl).
  assert (T4 : thread_at t s4 = Some T_created)
    by exact (@tick_halted _ _ t _ s3 T3 eq_refl).
  assert (P4 : ps_thread (self s4) = t).
  { change (ps_thread (self s4)) with (ps_thread (self (tick s3))).
    rewrite tick_handle.
    change (ps_thread (self s3)) with (ps_thread (self (tick s2))).
    rewrite tick_handle.
    change (ps_thread (self s2)) with (ps_thread (self (tick s1))).
    rewrite tick_handle.
    change (ps_thread (self s1)) with (ps_thread (self (tick st))).
    apply tick_handle. }
  rewrite P4. unfold thread_join. rewrite T4.
  exists s4. split; [reflexivity|]. split; [|split].
  - unfold s4. rewrite history_emit, tick_history. unfold s3.
    rewrite history_emit.
    change (history (with_self (set_reading_thread_active false) (tick s2)))
      with (history (tick s2)).
    rewrite tick_history. unfold s2. rewrite history_emit, tick_history.
    unfold s1.
    rewrite history_dev_write, tick_history. now rewrite <- !app_assoc.
  - change (files (env s4)) with (files (env (tick s3))).
    rewrite tick_files.
    change (files (env s3)) with (files (env (tick s2))).
    rewrite tick_files.
    change (files (env s2)) with (files (env (tick s1))).
    rewrite tick_files.
    change (files (env s1)) with (files (env (tick st))).
    apply tick_files.
  - change (reading_thread_active (self s4))
      with (reading_thread_active (self (tick s3))).
    now rewrite (same_active (tick_unchanged s3)).
Qed.

(** What [start_thread_power_supply_data] does, under every schedule. *)
Lemma start_thread_runs (st : state V) :
  exists st',
    start_thread_power_supply_data st = Ok tt st'
    /\ history st'
       = history st
         ++ [SetActive true; Start (List.length (threads (env st)))]
    /\ ps_thread (self st') = List.length (threads (env st))
    /\ thread_at (List.length (threads (env st))) st' = Some T_loop
    /\ reading_thread_active (self st') = true
    /\ List.length (threads (env st')) = S (List.length (threads (env st))).
Proof.
  unfold start_thread_power_supply_data, bind, set_active, Thread,
    thread_start, atomic.
  set (s1 := emit Main (SetActive true)
               (with_self (set_reading_thread_active true) (tick st))).
  set (t := List.length (threads (env s1))).
  set (s2 := with_self (set_ps_thread t)
               (with_env (fun w => set_threads (threads w ++ [T_created]) w)
                  s1)).
  assert (Et : t = List.length (threads (env st))).
  { unfold t, s1; simpl. apply tick_count. }
  assert (Ht : thread_at t s2 = Some T_created).
  { unfold thread_at, s2, t; simpl.
    rewrite nth_error_app2 by lia. now rewrite Nat.sub_diag. }
  change (ps_thread (self s2)) with t.
  rewrite (@tick_halted _ _ t _ s2 Ht eq_refl).
  eexists. split; [reflexivity|]. rewrite <- Et.
  split; [|split; [|split; [|split]]].
  - rewrite history_emit.
    change (history (goto t T_loop (tick s2))) with (history (tick s2)).
    rewrite tick_history.
    change (history s2) with (history s1). unfold s1.
    rewrite history_emit.
    change (history (with_self (set_reading_thread_active true) (tick st)))
      with (history (tick st)).
    rewrite tick_history. now rewrite <- app_assoc.
  - simpl. now rewrite tick_handle.
  - simpl. eapply thread_at_goto_eq.
    apply (@tick_halted _ _ t _ s2 Ht eq_refl).
  - simpl. now rewrite (same_active (tick_unchanged s2)).
  - simpl. rewrite length_update_nth, tick_count. unfold s2; simpl.
    rewrite length_app. simpl. unfold t, s1. simpl. lia.
Qed.

(** X11.  [start_power_supply] switches the output on first and only then
    raises the flag and starts a new sampling thread, which it leaves at
    its loop test; this holds under every schedule. *)
Theorem start_power_supply_order (st : state V) :
  exists st' t,
    start_power_supply st = Ok tt st'
    /\ history st'
       = history st ++ [Send ("OUTP 1" ++ nl)%string; SetActive true; Start t]
    /\ ps_thread (self st') = t
    /\ thread_at t st' = Some T_loop
    /\ reading_thread_active (self st') = true.
Proof.
  unfold start_power_supply, bind, power_supply_on.
  destruct (write_sends "OUTP 1" st) as (s1 & E1 & _).
  rewrite E1.
  assert (H1 : history s1 = history st ++ [Send ("OUTP 1" ++ nl)%string]).
  { unfold write, atomic in E1. injection E1 as <-.
    now rewrite history_dev_write, tick_history. }
  destruct (start_thread_runs s1) as (s2 & E2 & H2 & P2 & T2 & A2 & _).
  exists s2, (List.length (threads (env s1))).
  split; [exact E2|]. split; [|auto].
  rewrite H2, H1. now rewrite <- app_assoc.
Qed.

End SamplerExtras.

Section LoopExtras.

Context {V : Type} {N : PyNum V}.

(** Once a thread has died holding the lock, the lock is never free
    again and a thread waiting to acquire it waits for ever. *)
Lemma stranded_step (t u : nat) (e : exn) (st : state V) :
  thread_at t st = Some (T_raised e) ->
  lock (env st) = Some (t, 1) ->
  thread_at t (_read_power_supply_data u st) = Some (T_raised e)
  /\ lock (env (_read_power_supply_data u st)) = Some (t, 1)
  /\ forall x, thread_at x st = Some T_acquire ->
       thread_at x (_read_power_supply_data u st) = Some T_acquire.
Proof.
  intros Ht Hl. destruct (Nat.eq_dec u t) as [->|Hne].
  - rewrite (@step_halted _ _ t _ st Ht eq_refl). auto.
  - split; [now rewrite step_other|].
    assert (Hneq : Nat.eqb t u = false) by now apply Nat.eqb_neq.
    split.
    + revert Hl. step_cases u st; intro Hl'; try exact Hl';
        try congruence;
        injection Hl' as -> ->; rewrite Hneq in Heq; discriminate.
    + intros x Hx. destruct (Nat.eq_dec u x) as [->|Hux];
        [|now rewrite step_other].
      unfold _read_power_supply_data. rewrite Hx, Hl, Hneq. exact Hx.
Qed.

(** X13.  A reply that is not a number, read inside a pass, kills the sampling
    thread with ValueError while it holds the lock.  Nothing releases the
    lock afterwards: under every later schedule it stays held by the dead
    thread, and any thread waiting at [lock.acquire()] stays there. *)
Theorem garbled_reply_strands_lock (t : nat) (pc : wpc V) (st : state V)
        (raw : string) (rest : list line) :
  thread_at t st = Some pc ->
  awaiting pc = true ->
  lock (env st) = Some (t, 1) ->
  incoming (env st) = Decoded raw :: rest ->
  py_float (strip raw) = None ->
  let st' := _read_power_supply_data t st in
  thread_at t st' = Some (T_raised ValueError)
  /\ (forall k, series_of k (self st') = series_of k (self st))
  /\ forall b,
       lock (env (run_burst b st')) = Some (t, 1)
       /\ forall u, thread_at u st' = Some T_acquire ->
            thread_at u (run_burst b st') = Some T_acquire.
Proof.
  intros H Ha Hl Hin Hf st'.
  assert (Ht : thread_at t st' = Some (T_raised ValueError)
               /\ lock (env st') = Some (t, 1)
               /\ forall k, series_of k (self st') = series_of k (self st)).
  { unfold st', _read_power_supply_data, thread_read_float, dev_readline.
    rewrite H. destruct pc; try discriminate; rewrite Hin, Hf;
      (split; [unfold thread_at, goto in *; simpl;
               eapply nth_error_update_nth_eq; exact H|]);
      (split; [exact Hl|]); intros []; reflexivity. }
  destruct Ht as (Ht & Hl' & Hs). split; [exact Ht|]. split; [exact Hs|].
  clear Hs H Ha Hl Hin Hf. clearbody st'.
  intro b. revert st' Ht Hl'.
  induction b as [|u b IH]; intros st' Ht Hl'; simpl.
  - auto.
  - destruct (@stranded_step t u _ st' Ht Hl') as (Ht1 & Hl1 & Hx1).
    destruct (IH _ Ht1 Hl1) as (Hl2 & Hx2).
    split; [exact Hl2|]. intros x Hx. apply Hx2, Hx1, Hx.
Qed.

(** With the flag down, a step of the sampling thread also accounts for
    the appends of the pass in progress. *)
Lemma step_winds_down (w : nat) (pc : wpc V) (st : state V) :
  sampling w st ->
  reading_thread_active (self st) = false ->
  thread_at w st = Some pc ->
  exists pc',
    thread_at w (_read_power_supply_data w st) = Some pc'
    /\ togo pc' = Nat.pred (togo pc)
    /\ forall k,
         List.length (series_of k (self (_read_power_supply_data w st)))
         + owed k pc'
         = List.length (series_of k (self st)) + owed k pc.
Proof.
  intros (Hh & Hdev & Ho & pc0 & Hpc & Hnc & Hnr & Hlk & Hin & Hv & Hc)
         Hact H.
  rewrite H in Hpc. injection Hpc as <-.
  revert Hlk Hin Hnc Hnr.
  step_at H pc; intros Hlk' Hin' Hnc Hnr;
    try discriminate; try congruence;
    try (destruct Hin' as (raw' & x' & E' & F');
         first [ discriminate E'
               | injection E' as -> ->
               | injection E' as ->
               | idtac ];
         try congruence);
    try (eexists; split;
         [first [ unfold thread_at, goto in *; simpl;
                  eapply nth_error_update_nth_eq; exact H
                | exact H ]
         | split; [reflexivity|]; intros []; simpl;
           rewrite ?length_app; simpl; lia ]).
  injection Hlk' as -> ->. rewrite Nat.eqb_refl in Heq. discriminate.
Qed.

Lemma winds_down (w n : nat) :
  forall (st : state V) (pc : wpc V),
    sampling w st ->
    reading_thread_active (self st) = false ->
    thread_at w st = Some pc ->
    togo pc <= n ->
    thread_at w (run_burst (repeat w n) st) = Some T_finished
    /\ forall k,
         List.length (series_of k (self (run_burst (repeat w n) st)))
         = List.length (series_of k (self st)) + owed k pc.
Proof.
  induction n as [|n IH]; intros st pc Hs Ha H Hle.
  - assert (pc = T_finished) as -> by (eapply sampling_done; eauto; lia).
    simpl. split; [exact H|]. intro k. destruct k; simpl; lia.
  - rewrite solo_succ.
    destruct (step_winds_down Hs Ha H) as (pc' & H' & Ht & Hlen).
    destruct (IH _ pc' (step_sampling Hs)) as (Hf & Hl); auto.
    + now rewrite (same_active (step_unchanged w st)).
    + lia.
    + split; [exact Hf|]. intro k. rewrite Hl. specialize (Hlen k). lia.
Qed.

(** X14.  Cancellation is bounded: once the flag is down, thirteen steps of the
    sampling thread are enough for it to leave its loop, wherever in the
    pass it was, and on the way each series receives exactly the appends
    that pass still owed, so at most one more sample each. *)
Theorem flag_down_finishes (w : nat) (pc : wpc V) (st : state V) :
  sampling w st ->
  reading_thread_active (self st) = false ->
  thread_at w st = Some pc ->
  let st' := run_burst (repeat w 13) st in
  thread_at w st' = Some T_finished
  /\ forall k,
       List.length (series_of k (self st'))
       = List.length (series_of k (self st)) + owed k pc
       /\ owed k pc <= 1.
Proof.
  intros Hs Ha H st'.
  destruct (@winds_down w 13 st pc Hs Ha H (togo_bound pc)) as (Hf & Hl).
  split; [exact Hf|]. intro k. split; [apply Hl|].
  destruct pc, k; simpl; lia.
Qed.

End LoopExtras.

Section PassExtras.

Context {V : Type} {N : PyNum V}.

(** While the flag is up and the session is in shape, nothing stops the
    sampling thread: each of its steps is the next step of a pass. *)
Lemma step_passes (w : nat) (pc : wpc V) (st : state V) :
  sampling w st ->
  reading_thread_active (self st) = true ->
  thread_at w st = Some pc ->
  halted pc = false ->
  exists pc' evs,
    thread_at w (_read_power_supply_data w st) = Some pc'
    /\ pass_step pc evs pc'
    /\ events_of (Worker w) (log (env (_read_power_supply_data w st)))
       = events_of (Worker w) (log (env st)) ++ evs
    /\ forall k,
         series_of k (self (_read_power_supply_data w st))
         = series_of k (self st) ++ appends k evs.
Proof.
  intros (Hh & Hdev & Ho & pc0 & Hpc & Hnc & Hnr & Hlk & Hin & Hv & Hc)
         Hact H Hrun.
  rewrite H in Hpc. injection Hpc as <-.
  revert Hlk Hin Hnc Hnr Hrun.
  step_at H pc; intros Hlk' Hin' Hnc Hnr Hrun;
    try discriminate; try congruence;
    try (destruct Hin' as (raw' & x' & E' & F');
         first [ discriminate E'
               | injection E' as -> ->
               | injection E' as ->
               | idtac ];
         try congruence);
    try (eexists; eexists; split;
         [ unfold thread_at, goto in *; simpl;
           eapply nth_error_update_nth_eq; exact H
         | split; [econstructor; eassumption|];
           split; [ rewrite ?events_of_app, ?events_of_own;
                    rewrite ?app_nil_r; reflexivity
                  | intros []; simpl; rewrite ?app_nil_r; reflexivity ] ]).
  injection Hlk' as -> ->. rewrite Nat.eqb_refl in Heq. discriminate.
Qed.

Lemma pass_step_running (pc pc' : wpc V) (evs : list (event V)) :
  pass_step pc evs pc' -> halted pc' = false.
Proof. intros []; reflexivity. Qed.

Lemma appends_app (k : series) (a b : list (event V)) :
  appends k (a ++ b) = appends k a ++ appends k b.
Proof.
  induction a as [|e a IH]; simpl; auto.
  destruct e; simpl; auto. destruct k, k0; simpl; now rewrite ?IH.
Qed.

Lemma steps_pass (w n : nat) :
  forall (st : state V) (pc : wpc V),
    sampling w st ->
    reading_thread_active (self st) = true ->
    thread_at w st = Some pc ->
    halted pc = false ->
    exists pc' evs,
      thread_at w (run_burst (repeat w n) st) = Some pc'
      /\ pass_run n pc evs pc'
      /\ events_of (Worker w) (log (env (run_burst (repeat w n) st)))
         = events_of (Worker w) (log (env st)) ++ evs
      /\ (forall k,
            series_of k (self (run_burst (repeat w n) st))
            = series_of k (self st) ++ appends k evs)
      /\ sampling w (run_burst (repeat w n) st).
Proof.
  induction n as [|n IH]; intros st pc Hs Ha H Hr.
  - exists pc, []. simpl. rewrite app_nil_r.
    split; [exact H|]. split; [constructor|]. split; [reflexivity|].
    split; [|exact Hs]. intro k. now rewrite app_nil_r.
  - rewrite solo_succ.
    destruct (step_passes Hs Ha H Hr) as (pc1 & e1 & H1 & P1 & E1 & S1).
    destruct (IH _ pc1 (step_sampling Hs)) as (pc2 & e2 & H2 & P2 & E2 & S2 & Hs2);
      auto.
    + now rewrite (same_active (step_unchanged w st)).
    + eapply pass_step_running; eauto.
    + exists pc2, (e1 ++ e2). split; [exact H2|].
      split; [econstructor; eauto|].
      split; [now rewrite E2, E1, app_assoc|].
      split; [|exact Hs2].
      intro k. now rewrite S2, S1, appends_app, app_assoc.
Qed.

(** While the flag is up, a sampling thread at its loop test completes a
    pass in thirteen steps of its own, whatever the instrument answers
    within the session's shape: it logs exactly acquire; query, reply and
    append for voltage, then current, then power; release; sleep 0.05.
    The values appended are [float] of the stripped replies, one per
    series, and the thread is back at its loop test. *)
Lemma complete_pass (w : nat) (st : state V) :
  sampling w st ->
  reading_thread_active (self st) = true ->
  thread_at w st = Some T_loop ->
  let st' := run_burst (repeat w 13) st in
  exists v c p rv rc rp,
    events_of (Worker w) (log (env st'))
    = events_of (Worker w) (log (env st)) ++ iteration_events v c p rv rc rp
    /\ py_float (strip rv) = Some v
    /\ py_float (strip rc) = Some c
    /\ py_float (strip rp) = Some p
    /\ data_voltage (self st') = data_voltage (self st) ++ [v]
    /\ data_current (self st') = data_current (self st) ++ [c]
    /\ data_power (self st') = data_power (self st) ++ [p]
    /\ thread_at w st' = Some T_loop
    /\ sampling w st'.
Proof.
  intros Hs Ha H st'.
  destruct (@steps_pass w 13 st T_loop Hs Ha H eq_refl)
    as (pc' & evs & H' & P & E & Hser & Hs').
  fold st' in H', E, Hser, Hs'.
  repeat match goal with
    | P : pass_run (S _) _ _ _ |- _ => inversion P; clear P; subst
    | P : pass_run 0 _ _ _ |- _ => inversion P; clear P; subst
    | P : pass_step _ _ _ |- _ => inversion P; clear P; subst
    end.
  simpl in E. pose proof (Hser SVoltage) as Sv.
  pose proof (Hser SCurrent) as Sc. pose proof (Hser SPower) as Sp.
  simpl in Sv, Sc, Sp.
  do 6 eexists. split; [exact E|].
  split; [eassumption|]. split; [eassumption|]. split; [eassumption|].
  split; [exact Sv|]. split; [exact Sc|]. split; [exact Sp|].
  split; [exact H'|exact Hs'].
Qed.

End PassExtras.

(* ================================================================== *)
(** * The constructor and the report *)

Section Quiet.

Context {V : Type} {N : PyNum V}.

Variable dev : list string -> list line.
Variable answer : string -> string.

Lemma quietly_refl (st : state V) :
  idle st -> incoming (env st) = [] -> quietly st st.
Proof. intros. constructor; auto. Qed.

Lemma quietly_trans (a b c : state V) :
  quietly a b -> quietly b c -> quietly a c.
Proof. intros [] []. constructor; congruence. Qed.

Lemma runs_ret {A : Type} (a : A) : runs dev (ret (V:=V) a) [] (fun f => f).
Proof.
  intros st _ Hi Hin. exists a, st. split; [reflexivity|].
  split; [now apply quietly_refl|]. now rewrite app_nil_r.
Qed.

Lemma runs_look {A : Type} (f : state V -> A) :
  runs dev (fun st => Ok (f st) st) [] (fun f => f).
Proof.
  intros st _ Hi Hin. exists (f st), st. split; [reflexivity|].
  split; [now apply quietly_refl|]. now rewrite app_nil_r.
Qed.

Lemma runs_bind {A B : Type} (m : M V A) (k : A -> M V B)
      (s1 s2 : list string) (u1 u2 : (attr -> V) -> attr -> V) :
  runs dev m s1 u1 -> (forall a, runs dev (k a) s2 u2) ->
  runs dev (bind m k) (s1 ++ s2) (fun f => u2 (u1 f)).
Proof.
  intros Hm Hk st Hd Hi Hin.
  destruct (Hm st Hd Hi Hin) as (a & s & E & Q & C & T).
  destruct (Hk a s) as (b & s' & E' & Q' & C' & T').
  - now rewrite (quiet_device Q).
  - apply Q.
  - apply Q.
  - exists b, s'. unfold bind. rewrite E.
    split; [exact E'|]. split; [eapply quietly_trans; eauto|].
    split; [now rewrite C', C|]. now rewrite T', T, app_assoc.
Qed.

Lemma runs_print (msg : string) : runs dev (print msg) [] (fun f => f).
Proof.
  intros st _ Hi Hin. unfold print. rewrite atomic_idle by exact Hi.
  eexists; eexists. split; [reflexivity|].
  split; [constructor; auto|]. split; [reflexivity|].
  unfold transmitted; simpl.
  now rewrite events_of_app, sent_in_app, !app_nil_r.
Qed.

Lemma read_idle_eq (st : state V) (raw : string) (rest : list line) :
  idle st ->
  incoming (env st) = Decoded raw :: rest ->
  read st
  = Ok (strip raw)
       (emit Main (Recv (Decoded raw))
          (with_env (set_incoming rest)
             (with_env (fun w => set_clock (S (clock w)) w) st))).
Proof.
  intros Hi Hin. unfold read, blocking.
  destruct (patience (env st)); simpl; unfold dev_readline;
    rewrite (idle_tick Hi); simpl; rewrite Hin; reflexivity.
Qed.

(** A query and its one-line answer. *)
Lemma runs_ask (q : string) :
  (forall h, dev (h ++ [(q ++ nl)%string]) = [Decoded (answer q)]) ->
  runs dev (write q ;; read) [(q ++ nl)%string] (fun f => f).
Proof.
  intros Hq st Hd Hi Hin. unfold bind, write.
  rewrite atomic_idle by exact Hi.
  rewrite (@read_idle_eq _ (answer q) []).
  - eexists; eexists. split; [reflexivity|].
    split; [constructor; auto|]. split; [reflexivity|].
    unfold transmitted; simpl.
    rewrite !events_of_app, !sent_in_app. simpl. now rewrite app_nil_r.
  - exact Hi.
  - unfold dev_write; simpl. rewrite Hin, Hd, sends_app. simpl.
    now rewrite Hq.
Qed.

Lemma ask_value (q : string) (st : state V) (a : string) (st' : state V) :
  (forall h, dev (h ++ [(q ++ nl)%string]) = [Decoded (answer q)]) ->
  device (env st) = dev -> idle st -> incoming (env st) = [] ->
  (write q ;; read) st = Ok a st' -> a = strip (answer q).
Proof.
  intros Hq Hd Hi Hin. unfold bind, write.
  rewrite atomic_idle by exact Hi.
  rewrite (@read_idle_eq _ (answer q) []).
  - intro E. now injection E as <- _.
  - exact Hi.
  - unfold dev_write; simpl. rewrite Hin, Hd, sends_app. simpl.
    now rewrite Hq.
Qed.

(** A getter asked for its setting or for a bound, answered by a number. *)
Lemma get_param_value (p : param) (bound : option string) (x : V)
      (st : state V) :
  bound = None \/ bound = Some "MIN"%string \/ bound = Some "MAX"%string ->
  (forall h, dev (h ++ [(query p bound ++ nl)%string])
             = [Decoded (answer (query p bound))]) ->
  py_float (strip (answer (query p bound))) = Some x ->
  device (env st) = dev -> idle st -> incoming (env st) = [] ->
  exists st',
    get_param p (as_arg bound) st = Ok x st'
    /\ quietly st st'
    /\ caps (self st') = caps (self st)
    /\ transmitted st' = transmitted st ++ [(query p bound ++ nl)%string].
Proof.
  intros Hb Hq Hx Hd Hi Hin. rewrite get_param_unfold.
  assert (asked p (as_arg bound) = Some (query p bound)) as ->
    by (destruct Hb as [->|[->| ->]]; reflexivity).
  destruct (runs_ask Hq Hd Hi Hin) as (a & s & E & Q & C & T).
  pose proof (@ask_value (query p bound) st a s Hq Hd Hi Hin E) as ->.
  unfold bind in *.
  destruct (write (query p bound) st) as [[] s1|e s1|s1]; try discriminate.
  rewrite E, float_run, Hx. exists s. auto.
Qed.

Lemma runs_cache (a : attr) (p : param) (b : string) (x : V) :
  b = "MIN"%string \/ b = "MAX"%string ->
  (forall h, dev (h ++ [(query p (Some b) ++ nl)%string])
             = [Decoded (answer (query p (Some b)))]) ->
  py_float (strip (answer (query p (Some b)))) = Some x ->
  runs dev (cache a (get_param p) b) [(query p (Some b) ++ nl)%string]
       (bind_attr a x).
Proof.
  intros Hb Hq Hx st Hd Hi Hin. unfold cache, bind.
  destruct (@get_param_value p (Some b) x st) as (s & E & Q & C & T); auto.
  { destruct Hb as [->| ->]; auto. }
  change (PStr b) with (as_arg (V:=V) (Some b)). rewrite E.
  eexists; eexists. split; [reflexivity|].
  split; [destruct Q; constructor; auto|].
  split; [|exact T].
  unfold assign, bind_attr; simpl. now rewrite C.
Qed.

(** The constructor is two queries' worth of preamble, the eighteen
    assignments of [init_plan], and [init_rest]. *)
Lemma init_shape (max_power : V) :
  __init__ max_power
  = ((fun st => Ok tt (with_self (set_max_power max_power) st)) ;;
     get_power_supply_info ;;
     info <- (fun st => Ok (ps_info_string (self st)) st) ;;
     print ("Successfully connected to: " ++ info) ;;
     cache_all init_plan init_rest).
Proof. reflexivity. Qed.

Lemma cache_all_runs (value : attr -> V) (plan : list (attr * param * string)) :
  (forall a p b, In (a, p, b) plan ->
     (b = "MIN"%string \/ b = "MAX"%string)
     /\ (forall h, dev (h ++ [(query p (Some b) ++ nl)%string])
                   = [Decoded (answer (query p (Some b)))])
     /\ py_float (strip (answer (query p (Some b)))) = Some (value a)) ->
  forall st,
    device (env st) = dev -> idle st -> incoming (env st) = [] ->
    exists st',
      (forall rest, cache_all plan rest st = rest st')
      /\ quietly st st'
      /\ caps (self st')
         = fold_left (fun f e => bind_attr (fst (fst e)) (value (fst (fst e))) f)
                     plan (caps (self st))
      /\ transmitted st'
         = transmitted st ++ map (fun q => (q ++ nl)%string) (plan_queries plan).
Proof.
  induction plan as [|[[a p] b] plan IH]; intros Hp st Hd Hi Hin.
  - exists st. simpl. rewrite app_nil_r.
    split; [reflexivity|]. split; [now apply quietly_refl|]. auto.
  - destruct (Hp a p b (or_introl eq_refl)) as (Hb & Hq & Hx).
    destruct (@runs_cache a p b (value a) Hb Hq Hx st Hd Hi Hin)
      as ([] & s & E & Q & C & T).
    destruct (IH (fun a' p' b' H => Hp a' p' b' (or_intror H)) s)
      as (s' & E' & Q' & C' & T').
    + now rewrite (quiet_device Q).
    + apply Q.
    + apply Q.
    + exists s'. split; [|split; [|split]].
      * intro rest. simpl. unfold bind at 1. rewrite E. apply E'.
      * eapply quietly_trans; eauto.
      * simpl. now rewrite C', C.
      * rewrite T', T. simpl. now rewrite <- app_assoc.
Qed.

Lemma init_plan_bounds (a : attr) (p : param) (b : string) :
  In (a, p, b) init_plan -> b = "MIN"%string \/ b = "MAX"%string.
Proof.
  unfold init_plan. simpl.
  intro H. repeat (destruct H as [H|H]; [injection H as <- <- <-; auto|]).
  destruct H.
Qed.

Lemma init_plan_covers (value : attr -> V) (f : attr -> V) (a : attr) :
  fold_left (fun g e => bind_attr (fst (fst e)) (value (fst (fst e))) g)
            init_plan f a
  = value a.
Proof. destruct a; reflexivity. Qed.

(** What the constructor leaves behind, in full. *)
Lemma init_runs (value : attr -> V) (orc : nat -> list nat)
      (watch : nat) (rated : V) :
  (forall h, dev (h ++ [("SYST:INF?" ++ nl)%string])
             = [Decoded (answer "SYST:INF?")]) ->
  (forall a p b, In (a, p, b) init_plan ->
     (forall h, dev (h ++ [(query p (Some b) ++ nl)%string])
                = [Decoded (answer (query p (Some b)))])
     /\ py_float (strip (answer (query p (Some b)))) = Some (value a)) ->
  exists st',
    __init__ rated (fresh dev orc watch) = Ok tt st'
    /\ (forall a, caps (self st') a = value a)
    /\ transmitted st'
       = map (fun q => (q ++ nl)%string)
             ("SYST:INF?"%string :: plan_queries init_plan)
    /\ ps_info_string (self st') = strip (answer "SYST:INF?")
    /\ max_power (self st') = rated
    /\ (data_voltage (self st') = [] /\ data_current (self st') = []
        /\ data_power (self st') = [])
    /\ reading_thread_active (self st') = false
    /\ lock (env st') = None
    /\ threads (env st') = [T_created]
    /\ ps_thread (self st') = 0
    /\ incoming (env st') = []
    /\ device (env st') = dev.
Proof.
  intros Hinf Hplan. rewrite init_shape.
  set (s0 := with_self (set_max_power rated) (fresh dev orc watch)).
  assert (Hd0 : device (env s0) = dev) by reflexivity.
  assert (Hi0 : idle s0) by reflexivity.
  assert (Hin0 : incoming (env s0) = []) by reflexivity.
  destruct (@runs_ask "SYST:INF?" Hinf s0 Hd0 Hi0 Hin0)
    as (a & s1 & E1 & Q1 & C1 & T1).
  pose proof (@ask_value "SYST:INF?" s0 a s1 Hinf Hd0 Hi0 Hin0 E1) as ->.
  set (s2 := with_self (set_ps_info_string (strip (answer "SYST:INF?"))) s1).
  assert (Hd2 : device (env s2) = dev) by (simpl; now rewrite (quiet_device Q1)).
  assert (Hi2 : idle s2) by apply Q1.
  assert (Hin2 : incoming (env s2) = []) by apply Q1.
  assert (Einfo : get_power_supply_info s0 = Ok tt s2).
  { unfold get_power_supply_info, bind in *.
    destruct (write "SYST:INF?" s0) as [[] w1|e w1|w1]; try discriminate.
    now rewrite E1. }
  destruct (@runs_print ("Successfully connected to: "
                         ++ strip (answer "SYST:INF?")) s2 Hd2 Hi2 Hin2)
    as ([] & s3 & E3 & Q3 & C3 & T3).
  destruct (@cache_all_runs value init_plan) with (st := s3)
    as (s4 & E4 & Q4 & C4 & T4).
  { intros a p b Hin. split; [eapply init_plan_bounds; eauto|].
    apply Hplan, Hin. }
  { now rewrite (quiet_device Q3). }
  { apply Q3. }
  { apply Q3. }
  pose proof (quietly_trans Q3 Q4) as Q24.
  assert (Hth : threads (env s4) = []).
  { rewrite (quiet_threads Q24). simpl. now rewrite (quiet_threads Q1). }
  assert (Hi4 : idle s4) by apply Q4.
  unfold bind at 1. cbv beta iota. fold s0.
  unfold bind at 1. rewrite Einfo.
  unfold bind at 1. cbv beta iota.
  change (ps_info_string (self s2)) with (strip (answer "SYST:INF?")).
  unfold bind at 1. rewrite E3, E4.
  unfold init_rest, bind, set_active, Thread, print.
  rewrite atomic_idle by exact Hi4.
  cbn -[atomic nl String.append].
  rewrite atomic_idle
    by (unfold idle; cbn; rewrite Hth; reflexivity).
  eexists. split; [reflexivity|].
  cbn -[nl String.append plan_queries init_plan transmitted events_of sent_in map].
  split; [intro a; rewrite C4; apply init_plan_covers|].
  split.
  { unfold transmitted in *.
    cbn -[nl String.append plan_queries init_plan events_of sent_in map].
    rewrite !events_of_app, !sent_in_app, T4, T3.
    change (log (env s2)) with (log (env s1)). rewrite T1. reflexivity. }
  split; [now rewrite (quiet_info Q24)|].
  split; [rewrite (quiet_max_power Q24); simpl;
          now rewrite (quiet_max_power Q1)|].
  split; [auto|]. split; [reflexivity|]. split; [reflexivity|].
  split; [now rewrite Hth|]. split; [now rewrite Hth|].
  split; [apply Q4|].
  rewrite (quiet_device Q24). simpl. now rewrite (quiet_device Q1).
Qed.

(** X1.  The constructor, against an instrument that answers the identity
    query and the eighteen bound queries with one line each, every bound
    a number: it returns, having sent [SYST:INF?] and then the eighteen
    queries in the order of [init_plan], and nothing else; each cached
    bound is [float] of the stripped answer to its own query; the series
    are empty, the flag is down, the lock is free and the one thread
    object is not started. *)
Theorem init_caches_bounds (value : attr -> V) (orc : nat -> list nat)
        (watch : nat) (rated : V) :
  (forall h, dev (h ++ [("SYST:INF?" ++ nl)%string])
             = [Decoded (answer "SYST:INF?")]) ->
  (forall a p b, In (a, p, b) init_plan ->
     (forall h, dev (h ++ [(query p (Some b) ++ nl)%string])
                = [Decoded (answer (query p (Some b)))])
     /\ py_float (strip (answer (query p (Some b)))) = Some (value a)) ->
  exists st',
    __init__ rated (fresh dev orc watch) = Ok tt st'
    /\ (forall a, caps (self st') a = value a)
    /\ transmitted st'
       = map (fun q => (q ++ nl)%string)
             ("SYST:INF?"%string :: plan_queries init_plan)
    /\ ps_info_string (self st') = strip (answer "SYST:INF?")
    /\ max_power (self st') = rated
    /\ (data_voltage (self st') = [] /\ data_current (self st') = []
        /\ data_power (self st') = [])
    /\ reading_thread_active (self st') = false
    /\ lock (env st') = None
    /\ threads (env st') = [T_created].
Proof.
  intros Hinf Hplan.
  destruct (@init_runs value orc watch rated Hinf Hplan)
    as (st' & E & C & T & I & P & D & A & L & Th & _).
  exists st'. repeat (split; [assumption|]). assumption.
Qed.

(** ** The report *)

Lemma runs_then {A B : Type} (m : M V A) (k : A -> M V B)
      (s1 s2 s : list string) :
  runs dev m s1 (fun f => f) -> (forall a, runs dev (k a) s2 (fun f => f)) ->
  s = s1 ++ s2 ->
  runs dev (bind m k) s (fun f => f).
Proof.
  intros Hm Hk ->.
  exact (@runs_bind A B m k s1 s2 (fun f => f) (fun f => f) Hm Hk).
Qed.

Lemma runs_get (p : param) :
  (forall h, dev (h ++ [(query p None ++ nl)%string])
             = [Decoded (answer (query p None))]) ->
  py_float (strip (answer (query p None))) <> None ->
  runs dev (get_param p PNone) [(query p None ++ nl)%string] (fun f => f).
Proof.
  intros Hq Hx st Hd Hi Hin.
  destruct (py_float (strip (answer (query p None)))) as [x|] eqn:E;
    [|congruence].
  destruct (@get_param_value p None x st) as (s & E' & Q & C & T); auto.
  exists x, s. auto.
Qed.

Lemma runs_mode :
  (forall h, dev (h ++ [("OUTP:MODE?" ++ nl)%string])
             = [Decoded (answer "OUTP:MODE?")]) ->
  runs dev (get_power_supply_mode (V:=V)) [("OUTP:MODE?" ++ nl)%string]
       (fun f => f).
Proof.
  intros Hq st Hd Hi Hin.
  destruct (runs_ask Hq Hd Hi Hin) as (a & s & E & Q & C & T).
  unfold get_power_supply_mode, bind in *.
  destruct (write "OUTP:MODE?" st) as [[] s1|e s1|s1]; try discriminate.
  rewrite E. eexists; eexists. split; [reflexivity|]. auto.
Qed.

(** X2.  [print_all_info], with no sampler running, against an instrument that
    answers each of its ten queries with one line, a number for all but
    the mode: it returns, having sent exactly the ten queries in the
    order of [info_queries], and it changes nothing of the object or its
    world but the clock and the log. *)
Theorem print_all_info_queries (st : state V) :
  answers dev answer info_queries ->
  (forall q, In q info_queries -> q <> "OUTP:MODE?"%string ->
     py_float (strip (answer q)) <> None) ->
  device (env st) = dev -> idle st -> incoming (env st) = [] ->
  exists st',
    print_all_info st = Ok tt st'
    /\ transmitted st'
       = transmitted st ++ map (fun q => (q ++ nl)%string) info_queries
    /\ quietly st st'
    /\ caps (self st') = caps (self st).
Proof.
  intros Ha Hx Hd Hi Hin.
  assert (G : forall p, In (query p None) info_queries ->
            query p None <> "OUTP:MODE?"%string ->
            runs dev (get_param p PNone) [(query p None ++ nl)%string]
                 (fun f => f)).
  { intros p Hp Hne. apply runs_get; [intro h; now apply Ha | now apply Hx]. }
  assert (Hm : runs dev (get_power_supply_mode (V:=V))
                 [("OUTP:MODE?" ++ nl)%string] (fun f => f)).
  { apply runs_mode. intro h. apply Ha. simpl; auto. }
  assert (R : runs dev (print_all_info (V:=V))
                (map (fun q => (q ++ nl)%string) info_queries) (fun f => f)).
  { unfold print_all_info, attribute.
    repeat first
      [ apply runs_print
      | eapply runs_then;
        [ first [ apply runs_look
                | apply runs_print
                | exact Hm
                | apply (G InternalResistance); [simpl; tauto | discriminate]
                | apply (G Current); [simpl; tauto | discriminate]
                | apply (G RisingCurrentSlewRate); [simpl; tauto | discriminate]
                | apply (G FallingCurrentSlewRate); [simpl; tauto | discriminate]
                | apply (G OverCurrentProtection); [simpl; tauto | discriminate]
                | apply (G Voltage); [simpl; tauto | discriminate]
                | apply (G RisingVoltageSlewRate); [simpl; tauto | discriminate]
                | apply (G FallingVoltageSlewRate); [simpl; tauto | discriminate]
                | apply (G OverVoltageProtection); [simpl; tauto | discriminate] ]
        | intro
        | ] ];
    reflexivity. }
  destruct (R st Hd Hi Hin) as ([] & st' & E & Q & C & T).
  exists st'. auto.
Qed.

(** ** From the constructor to a running sampler *)

(** X12.  Against an instrument that answers the constructor's queries and the
    three measurement queries and says nothing to [OUTP 1] and [OUTP 0],
    the constructor followed by [start_power_supply] returns and leaves one
    sampling thread, number 1, at its loop test with the flag up: the
    session is in the shape [sampling] describes.  Thread object 0, which
    the constructor made, is never started. *)
Theorem session_ready (value : attr -> V) (orc : nat -> list nat)
        (watch : nat) (rated : V) :
  (forall h, dev (h ++ [("SYST:INF?" ++ nl)%string])
             = [Decoded (answer "SYST:INF?")]) ->
  (forall a p b, In (a, p, b) init_plan ->
     (forall h, dev (h ++ [(query p (Some b) ++ nl)%string])
                = [Decoded (answer (query p (Some b)))])
     /\ py_float (strip (answer (query p (Some b)))) = Some (value a)) ->
  measurable dev ->
  (forall h, dev (h ++ [("OUTP 1" ++ nl)%string]) = []) ->
  exists st0 st1,
    __init__ rated (fresh dev orc watch) = Ok tt st0
    /\ start_power_supply st0 = Ok tt st1
    /\ sampling 1 st1
    /\ thread_at 1 st1 = Some T_loop
    /\ thread_at 0 st1 = Some T_created
    /\ reading_thread_active (self st1) = true
    /\ transmitted st1 = transmitted st0 ++ [("OUTP 1" ++ nl)%string].
Proof.
  intros Hinf Hplan Hmeas Hon.
  destruct (@init_runs value orc watch rated Hinf Hplan)
    as (st0 & E & _ & _ & _ & _ & (Dv & Dc & Dp) & A & L & Th & P & In0 & D).
  exists st0. destruct st0 as [o w].
  destruct o as [cp mp info act th dc dv dp].
  destruct w as [d inc lk ths oc clk pat fs lg].
  simpl in Dv, Dc, Dp, A, L, Th, P, In0, D. subst.
  unfold start_power_supply, power_supply_on, write,
    start_thread_power_supply_data, set_active, Thread, thread_start, bind.
  rewrite atomic_idle by reflexivity. cbn -[atomic nl String.append].
  rewrite atomic_idle by reflexivity. cbn -[atomic nl String.append].
  rewrite atomic_idle by reflexivity.
  cbn -[nl String.append transmitted sampling].
  eexists. split; [exact E|]. split; [reflexivity|].
  split; [|split; [reflexivity|]; split; [reflexivity|];
           split; [reflexivity|]].
  - eapply sampling_intro with (pc := T_loop); try reflexivity.
    + exact Hmeas.
    + intros [|[|[|t]]] pc0 Hne Ht; cbn in Ht; try discriminate;
        try congruence.
      now injection Ht as <-.
    + discriminate.
    + cbn -[nl String.append]. rewrite sends_app. cbn -[nl String.append].
      now rewrite Hon.
  - unfold transmitted. cbn -[nl String.append events_of sent_in].
    rewrite !events_of_app, !sent_in_app. cbn -[nl String.append].
    now rewrite !app_nil_r.
Qed.

End Quiet.

(* ================================================================== *)
(** * The series over the life of the object: claim C2 *)

Section Lifetime.

Context {V : Type} {N : PyNum V}.

Lemma bind_ok {A B : Type} (m : M V A) (k : A -> M V B) (st : state V)
      (b : B) (st' : state V) :
  bind m k st = Ok b st' ->
  exists a s, m st = Ok a s /\ k a s = Ok b st'.
Proof.
  unfold bind. destruct (m st) as [a s|e s|s]; try discriminate.
  intro E. now exists a, s.
Qed.

Lemma calm_run {A : Type} (m : M V A) (st : state V) (a : A) (s : state V) :
  always calm m -> idle st -> m st = Ok a s -> idle s.
Proof. intros Hm Hi E. specialize (Hm st Hi). now rewrite E in Hm. Qed.

Lemma calm_ret {A : Type} (a : A) : always calm (ret (V:=V) a).
Proof. intros st Hi. exact Hi. Qed.

Lemma calm_bind {A B : Type} (m : M V A) (k : A -> M V B) :
  always calm m -> (forall a, always calm (k a)) -> always calm (bind m k).
Proof.
  intros Hm Hk st Hi. unfold bind. specialize (Hm st Hi).
  destruct (m st) as [a s|e s|s]; simpl in *; auto.
  now apply Hk.
Qed.

Lemma calm_atomic {A : Type} (f : state V -> result V A) :
  (forall st, idle st -> idle (final (f st))) -> always calm (atomic f).
Proof. intros Hf st Hi. unfold atomic. apply Hf, idle_after_tick, Hi. Qed.

Lemma calm_blocking {A : Type} (attempt : state V -> option (result V A)) :
  (forall s r, attempt s = Some r -> idle s -> idle (final r)) ->
  always calm (blocking attempt).
Proof.
  intros Ha st. unfold blocking, calm. generalize (patience (env st)).
  intro n. revert st. induction n as [|n IH]; intros st Hi; simpl;
    destruct (attempt (tick st)) as [r|] eqn:E;
    try (eapply Ha; [exact E | now apply idle_after_tick]).
  - now apply idle_after_tick.
  - apply IH. now apply idle_after_tick.
Qed.

Lemma calm_write (s : string) : always calm (write s).
Proof. apply calm_atomic. intros st Hi. exact Hi. Qed.

Lemma calm_print (msg : string) : always calm (print msg).
Proof. apply calm_atomic. intros st Hi. exact Hi. Qed.

Lemma calm_read : always calm read.
Proof.
  apply calm_blocking. intros s r. unfold dev_readline.
  destruct (incoming (env s)) as [|[txt|] rest]; try discriminate;
    intro E; injection E as <-; intro Hi; exact Hi.
Qed.

Lemma calm_float (s : string) : always calm (float s).
Proof. unfold float. destruct (py_float s); intros st Hi; exact Hi. Qed.

Lemma calm_get_param (p : param) (a : pyarg V) :
  always calm (get_param p a).
Proof.
  rewrite get_param_unfold.
  apply calm_bind; [destruct (asked p a); [apply calm_write
                                          | apply calm_ret]|].
  intros _. apply calm_bind; [apply calm_read|].
  intro s. apply calm_float.
Qed.

Lemma calm_cache (a : attr) (p : param) (b : string) :
  always calm (cache a (get_param p) b).
Proof.
  unfold cache. apply calm_bind; [apply calm_get_param|].
  intros x st Hi. exact Hi.
Qed.

Lemma calm_info : always calm (get_power_supply_info (V:=V)).
Proof.
  unfold get_power_supply_info.
  apply calm_bind; [apply calm_write | intros _].
  apply calm_bind; [apply calm_read | intros s st Hi; exact Hi].
Qed.

(** If the cached assignments all return, what follows them starts with
    no sampler running, provided none was running before. *)
Lemma cache_all_calm (plan : list (attr * param * string))
      (rest : M V unit) :
  forall st st' : state V,
    idle st -> cache_all plan rest st = Ok tt st' ->
    exists s, idle s /\ rest s = Ok tt st'.
Proof.
  induction plan as [|[[a p] b] plan IH]; intros st st' Hi E; simpl in E.
  - now exists st.
  - apply bind_ok in E. destruct E as ([] & s & E1 & E2).
    apply (IH s st'); [|exact E2].
    exact (calm_run (calm_cache a p b) Hi E1).
Qed.

(** The tail of the constructor, with no sampler running: it returns and
    leaves the three series empty. *)
Lemma init_rest_empty (st : state V) :
  idle st ->
  exists st',
    init_rest st = Ok tt st' /\ forall k, series_of k (self st') = [].
Proof.
  intro Hi. unfold init_rest, bind, set_active, Thread, print.
  rewrite atomic_idle by exact Hi.
  cbn -[atomic nl String.append].
  rewrite atomic_idle
    by (unfold idle in *; cbn; rewrite forallb_app, Hi; reflexivity).
  eexists. split; [reflexivity|]. intros []; reflexivity.
Qed.

(** Whenever the constructor returns, whatever the instrument answered
    and whatever the fields held before, the three series are empty. *)
Lemma init_empty (rated : V) (st st0 : state V) :
  idle st ->
  __init__ rated st = Ok tt st0 ->
  forall k, series_of k (self st0) = [].
Proof.
  rewrite init_shape. intros Hi E.
  apply bind_ok in E. destruct E as ([] & s0 & E0 & E).
  injection E0 as <-.
  assert (Hi0 : idle (with_self (set_max_power rated) st)) by exact Hi.
  apply bind_ok in E. destruct E as ([] & s1 & E1 & E).
  pose proof (calm_run calm_info Hi0 E1) as Hi1.
  apply bind_ok in E. destruct E as (info & s2 & E2 & E).
  injection E2 as <- <-.
  apply bind_ok in E. destruct E as ([] & s3 & E3 & E).
  pose proof (calm_run (calm_print _) Hi1 E3) as Hi3.
  destruct (cache_all_calm _ _ Hi3 E) as (s4 & Hi4 & E4).
  destruct (init_rest_empty Hi4) as (st' & E' & Hs).
  rewrite E4 in E'. injection E' as <-. exact Hs.
Qed.

Lemma foreground_extends (st st' : state V) :
  foreground st st' -> extends st st'.
Proof. intros (_ & new & L & S & _). now exists new. Qed.

Lemma lifetime_extends (st st' : state V) :
  lifetime st st' -> extends st st'.
Proof.
  induction 1 as [st|c st st' _ IH|b st st' _ IH].
  - apply extends_refl.
  - eapply extends_trans; [|exact IH].
    apply foreground_extends, perform_foreground.
  - eapply extends_trans; [|exact IH].
    apply grows_extends, burst_grows.
Qed.

(** C2, as the code has it.  The three series are append-only for as long
    as the object lives.  The constructor leaves them empty whenever it
    returns, whatever the fields held before, and it does return against
    an instrument that answers its nineteen queries.  After that nothing clears them: across any steps of
    the sampling threads, across [start_thread_power_supply_data] (which
    always returns, with the flag up and a new thread at its loop test),
    across every other call on the object ([stop_power_supply] and
    [save_data] among them), however it ends, and so across any sequence
    of calls and sampling steps, the log only grows and each series is
    what it was, followed by the values that sampling threads appended
    meanwhile. *)
Theorem start_keeps_series (st : state V) :
  (forall b, extends st (run_burst b st))
  /\ (exists st',
        start_thread_power_supply_data st = Ok tt st'
        /\ extends st st'
        /\ reading_thread_active (self st') = true
        /\ thread_at (ps_thread (self st')) st' = Some T_loop)
  /\ (forall c, extends st (perform c st))
  /\ (forall st', lifetime st st' -> extends st st')
  /\ (forall rated born st0,
        idle born ->
        __init__ rated born = Ok tt st0 ->
        data_voltage (self st0) = [] /\ data_current (self st0) = []
        /\ data_power (self st0) = [])
  /\ (forall (dev : list string -> list line) (answer : string -> string)
             (value : attr -> V) orc watch rated,
        (forall h, dev (h ++ [("SYST:INF?" ++ nl)%string])
                   = [Decoded (answer "SYST:INF?")]) ->
        (forall a p b, In (a, p, b) init_plan ->
           (forall h, dev (h ++ [(query p (Some b) ++ nl)%string])
                      = [Decoded (answer (query p (Some b)))])
           /\ py_float (strip (answer (query p (Some b)))) = Some (value a)) ->
        exists st0,
          __init__ rated (fresh dev orc watch) = Ok tt st0
          /\ data_voltage (self st0) = [] /\ data_current (self st0) = []
          /\ data_power (self st0) = []).
Proof.
  split; [exact (proj1 (start_extends st))|].
  split; [exact (proj2 (start_extends st))|].
  split; [intro c; apply foreground_extends, perform_foreground|].
  split; [apply lifetime_extends|].
  split.
  - intros rated born st0 Hi E.
    pose proof (init_empty _ Hi E) as Hs.
    split; [exact (Hs SVoltage)|].
    split; [exact (Hs SCurrent) | exact (Hs SPower)].
  - intros dev answer value orc watch rated Hinf Hplan.
    destruct (@init_runs V N dev answer value orc watch rated Hinf Hplan)
      as (st0 & E & _ & _ & _ & _ & (Dv & Dc & Dp) & _).
    exists st0. auto.
Qed.

End Lifetime.

(* ================================================================== *)
(** * What a pass logs: claim C8 *)

Section PassTrace.

Context {V : Type} {N : PyNum V}.

(** One step inside the loop body: either it is the next step of a pass,
    logging what that step logs, or the thread does not get closer to the
    loop test. *)
Lemma step_trace (t n : nat) (pc : wpc V) (st : state V) :
  thread_at t st = Some pc ->
  remaining pc = S n ->
  exists pc',
    thread_at t (_read_power_supply_data t st) = Some pc'
    /\ ((remaining pc' = n
         /\ exists evs,
              pass_step pc evs pc'
              /\ events_of (Worker t)
                   (log (env (_read_power_supply_data t st)))
                 = events_of (Worker t) (log (env st)) ++ evs)
        \/ n < remaining pc').
Proof.
  intros H Hr. pose proof H as H0. revert H0.
  step_at H pc; intro H0; simpl in Hr; try discriminate;
    injection Hr as <-;
    eexists;
    (split; [first [ unfold thread_at, goto in *; simpl;
                     eapply nth_error_update_nth_eq; eassumption
                   | eassumption ]|]);
    first [ left; split; [reflexivity|]; eexists;
            split; [econstructor; eassumption|];
            rewrite ?events_of_app, ?events_of_own, ?app_nil_r; reflexivity
          | right; simpl; lia ].
Qed.

(** Reaching the loop test in exactly the remaining number of steps
    means every one of them was the next step of the pass. *)
Lemma on_time_events (t n : nat) :
  forall (st : state V) (pc : wpc V),
    thread_at t st = Some pc ->
    remaining pc = n ->
    thread_at t (run_burst (repeat t n) st) = Some T_loop ->
    exists evs,
      pass_run n pc evs T_loop
      /\ events_of (Worker t) (log (env (run_burst (repeat t n) st)))
         = events_of (Worker t) (log (env st)) ++ evs.
Proof.
  induction n as [|n IH]; intros st pc H Hr Hend.
  - simpl in *. destruct pc; simpl in Hr; try discriminate.
    exists []. split; [constructor | now rewrite app_nil_r].
  - rewrite solo_succ in *.
    destruct (@step_trace t n pc st H Hr)
      as (pc' & H' & [(Hm & e1 & P1 & E1)|Hm]).
    + destruct (IH _ pc' H' Hm Hend) as (e2 & P2 & E2).
      exists (e1 ++ e2). split; [econstructor; eauto|].
      now rewrite E2, E1, app_assoc.
    + exfalso. exact (@not_back V N t n _ pc' H' Hm Hend).
Qed.

(** C8.  Under every schedule the lock stays in step with the program
    points of the sampling threads, so a thread about to sleep does not
    hold it, and the events of a thread keep the discipline: it acquires
    the lock while not holding it, queries, reads and appends only while
    holding it, and releases it before it sleeps.  A pass that takes a
    thread from its loop test back to its loop test in thirteen steps of
    its own logs exactly: acquire; query, reply and append for voltage,
    then for current, then for power; release; sleep 0.05, with each
    value appended the [float] of the reply just read.  And in a healthy
    session with the flag up the thread does complete that pass, leaving
    the lock free. *)
Theorem lock_scope (b : list nat) (t : nat) (pc : wpc V) (st : state V) :
  let st' := run_burst b st in
  let pass := run_burst (repeat t 13) st in
  lock_consistent st ->
  thread_at t st = Some pc ->
  raised pc = false ->
  (lock_consistent st'
   /\ (thread_at t st' = Some T_sleep -> holding t st' = 0)
   /\ exists evs held,
        events_of (Worker t) (log (env st'))
        = events_of (Worker t) (log (env st)) ++ evs
        /\ discipline (in_critical pc) evs = Some held)
  /\ (pc = T_loop ->
      thread_at t pass = Some T_loop ->
      exists v c p rv rc rp,
        events_of (Worker t) (log (env pass))
        = events_of (Worker t) (log (env st))
          ++ iteration_events v c p rv rc rp
        /\ py_float (strip rv) = Some v
        /\ py_float (strip rc) = Some c
        /\ py_float (strip rp) = Some p
        /\ discipline false (iteration_events v c p rv rc rp) = Some false)
  /\ (pc = T_loop ->
      sampling t st ->
      reading_thread_active (self st) = true ->
      thread_at t pass = Some T_loop /\ lock (env pass) = None).
Proof.
  intros st' pass Hc H Hr. split; [exact (@lock_kept V N b t pc st Hc H Hr)|]. split.
  - intros -> Hend.
    assert (exists evs,
              pass_run 13 T_loop evs T_loop
              /\ events_of (Worker t) (log (env pass))
                 = events_of (Worker t) (log (env st)) ++ evs)
      as (evs & P & E).
    { unfold pass in *. rewrite solo_succ in *.
      unfold _read_power_supply_data in *. rewrite H in *.
      destruct (reading_thread_active (self st)).
      - assert (Ha : thread_at t (goto t T_acquire st) = Some T_acquire)
          by (eapply thread_at_goto_eq; eassumption).
        destruct (@on_time_events t 12 _ T_acquire Ha eq_refl Hend)
          as (evs & P & E).
        exists ([] ++ evs). split; [|exact E].
        econstructor; [constructor | exact P].
      - exfalso.
        assert (Ha : thread_at t (goto t T_finished st) = Some T_finished)
          by (eapply thread_at_goto_eq; eassumption).
        refine (@not_back V N t 12 _ T_finished Ha _ Hend). simpl. lia. }
    repeat match goal with
      | P : pass_run (S _) _ _ _ |- _ => inversion P; clear P; subst
      | P : pass_run 0 _ _ _ |- _ => inversion P; clear P; subst
      | P : pass_step _ _ _ |- _ => inversion P; clear P; subst
      end.
    simpl in E. do 6 eexists. split; [exact E|].
    split; [eassumption|]. split; [eassumption|]. split; [eassumption|].
    reflexivity.
  - intros -> Hs Ha.
    destruct (@complete_pass V N t st Hs Ha H)
      as (v & c & p & rv & rc & rp & _ & _ & _ & _ & _ & _ & _ & Hb & Hs').
    fold pass in Hb, Hs'. split; [exact Hb|].
    destruct Hs' as (_ & _ & _ & pc0 & Hpc & _ & _ & Hlk & _).
    rewrite Hb in Hpc. injection Hpc as <-. exact Hlk.
Qed.

End PassTrace.

(* ================================================================== *)
(** * On the bench *)

Module BenchFacts.

Import Bench.

Lemma device_last (h : list string) (c : string) :
  device (h ++ [c]) = lookup c table.
Proof. unfold device. now rewrite rev_unit. Qed.

Lemma device_measurable : measurable device.
Proof.
  split.
  - intros h q Hq. rewrite device_last.
    destruct Hq as [<-|[<-|[<-|[]]]]; eexists; eexists;
      (split; [reflexivity|]); vm_compute; reflexivity.
  - intro h. now rewrite device_last.
Defined.

Lemma session_idle : idle session.
Proof. vm_compute. reflexivity. Defined.

Lemma busy_fair (st : state Z) :
  oracle (env st) = busy -> fair 1 st.
Proof. intros E k _. rewrite E. simpl. auto. Defined.

Lemma running_sampling : sampling 1 running.
Proof.
  eapply sampling_intro with (pc := T_loop).
  - vm_compute; reflexivity.
  - exact device_measurable.
  - intros [|[|[|t]]] pc0 Hne Ht; vm_compute in Ht;
      try discriminate; try congruence.
    injection Ht as <-. reflexivity.
  - vm_compute; reflexivity.
  - discriminate.
  - reflexivity.
  - vm_compute; reflexivity.
  - vm_compute; reflexivity.
  - vm_compute; reflexivity.
  - vm_compute; reflexivity.
Defined.

Lemma running_lock_consistent : lock_consistent running.
Proof.
  split.
  - intros owner depth E. vm_compute in E. discriminate.
  - intros [|[|[|t]]] pc Ht _; vm_compute in Ht; try discriminate;
      injection Ht as <-; vm_compute; reflexivity.
Defined.

End BenchFacts.

(* ================================================================== *)
(** * The further properties at work in the laboratory *)

Module LabFacts.

Import Lab.

Lemma lab_last (h : list string) (c : string) :
  device (h ++ [c]) = Bench.lookup c table.
Proof. unfold device. now rewrite rev_unit. Qed.

Lemma lab_idle : idle session.
Proof. vm_compute. reflexivity. Defined.

Lemma lab_identity (h : list string) :
  device (h ++ [("SYST:INF?" ++ nl)%string])
  = [Decoded (answer "SYST:INF?")].
Proof. rewrite lab_last. vm_compute. reflexivity. Defined.

Lemma lab_bounds (a : attr) (p : param) (b : string) :
  In (a, p, b) init_plan ->
  (forall h, device (h ++ [(query p (Some b) ++ nl)%string])
             = [Decoded (answer (query p (Some b)))])
  /\ py_float (strip (answer (query p (Some b)))) = Some (bounds a).
Proof.
  unfold init_plan. simpl. intro H.
  repeat (destruct H as [H|H];
          [injection H as <- <- <-;
           split; [intro h; rewrite lab_last|]; vm_compute; reflexivity|]).
  destruct H.
Defined.

Lemma lab_measurable : measurable device.
Proof.
  split.
  - intros h q Hq. rewrite lab_last.
    destruct Hq as [<-|[<-|[<-|[]]]]; eexists; eexists;
      (split; [reflexivity|]); vm_compute; reflexivity.
  - intro h. now rewrite lab_last.
Defined.

Lemma lab_report : answers device answer info_queries.
Proof.
  intros h c Hc. rewrite lab_last. simpl in Hc.
  repeat (destruct Hc as [<-|Hc]; [vm_compute; reflexivity|]).
  destruct Hc.
Defined.

Lemma lab_numbers (q : string) :
  In q info_queries -> q <> "OUTP:MODE?"%string ->
  py_float (strip (answer q)) <> None.
Proof.
  simpl. intros Hq Hne.
  repeat (destruct Hq as [<-|Hq];
          [first [congruence | vm_compute; discriminate]|]).
  destruct Hq.
Defined.

Lemma winding_sampling : sampling 1 winding.
Proof.
  unfold winding. apply sampling_flag, burst_sampling.
  exact BenchFacts.running_sampling.
Defined.

End LabFacts.

(* ================================================================== *)
(** * The claims at work on the bench *)

(** C1.  After connecting to the bench instrument the cached
    over-voltage-protection bounds are 3 and 33, and the cached rising
    current slew-rate bounds are 1 and 216.  Yet
    [set_over_voltage_protection(5)] and
    [set_rising_current_slew_rate(150)], both strictly inside their own
    parameter's bounds, transmit nothing and log the out-of-range warning:
    the first is tested against the over-current minimum (10), the second
    against the falling slew-rate maximum (108). *)
Theorem setters_test_foreign_bounds :
  let st := Bench.session in
  let bounds := caps (self st) in
  (bounds (lower OverVoltageProtection) = 3%Z
   /\ bounds (upper OverVoltageProtection) = 33%Z
   /\ strictly_between 3%Z 5%Z 33%Z = true
   /\ exists st',
        set_param OverVoltageProtection 5%Z st = Ok tt st'
        /\ transmitted st' = transmitted st
        /\ warnings st' = warnings st ++ [complaint OverVoltageProtection])
  /\ (bounds (lower RisingCurrentSlewRate) = 1%Z
      /\ bounds (upper RisingCurrentSlewRate) = 216%Z
      /\ strictly_between 1%Z 150%Z 216%Z = true
      /\ exists st',
           set_param RisingCurrentSlewRate 150%Z st = Ok tt st'
           /\ transmitted st' = transmitted st
           /\ warnings st' = warnings st ++ [complaint RisingCurrentSlewRate]).
Proof.
  intros st bounds. split.
  - split; [vm_compute; reflexivity|]. split; [vm_compute; reflexivity|].
    split; [reflexivity|].
    destruct (set_param_tested OverVoltageProtection 5%Z st) as (st' & E & H).
    exists st'. split; [exact E|].
    assert (strictly_between
              (caps (self st) (tested_lower OverVoltageProtection)) 5%Z
              (caps (self st) (tested_upper OverVoltageProtection)) = false)
      as F by (vm_compute; reflexivity).
    rewrite F in H. exact H.
  - split; [vm_compute; reflexivity|]. split; [vm_compute; reflexivity|].
    split; [reflexivity|].
    destruct (set_param_tested RisingCurrentSlewRate 150%Z st)
      as (st' & E & H).
    exists st'. split; [exact E|].
    assert (strictly_between
              (caps (self st) (tested_lower RisingCurrentSlewRate)) 150%Z
              (caps (self st) (tested_upper RisingCurrentSlewRate)) = false)
      as F by (vm_compute; reflexivity).
    rewrite F in H. exact H.
Qed.

(** C2, as stated, fails.  On the bench a first run samples 5 V, 2 A and
    10 W and is stopped.  Starting the sampler again returns normally with
    a new thread (number 2) at its loop test that has not logged a single
    event yet, and the three series still hold the samples of the first
    run. *)
Lemma restart_keeps_first_run :
  match start_thread_power_supply_data Bench.stopped with
  | Ok _ st' =>
      data_voltage (self Bench.stopped) = [5%Z]
      /\ ps_thread (self st') = 2
      /\ thread_at 2 st' = Some T_loop
      /\ events_of (Worker 2) (log (env st')) = []
      /\ data_voltage (self st') = [5%Z]
      /\ data_current (self st') = [2%Z]
      /\ data_power (self st') = [10%Z]
  | _ => False
  end.
Proof. vm_compute. repeat split. Qed.

Lemma get_power_supply_mode_maps_witness :
  idle Bench.session
  /\ exists st', get_power_supply_mode Bench.session = Ok "CVLS"%string st'.
Proof.
  split; [exact BenchFacts.session_idle|].
  destruct (@get_power_supply_mode_maps Z _ Bench.session
              ("2" ++ Bench.cr ++ nl)%string []
              BenchFacts.session_idle)
    as (st' & E & _).
  - vm_compute. reflexivity.
  - exists st'. exact E.
Defined.

Lemma get_param_parses_reply_witness :
  idle Bench.session
  /\ exists st', get_param Voltage (PStr "MAX") Bench.session = Ok 36%Z st'.
Proof.
  assert (G : forall (st : state Z) raw rest x,
             idle st ->
             next_reply st (query Voltage (Some "MAX"%string))
             = Decoded raw :: rest ->
             py_float (strip raw) = Some x ->
             exists st', get_param Voltage (PStr "MAX") st = Ok x st').
  { intros st raw rest x Hi Hn Hx.
    destruct (@get_param_parses_reply Z _ Voltage (Some "MAX"%string)
                st raw rest Hi (or_intror (or_intror eq_refl)) Hn)
      as (st' & _ & _ & E).
    rewrite Hx in E. exists st'. exact E. }
  split; [exact BenchFacts.session_idle|].
  apply (G Bench.session ("36" ++ Bench.cr ++ nl)%string [] 36%Z
           BenchFacts.session_idle); vm_compute; reflexivity.
Defined.

Lemma get_param_unknown_bound_witness :
  idle Bench.session
  /\ exists st',
       get_param Voltage (PStr "min") Bench.session = Hang st'
       /\ history st' = history Bench.session.
Proof.
  assert (G : forall st : state Z,
             idle st -> incoming (env st) = [] ->
             exists st', get_param Voltage (PStr "min") st = Hang st'
                         /\ history st' = history st).
  { intros st Hi Hin.
    pose proof (@get_param_unknown_bound Z _ Voltage (PStr "min") st Hi
                  eq_refl eq_refl eq_refl) as H.
    rewrite Hin in H. exact H. }
  split; [exact BenchFacts.session_idle|].
  apply (G Bench.session BenchFacts.session_idle).
  vm_compute. reflexivity.
Defined.

Lemma iteration_appends_one_witness :
  thread_at 1 Bench.running = Some T_loop
  /\ data_voltage (self (run_burst (repeat 1 13) Bench.running))
     = data_voltage (self Bench.running) ++ [5%Z].
Proof.
  assert (H0 : thread_at 1 Bench.running = Some T_loop)
    by (vm_compute; reflexivity).
  assert (H1 : thread_at 1 (run_burst (repeat 1 13) Bench.running)
               = Some T_loop) by (vm_compute; reflexivity).
  split; [exact H0|].
  destruct (@iteration_appends_one Z _ 1 Bench.running H0 H1)
    as ((v & c & p & Ev & _) & _).
  rewrite Ev. f_equal. f_equal.
  assert (data_voltage (self (run_burst (repeat 1 13) Bench.running))
          = [5%Z]) as E by (vm_compute; reflexivity).
  rewrite E in Ev. vm_compute in Ev. congruence.
Defined.

Lemma stop_persists_witness :
  sampling 1 Bench.running
  /\ fair 1 Bench.running
  /\ exists st',
       stop_power_supply Bench.running = Ok tt st'
       /\ files (env st') "PS_data.csv"%string = Some (three_rows (self st')).
Proof.
  assert (F : fair 1 Bench.running)
    by (apply BenchFacts.busy_fair; vm_compute; reflexivity).
  split; [exact BenchFacts.running_sampling|]. split; [exact F|].
  destruct (@stop_persists Z _ 1 Bench.running
              BenchFacts.running_sampling F)
    as (st' & E & _ & Hf & _).
  - vm_compute. lia.
  - exists st'. split; [exact E | exact Hf].
Defined.

Lemma start_keeps_series_witness :
  (exists st',
     start_thread_power_supply_data Bench.stopped = Ok tt st'
     /\ extends Bench.stopped st')
  /\ extends Bench.running (perform Call_stop_power_supply Bench.running).
Proof.
  split.
  - destruct (start_keeps_series Bench.stopped)
      as (_ & (st' & E & X & _) & _).
    exists st'. split; [exact E | exact X].
  - exact (proj1 (proj2 (proj2 (start_keeps_series Bench.running)))
             Call_stop_power_supply).
Defined.

Lemma lock_scope_witness :
  lock_consistent Bench.running
  /\ lock_consistent (run_burst [1; 1; 1; 2; 1] Bench.running)
  /\ exists v c p rv rc rp,
       events_of (Worker 1)
         (log (env (run_burst (repeat 1 13) Bench.running)))
       = events_of (Worker 1) (log (env Bench.running))
         ++ iteration_events v c p rv rc rp.
Proof.
  assert (H0 : thread_at 1 Bench.running = Some T_loop)
    by (vm_compute; reflexivity).
  assert (Ha : reading_thread_active (self Bench.running) = true)
    by (vm_compute; reflexivity).
  destruct (@lock_scope Z _ [1; 1; 1; 2; 1] 1 T_loop Bench.running
              BenchFacts.running_lock_consistent H0 eq_refl)
    as ((Hc & _) & Hp & Hh).
  split; [exact BenchFacts.running_lock_consistent|]. split; [exact Hc|].
  destruct (Hh eq_refl BenchFacts.running_sampling Ha) as (Hback & _).
  destruct (Hp eq_refl Hback) as (v & c & p & rv & rc & rp & E & _).
  exists v, c, p, rv, rc, rp. exact E.
Defined.

(** * The further properties at work *)

Lemma PyInt_order : @PyNumOrder Z PyInt_num.
Proof.
  constructor. intros a b H. simpl in *.
  apply Z.ltb_ge. now apply Z.leb_le.
Qed.

Lemma set_param_own_bounds_witness :
  own_bounds Voltage = true
  /\ exists st',
       set_param Voltage 12%Z Bench.session = Ok tt st'
       /\ transmitted st'
          = transmitted Bench.session ++ [("VOLT 12" ++ nl)%string].
Proof.
  split; [reflexivity|].
  destruct (@set_param_own_bounds Z _ PyInt_order Voltage 12%Z Bench.session
              eq_refl)
    as (st' & E & _ & T).
  exists st'. split; [exact E|].
  apply T. split; vm_compute; reflexivity.
Defined.

Lemma set_param_rejects_bound_witness :
  36%Z = caps (self Bench.session) (upper Voltage)
  /\ exists st',
       set_param Voltage 36%Z Bench.session = Ok tt st'
       /\ transmitted st' = transmitted Bench.session.
Proof.
  assert (B : 36%Z = caps (self Bench.session) (tested_upper Voltage))
    by (vm_compute; reflexivity).
  split; [exact B|].
  assert (I : py_lt 36%Z 36%Z = false) by reflexivity.
  destruct (@set_param_rejects_bound Z _ Voltage 36%Z Bench.session
              I (or_intror B))
    as (st' & E & T & _).
  exists st'. split; [exact E | exact T].
Defined.

Lemma measure_returns_reading_witness :
  idle Bench.session
  /\ exists st', measure SVoltage Bench.session = Ok 5%Z st'.
Proof.
  assert (G : forall (st : state Z) raw rest x,
             idle st ->
             next_reply st (measure_query SVoltage) = Decoded raw :: rest ->
             py_float (strip raw) = Some x ->
             exists st', measure SVoltage st = Ok x st').
  { intros st raw rest x Hi Hn Hx.
    destruct (@measure_returns_reading Z _ SVoltage st raw rest Hi Hn)
      as (st' & _ & _ & _ & E).
    rewrite Hx in E. exists st'. exact E. }
  split; [exact BenchFacts.session_idle|].
  apply (G Bench.session ("5" ++ Bench.cr ++ nl)%string [] 5%Z
           BenchFacts.session_idle); vm_compute; reflexivity.
Defined.

Lemma read_returns_trimmed_witness :
  let st := final (write "VOLT?" Bench.session) in
  read st = Ok "12"%string (final (read st)) /\ trimmed "12".
Proof.
  assert (E : read (final (write "VOLT?" Bench.session))
              = Ok "12"%string
                   (final (read (final (write "VOLT?" Bench.session)))))
    by (vm_compute; reflexivity).
  split; [exact E|].
  exact (@read_returns_trimmed Z _ _ _ _ E).
Defined.

Lemma get_voltage_current_pair_witness :
  idle Lab.session
  /\ exists st',
       get_voltage_current Lab.session = Ok (Item (12%Z, 7%Z)) st'.
Proof.
  assert (G : forall (st : state Z) raw rest,
             idle st ->
             next_reply st "APPL?" = Decoded raw :: rest ->
             strip raw = ("12" ++ "," ++ "7")%string ->
             exists st', get_voltage_current st = Ok (Item (12%Z, 7%Z)) st').
  { intros st raw rest Hi Hn Hs.
    assert (F12 : py_float "12" = Some 12%Z) by reflexivity.
    assert (F7 : py_float "7" = Some 7%Z) by reflexivity.
    destruct (@get_voltage_current_pair Z _ st raw "12" "7" rest 12%Z 7%Z
                Hi Hn Hs eq_refl eq_refl F12 F7)
      as (st' & E & _).
    exists st'. exact E. }
  split; [exact LabFacts.lab_idle|].
  apply (G Lab.session ("12,7" ++ Bench.cr ++ nl)%string []
           LabFacts.lab_idle); vm_compute; reflexivity.
Defined.

Lemma get_voltage_current_short_witness :
  let st := fresh Lab.terse Bench.calm 20 in
  idle st /\ exists st', get_voltage_current st = Ok IndexError st'.
Proof.
  intro st.
  assert (Hi : idle st) by (vm_compute; reflexivity).
  split; [exact Hi|].
  destruct (@get_voltage_current_short Z _ st ("5" ++ Bench.cr ++ nl)%string
              [] Hi eq_refl)
    as (st' & H & _).
  exists st'. apply (H eq_refl 5%Z). vm_compute. reflexivity.
Defined.

Lemma save_data_overwrites_witness :
  idle Bench.stopped
  /\ exists st',
       save_data Bench.stopped = Ok tt st'
       /\ files (env st') "PS_data.csv"%string
          = Some (three_rows (self Bench.stopped)).
Proof.
  assert (Hi : idle Bench.stopped) by (vm_compute; reflexivity).
  split; [exact Hi|].
  destruct (@save_data_overwrites Z _ Bench.stopped Hi)
    as (st' & E & F & _).
  - vm_compute. reflexivity.
  - vm_compute. reflexivity.
  - exists st'. split; [exact E | exact F].
Defined.

Lemma save_data_ragged_witness :
  idle Lab.ragged
  /\ exists st',
       save_data Lab.ragged = Raise ValueError st'
       /\ files (env st') "PS_data.csv"%string = Some EmptyString.
Proof.
  assert (Hi : idle Lab.ragged) by (vm_compute; reflexivity).
  split; [exact Hi|].
  destruct (@save_data_ragged Z _ Lab.ragged Hi)
    as (st' & E & F & _).
  - left. vm_compute. discriminate.
  - exists st'. split; [exact E | exact F].
Defined.

Lemma stop_before_start_raises_witness :
  thread_at (ps_thread (self Bench.session)) Bench.session = Some T_created
  /\ exists st', stop_power_supply Bench.session = Raise RuntimeError st'.
Proof.
  assert (H : thread_at (ps_thread (self Bench.session)) Bench.session
              = Some T_created) by (vm_compute; reflexivity).
  split; [exact H|].
  destruct (@stop_before_start_raises Z _ Bench.session H)
    as (st' & E & _).
  exists st'. exact E.
Defined.

Lemma garbled_reply_strands_lock_witness :
  let st' := _read_power_supply_data 1 Lab.reading in
  thread_at 1 Lab.reading = Some T_volt_read
  /\ thread_at 1 st' = Some (T_raised ValueError)
  /\ lock (env (run_burst [2; 2; 1; 2] st')) = Some (1, 1)
  /\ thread_at 2 (run_burst [2; 2; 1; 2] st') = Some T_acquire.
Proof.
  intro st'.
  assert (H : thread_at 1 Lab.reading = Some T_volt_read)
    by (vm_compute; reflexivity).
  assert (H2 : thread_at 2 st' = Some T_acquire)
    by (vm_compute; reflexivity).
  split; [exact H|].
  destruct (@garbled_reply_strands_lock Z _ 1 T_volt_read Lab.reading
              ("OVERLOAD" ++ Bench.cr ++ nl)%string [] H eq_refl)
    as (Hr & _ & Hb).
  - vm_compute. reflexivity.
  - vm_compute. reflexivity.
  - vm_compute. reflexivity.
  - split; [exact Hr|].
    destruct (Hb [2; 2; 1; 2]) as (Hl & Hw).
    split; [exact Hl | exact (Hw 2 H2)].
Defined.

Lemma flag_down_finishes_witness :
  sampling 1 Lab.winding
  /\ thread_at 1 Lab.winding = Some T_volt_read
  /\ thread_at 1 (run_burst (repeat 1 13) Lab.winding) = Some T_finished.
Proof.
  assert (H : thread_at 1 Lab.winding = Some T_volt_read)
    by (vm_compute; reflexivity).
  split; [exact LabFacts.winding_sampling|]. split; [exact H|].
  exact (proj1 (@flag_down_finishes Z _ 1 T_volt_read Lab.winding
                  LabFacts.winding_sampling eq_refl H)).
Defined.

Lemma init_caches_bounds_witness :
  exists st',
    __init__ 1080%Z (fresh Lab.device Bench.calm 20) = Ok tt st'
    /\ forall a, caps (self st') a = Lab.bounds a.
Proof.
  destruct (@init_caches_bounds Z _ Lab.device Lab.answer Lab.bounds
              Bench.calm 20 1080%Z LabFacts.lab_identity
              LabFacts.lab_bounds)
    as (st' & E & C & _).
  exists st'. split; [exact E | exact C].
Defined.

Lemma print_all_info_queries_witness :
  idle Lab.session
  /\ exists st',
       print_all_info Lab.session = Ok tt st'
       /\ transmitted st'
          = transmitted Lab.session
            ++ map (fun q => (q ++ nl)%string) info_queries.
Proof.
  split; [exact LabFacts.lab_idle|].
  destruct (@print_all_info_queries Z _ Lab.device Lab.answer Lab.session
              LabFacts.lab_report LabFacts.lab_numbers)
    as (st' & E & T & _).
  - vm_compute. reflexivity.
  - exact LabFacts.lab_idle.
  - vm_compute. reflexivity.
  - exists st'. split; [exact E | exact T].
Defined.

Lemma session_ready_witness :
  exists st0 st1,
    __init__ 1080%Z (fresh Lab.device Bench.calm 20) = Ok tt st0
    /\ start_power_supply st0 = Ok tt st1
    /\ sampling 1 st1.
Proof.
  destruct (@session_ready Z _ Lab.device Lab.answer Lab.bounds
              Bench.calm 20 1080%Z LabFacts.lab_identity
              LabFacts.lab_bounds LabFacts.lab_measurable)
    as (st0 & st1 & E0 & E1 & S & _).
  - intro h. now rewrite LabFacts.lab_last.
  - exists st0, st1. split; [exact E0|]. split; [exact E1 | exact S].
Defined.

(** ** Samples of the text functions *)

Example str_examples :
  py_str 10%Z = "10" /\ py_str (-3)%Z = "-3" /\ py_str 0%Z = "0".
Proof. repeat split. Qed.

Example float_examples :
  py_float "36" = Some 36%Z /\ py_float "+36.000" = Some 36%Z
  /\ py_float "-5" = Some (-5)%Z /\ py_float EmptyString = None
  /\ py_float "abc" = None /\ py_float "-" = None.
Proof. repeat split. Qed.

Example fmt_examples :
  py_fmt 10%Z = "1.000000000000000000e+01"
  /\ py_fmt 0%Z = "0.000000000000000000e+00"
  /\ py_fmt (-125)%Z = "-1.250000000000000000e+02".
Proof. repeat split. Qed.

Example strip_examples :
  strip ("  5.0" ++ String (ascii_of_nat 13) (String (ascii_of_nat 10) EmptyString))
  = "5.0" /\ strip EmptyString = EmptyString /\ strip " a b " = "a b".
Proof. repeat split. Qed.
